(** * claude-dev-recorder: document store, similarity, merge, quality and
      integrity services.

    A shallow embedding of the TypeScript services
    [DocumentManager], [DocumentMerger], [QualityManager],
    [IntegrityChecker] and of the in-memory similarity check of
    [MCPServer], followed by the properties established about them.

    Conventions of the embedding.
    - A JavaScript string is held as the bytes of its UTF-8 encoding
      ([string]).  [length] and [slice] count UTF-16 code units,
      [toLowerCase] is the one of Unicode and [/\s+/] splits at the white
      space of ECMAScript.
    - A JavaScript number is a double.  Where a property is an order or a
      bound between quantities that are computed exactly (counts, epoch
      milliseconds, their comparisons with constants), the exact rational
      value is used ([Q], or [NaN] where the source can produce one: the
      type [number]).  Where a property states a computed value, or
      compares one with a threshold, the computation is carried out in
      IEEE-754 binary64 with every operation rounded (the type [double],
      module [Binary64]).
    - An ISO-8601 timestamp string is represented by what the code can
      observe of it (the type [isotime]): empty, not parseable by
      [Date], or the epoch milliseconds [new Date(s).getTime()] yields.
    - A markdown file is represented by the metadata and body it parses
      to; reads and writes of the document directories succeed.  What may
      throw in the source and matters below is modelled as throwing: the
      vector index and the append to the audit log.
    - Calls of the console logger are dropped. *)

From Stdlib Require Import String Ascii List Bool Arith ZArith QArith Qminmax Lia.
From Stdlib Require Import Permutation Sorted Lqa DecimalString NArith SpecFloat.
Import ListNotations.

Local Open Scope string_scope.
Local Open Scope list_scope.

(** ** JavaScript values *)

Module JS.

(** [number]: a finite value or NaN. *)
Inductive number : Type :=
| Num (q : Q)
| NaN.

Definition number_eq (a b : number) : Prop :=
  match a, b with
  | Num x, Num y => x == y
  | NaN, NaN => True
  | _, _ => False
  end.

Definition nadd (a b : number) : number :=
  match a, b with
  | Num x, Num y => Num (x + y)
  | _, _ => NaN
  end.

Definition nsub (a b : number) : number :=
  match a, b with
  | Num x, Num y => Num (x - y)
  | _, _ => NaN
  end.

Definition nmul (a b : number) : number :=
  match a, b with
  | Num x, Num y => Num (x * y)
  | _, _ => NaN
  end.

(** [a / b] for a divisor that is not zero (the divisors below are
    non-zero constants). *)
Definition ndiv (a b : number) : number :=
  match a, b with
  | Num x, Num y => if Qeq_bool y 0 then NaN else Num (x / y)
  | _, _ => NaN
  end.

(** [Math.max(a, b)]. *)
Definition Math_max (a b : number) : number :=
  match a, b with
  | Num x, Num y => Num (Qmax x y)
  | _, _ => NaN
  end.

Definition of_nat (n : nat) : Q := inject_Z (Z.of_nat n).

(** [n / d] on two array lengths or set sizes.  [0 / 0] is NaN.  With
    [d = 0 < n] JavaScript yields Infinity; every call below has
    [n <= d], so that case does not arise. *)
Definition div_count (n d : nat) : number :=
  if Nat.eqb d 0 then NaN else Num (of_nat n / of_nat d).

(** [xs.includes(x)] and [set.has(x)] on strings. *)
Definition includes (xs : list string) (x : string) : bool :=
  existsb (String.eqb x) xs.

(** [new Set(xs)], as the list of its members in insertion order: the
    first occurrence of each element is kept. *)
Definition mkSet (xs : list string) : list string :=
  rev (nodup string_dec (rev xs)).

(** [xs.slice(0, n)]. *)
Definition slice0 {A : Type} (n : nat) (xs : list A) : list A := firstn n xs.

(** [xs.flatMap(f)]. *)
Definition flatMap {A B : Type} (f : A -> list B) (xs : list A) : list B :=
  flat_map f xs.

(** *** Strings

    A string is held as the bytes of its UTF-8 encoding; an unpaired
    surrogate, which a JavaScript string may contain, is encoded like any
    other code point of three bytes.  Equality, concatenation, [includes],
    [startsWith] and splitting at an ASCII character come to the same on
    these bytes as on the UTF-16 code units of the string.  [length],
    [slice], [toLowerCase] and the class [\s] are defined through the code
    units and the code points the bytes stand for. *)

(** A byte of the form 10xxxxxx continues a sequence. *)
Definition is_continuation (n : N) : bool := N.leb 128 n && N.ltb n 192.

(** The UTF-16 code units a byte accounts for: none for a continuation
    byte, two for the first byte of a four-byte sequence (a code point
    above U+FFFF is a surrogate pair), one for any other byte. *)
Definition units_of (c : ascii) : nat :=
  let n := N_of_ascii c in
  if is_continuation n then 0%nat else if N.leb 240 n then 2%nat else 1%nat.

(** [s.length]. *)
Fixpoint str_length (s : string) : nat :=
  match s with
  | EmptyString => 0%nat
  | String c r => (units_of c + str_length r)%nat
  end.

(** The payload of the continuation byte at index [i] of [s], if there
    is one. *)
Definition continuation (s : string) (i : nat) : option N :=
  match String.get i s with
  | Some c =>
      let n := N_of_ascii c in
      if is_continuation n then Some (n - 128)%N else None
  | None => None
  end.

(** The code point that starts with the byte [c] followed by [r], and the
    number of bytes of [r] that belong to it.  A byte that starts no
    well-formed sequence (there is none in the encoding of a string)
    counts as a character of its own, numbered above the code points. *)
Definition decode_at (c : ascii) (r : string) : N * nat :=
  let n := N_of_ascii c in
  let other := ((1114112 + n)%N, 0%nat) in
  if N.ltb n 128 then (n, 0%nat)
  else if N.ltb n 192 then other
  else if N.ltb n 224 then
    match continuation r 0%nat with
    | Some a => (((n - 192) * 64 + a)%N, 1%nat)
    | None => other
    end
  else if N.ltb n 240 then
    match continuation r 0%nat, continuation r 1%nat with
    | Some a, Some b => ((((n - 224) * 64 + a) * 64 + b)%N, 2%nat)
    | _, _ => other
    end
  else
    match continuation r 0%nat, continuation r 1%nat, continuation r 2%nat with
    | Some a, Some b, Some d =>
        (((((n - 240) * 64 + a) * 64 + b) * 64 + d)%N, 3%nat)
    | _, _, _ => other
    end.

(** The UTF-8 bytes of a code point. *)
Definition utf8 (cp : N) : string :=
  if N.ltb cp 128 then String (ascii_of_N cp) EmptyString
  else if N.ltb cp 2048 then
    String (ascii_of_N (192 + cp / 64))
      (String (ascii_of_N (128 + cp mod 64)) EmptyString)
  else if N.ltb cp 65536 then
    String (ascii_of_N (224 + cp / 4096))
      (String (ascii_of_N (128 + (cp / 64) mod 64))
         (String (ascii_of_N (128 + cp mod 64)) EmptyString))
  else
    String (ascii_of_N (240 + cp / 262144))
      (String (ascii_of_N (128 + (cp / 4096) mod 64))
         (String (ascii_of_N (128 + (cp / 64) mod 64))
            (String (ascii_of_N (128 + cp mod 64)) EmptyString))).

(** The high surrogate of the pair that stands for the four-byte
    sequence [c], [r]: what [slice] leaves of it when it cuts the pair. *)
Definition high_surrogate (c : ascii) (r : string) : string :=
  let cp := fst (decode_at c r) in
  let w := ((cp - 65536) / 1024)%N in
  String (ascii_of_N 237)
    (String (ascii_of_N (160 + (w / 64) mod 16))
       (String (ascii_of_N (128 + w mod 64)) EmptyString)).

(** [s.slice(0, n)] for a natural number [n]: the first [n] code units. *)
Fixpoint take_units (n : nat) (s : string) : string :=
  match s with
  | EmptyString => EmptyString
  | String c r =>
      match units_of c with
      | O => String c (take_units n r)
      | S O =>
          match n with
          | O => EmptyString
          | S n' => String c (take_units n' r)
          end
      | _ =>
          match n with
          | O => EmptyString
          | S O => high_surrogate c r
          | S (S n') => String c (take_units n' r)
          end
      end
  end.

(** The white space of ECMAScript's [\s]: TAB, LF, VT, FF, CR, the space
    separators, the two line separators and the byte order mark. *)
Definition is_space (cp : N) : bool :=
  (N.leb 9 cp && N.leb cp 13) || N.eqb cp 32 || N.eqb cp 160 || N.eqb cp 5760
  || (N.leb 8192 cp && N.leb cp 8202) || N.eqb cp 8232 || N.eqb cp 8233
  || N.eqb cp 8239 || N.eqb cp 8287 || N.eqb cp 12288 || N.eqb cp 65279.

Local Open Scope N_scope.

(** The case tables of Unicode 14.  The code points with a lower-case
    mapping of their own, as arithmetic runs [(first, last, step, image
    of first)]. *)
Definition lower_ranges : list (N * N * N * N) :=
  [(0x41, 0x5A, 1, 0x61); (0xC0, 0xD6, 1, 0xE0); (0xD8, 0xDE, 1, 0xF8);
   (0x100, 0x12E, 2, 0x101); (0x132, 0x136, 2, 0x133); (0x139, 0x147, 2, 0x13A);
   (0x14A, 0x176, 2, 0x14B); (0x178, 0x178, 1, 0xFF); (0x179, 0x17D, 2, 0x17A);
   (0x181, 0x181, 1, 0x253); (0x182, 0x184, 2, 0x183); (0x186, 0x186, 1, 0x254);
   (0x187, 0x187, 1, 0x188); (0x189, 0x18A, 1, 0x256); (0x18B, 0x18B, 1, 0x18C);
   (0x18E, 0x18E, 1, 0x1DD); (0x18F, 0x18F, 1, 0x259); (0x190, 0x190, 1, 0x25B);
   (0x191, 0x191, 1, 0x192); (0x193, 0x193, 1, 0x260); (0x194, 0x194, 1, 0x263);
   (0x196, 0x196, 1, 0x269); (0x197, 0x197, 1, 0x268); (0x198, 0x198, 1, 0x199);
   (0x19C, 0x19C, 1, 0x26F); (0x19D, 0x19D, 1, 0x272); (0x19F, 0x19F, 1, 0x275);
   (0x1A0, 0x1A4, 2, 0x1A1); (0x1A6, 0x1A6, 1, 0x280); (0x1A7, 0x1A7, 1, 0x1A8);
   (0x1A9, 0x1A9, 1, 0x283); (0x1AC, 0x1AC, 1, 0x1AD); (0x1AE, 0x1AE, 1, 0x288);
   (0x1AF, 0x1AF, 1, 0x1B0); (0x1B1, 0x1B2, 1, 0x28A); (0x1B3, 0x1B5, 2, 0x1B4);
   (0x1B7, 0x1B7, 1, 0x292); (0x1B8, 0x1B8, 1, 0x1B9); (0x1BC, 0x1BC, 1, 0x1BD);
   (0x1C4, 0x1C4, 1, 0x1C6); (0x1C5, 0x1C5, 1, 0x1C6); (0x1C7, 0x1C7, 1, 0x1C9);
   (0x1C8, 0x1C8, 1, 0x1C9); (0x1CA, 0x1CA, 1, 0x1CC); (0x1CB, 0x1DB, 2, 0x1CC);
   (0x1DE, 0x1EE, 2, 0x1DF); (0x1F1, 0x1F1, 1, 0x1F3); (0x1F2, 0x1F4, 2, 0x1F3);
   (0x1F6, 0x1F6, 1, 0x195); (0x1F7, 0x1F7, 1, 0x1BF); (0x1F8, 0x21E, 2, 0x1F9);
   (0x220, 0x220, 1, 0x19E); (0x222, 0x232, 2, 0x223); (0x23A, 0x23A, 1, 0x2C65);
   (0x23B, 0x23B, 1, 0x23C); (0x23D, 0x23D, 1, 0x19A); (0x23E, 0x23E, 1, 0x2C66);
   (0x241, 0x241, 1, 0x242); (0x243, 0x243, 1, 0x180); (0x244, 0x244, 1, 0x289);
   (0x245, 0x245, 1, 0x28C); (0x246, 0x24E, 2, 0x247); (0x370, 0x372, 2, 0x371);
   (0x376, 0x376, 1, 0x377); (0x37F, 0x37F, 1, 0x3F3); (0x386, 0x386, 1, 0x3AC);
   (0x388, 0x38A, 1, 0x3AD); (0x38C, 0x38C, 1, 0x3CC); (0x38E, 0x38F, 1, 0x3CD);
   (0x391, 0x3A1, 1, 0x3B1); (0x3A3, 0x3AB, 1, 0x3C3); (0x3CF, 0x3CF, 1, 0x3D7);
   (0x3D8, 0x3EE, 2, 0x3D9); (0x3F4, 0x3F4, 1, 0x3B8); (0x3F7, 0x3F7, 1, 0x3F8);
   (0x3F9, 0x3F9, 1, 0x3F2); (0x3FA, 0x3FA, 1, 0x3FB); (0x3FD, 0x3FF, 1, 0x37B);
   (0x400, 0x40F, 1, 0x450); (0x410, 0x42F, 1, 0x430); (0x460, 0x480, 2, 0x461);
   (0x48A, 0x4BE, 2, 0x48B); (0x4C0, 0x4C0, 1, 0x4CF); (0x4C1, 0x4CD, 2, 0x4C2);
   (0x4D0, 0x52E, 2, 0x4D1); (0x531, 0x556, 1, 0x561); (0x10A0, 0x10C5, 1, 0x2D00);
   (0x10C7, 0x10C7, 1, 0x2D27); (0x10CD, 0x10CD, 1, 0x2D2D); (0x13A0, 0x13EF, 1, 0xAB70);
   (0x13F0, 0x13F5, 1, 0x13F8); (0x1C90, 0x1CBA, 1, 0x10D0); (0x1CBD, 0x1CBF, 1, 0x10FD);
   (0x1E00, 0x1E94, 2, 0x1E01); (0x1E9E, 0x1E9E, 1, 0xDF); (0x1EA0, 0x1EFE, 2, 0x1EA1);
   (0x1F08, 0x1F0F, 1, 0x1F00); (0x1F18, 0x1F1D, 1, 0x1F10); (0x1F28, 0x1F2F, 1, 0x1F20);
   (0x1F38, 0x1F3F, 1, 0x1F30); (0x1F48, 0x1F4D, 1, 0x1F40); (0x1F59, 0x1F5F, 2, 0x1F51);
   (0x1F68, 0x1F6F, 1, 0x1F60); (0x1F88, 0x1F8F, 1, 0x1F80); (0x1F98, 0x1F9F, 1, 0x1F90);
   (0x1FA8, 0x1FAF, 1, 0x1FA0); (0x1FB8, 0x1FB9, 1, 0x1FB0); (0x1FBA, 0x1FBB, 1, 0x1F70);
   (0x1FBC, 0x1FBC, 1, 0x1FB3); (0x1FC8, 0x1FCB, 1, 0x1F72); (0x1FCC, 0x1FCC, 1, 0x1FC3);
   (0x1FD8, 0x1FD9, 1, 0x1FD0); (0x1FDA, 0x1FDB, 1, 0x1F76); (0x1FE8, 0x1FE9, 1, 0x1FE0);
   (0x1FEA, 0x1FEB, 1, 0x1F7A); (0x1FEC, 0x1FEC, 1, 0x1FE5); (0x1FF8, 0x1FF9, 1, 0x1F78);
   (0x1FFA, 0x1FFB, 1, 0x1F7C); (0x1FFC, 0x1FFC, 1, 0x1FF3); (0x2126, 0x2126, 1, 0x3C9);
   (0x212A, 0x212A, 1, 0x6B); (0x212B, 0x212B, 1, 0xE5); (0x2132, 0x2132, 1, 0x214E);
   (0x2160, 0x216F, 1, 0x2170); (0x2183, 0x2183, 1, 0x2184); (0x24B6, 0x24CF, 1, 0x24D0);
   (0x2C00, 0x2C2F, 1, 0x2C30); (0x2C60, 0x2C60, 1, 0x2C61); (0x2C62, 0x2C62, 1, 0x26B);
   (0x2C63, 0x2C63, 1, 0x1D7D); (0x2C64, 0x2C64, 1, 0x27D); (0x2C67, 0x2C6B, 2, 0x2C68);
   (0x2C6D, 0x2C6D, 1, 0x251); (0x2C6E, 0x2C6E, 1, 0x271); (0x2C6F, 0x2C6F, 1, 0x250);
   (0x2C70, 0x2C70, 1, 0x252); (0x2C72, 0x2C72, 1, 0x2C73); (0x2C75, 0x2C75, 1, 0x2C76);
   (0x2C7E, 0x2C7F, 1, 0x23F); (0x2C80, 0x2CE2, 2, 0x2C81); (0x2CEB, 0x2CED, 2, 0x2CEC);
   (0x2CF2, 0x2CF2, 1, 0x2CF3); (0xA640, 0xA66C, 2, 0xA641); (0xA680, 0xA69A, 2, 0xA681);
   (0xA722, 0xA72E, 2, 0xA723); (0xA732, 0xA76E, 2, 0xA733); (0xA779, 0xA77B, 2, 0xA77A);
   (0xA77D, 0xA77D, 1, 0x1D79); (0xA77E, 0xA786, 2, 0xA77F); (0xA78B, 0xA78B, 1, 0xA78C);
   (0xA78D, 0xA78D, 1, 0x265); (0xA790, 0xA792, 2, 0xA791); (0xA796, 0xA7A8, 2, 0xA797);
   (0xA7AA, 0xA7AA, 1, 0x266); (0xA7AB, 0xA7AB, 1, 0x25C); (0xA7AC, 0xA7AC, 1, 0x261);
   (0xA7AD, 0xA7AD, 1, 0x26C); (0xA7AE, 0xA7AE, 1, 0x26A); (0xA7B0, 0xA7B0, 1, 0x29E);
   (0xA7B1, 0xA7B1, 1, 0x287); (0xA7B2, 0xA7B2, 1, 0x29D); (0xA7B3, 0xA7B3, 1, 0xAB53);
   (0xA7B4, 0xA7C2, 2, 0xA7B5); (0xA7C4, 0xA7C4, 1, 0xA794); (0xA7C5, 0xA7C5, 1, 0x282);
   (0xA7C6, 0xA7C6, 1, 0x1D8E); (0xA7C7, 0xA7C9, 2, 0xA7C8); (0xA7D0, 0xA7D0, 1, 0xA7D1);
   (0xA7D6, 0xA7D8, 2, 0xA7D7); (0xA7F5, 0xA7F5, 1, 0xA7F6); (0xFF21, 0xFF3A, 1, 0xFF41);
   (0x10400, 0x10427, 1, 0x10428); (0x104B0, 0x104D3, 1, 0x104D8); (0x10570, 0x1057A, 1, 0x10597);
   (0x1057C, 0x1058A, 1, 0x105A3); (0x1058C, 0x10592, 1, 0x105B3); (0x10594, 0x10595, 1, 0x105BB);
   (0x10C80, 0x10CB2, 1, 0x10CC0); (0x118A0, 0x118BF, 1, 0x118C0); (0x16E40, 0x16E5F, 1, 0x16E60);
   (0x1E900, 0x1E921, 1, 0x1E922)].

(** The cased code points, as ranges; a code point that is cased and
    case-ignorable is listed as case-ignorable only, which is how the
    context of a final sigma reads it. *)
Definition cased_ranges : list (N * N) :=
  [(0x41, 0x5A); (0x61, 0x7A); (0xAA, 0xAA); (0xB5, 0xB5);
   (0xBA, 0xBA); (0xC0, 0xD6); (0xD8, 0xF6); (0xF8, 0x1BA);
   (0x1BC, 0x1BF); (0x1C4, 0x293); (0x295, 0x2AF); (0x370, 0x373);
   (0x376, 0x377); (0x37B, 0x37D); (0x37F, 0x37F); (0x386, 0x386);
   (0x388, 0x38A); (0x38C, 0x38C); (0x38E, 0x3A1); (0x3A3, 0x3F5);
   (0x3F7, 0x481); (0x48A, 0x52F); (0x531, 0x556); (0x560, 0x588);
   (0x10A0, 0x10C5); (0x10C7, 0x10C7); (0x10CD, 0x10CD); (0x10D0, 0x10FA);
   (0x10FD, 0x10FF); (0x13A0, 0x13F5); (0x13F8, 0x13FD); (0x1C80, 0x1C88);
   (0x1C90, 0x1CBA); (0x1CBD, 0x1CBF); (0x1D00, 0x1D2B); (0x1D6B, 0x1D77);
   (0x1D79, 0x1D9A); (0x1E00, 0x1F15); (0x1F18, 0x1F1D); (0x1F20, 0x1F45);
   (0x1F48, 0x1F4D); (0x1F50, 0x1F57); (0x1F59, 0x1F59); (0x1F5B, 0x1F5B);
   (0x1F5D, 0x1F5D); (0x1F5F, 0x1F7D); (0x1F80, 0x1FB4); (0x1FB6, 0x1FBC);
   (0x1FBE, 0x1FBE); (0x1FC2, 0x1FC4); (0x1FC6, 0x1FCC); (0x1FD0, 0x1FD3);
   (0x1FD6, 0x1FDB); (0x1FE0, 0x1FEC); (0x1FF2, 0x1FF4); (0x1FF6, 0x1FFC);
   (0x2102, 0x2102); (0x2107, 0x2107); (0x210A, 0x2113); (0x2115, 0x2115);
   (0x2119, 0x211D); (0x2124, 0x2124); (0x2126, 0x2126); (0x2128, 0x2128);
   (0x212A, 0x212D); (0x212F, 0x2134); (0x2139, 0x2139); (0x213C, 0x213F);
   (0x2145, 0x2149); (0x214E, 0x214E); (0x2160, 0x217F); (0x2183, 0x2184);
   (0x24B6, 0x24E9); (0x2C00, 0x2C7B); (0x2C7E, 0x2CE4); (0x2CEB, 0x2CEE);
   (0x2CF2, 0x2CF3); (0x2D00, 0x2D25); (0x2D27, 0x2D27); (0x2D2D, 0x2D2D);
   (0xA640, 0xA66D); (0xA680, 0xA69B); (0xA722, 0xA76F); (0xA771, 0xA787);
   (0xA78B, 0xA78E); (0xA790, 0xA7CA); (0xA7D0, 0xA7D1); (0xA7D3, 0xA7D3);
   (0xA7D5, 0xA7D9); (0xA7F5, 0xA7F6); (0xA7FA, 0xA7FA); (0xAB30, 0xAB5A);
   (0xAB60, 0xAB68); (0xAB70, 0xABBF); (0xFB00, 0xFB06); (0xFB13, 0xFB17);
   (0xFF21, 0xFF3A); (0xFF41, 0xFF5A); (0x10400, 0x1044F); (0x104B0, 0x104D3);
   (0x104D8, 0x104FB); (0x10570, 0x1057A); (0x1057C, 0x1058A); (0x1058C, 0x10592);
   (0x10594, 0x10595); (0x10597, 0x105A1); (0x105A3, 0x105B1); (0x105B3, 0x105B9);
   (0x105BB, 0x105BC); (0x10C80, 0x10CB2); (0x10CC0, 0x10CF2); (0x118A0, 0x118DF);
   (0x16E40, 0x16E7F); (0x1D400, 0x1D454); (0x1D456, 0x1D49C); (0x1D49E, 0x1D49F);
   (0x1D4A2, 0x1D4A2); (0x1D4A5, 0x1D4A6); (0x1D4A9, 0x1D4AC); (0x1D4AE, 0x1D4B9);
   (0x1D4BB, 0x1D4BB); (0x1D4BD, 0x1D4C3); (0x1D4C5, 0x1D505); (0x1D507, 0x1D50A);
   (0x1D50D, 0x1D514); (0x1D516, 0x1D51C); (0x1D51E, 0x1D539); (0x1D53B, 0x1D53E);
   (0x1D540, 0x1D544); (0x1D546, 0x1D546); (0x1D54A, 0x1D550); (0x1D552, 0x1D6A5);
   (0x1D6A8, 0x1D6C0); (0x1D6C2, 0x1D6DA); (0x1D6DC, 0x1D6FA); (0x1D6FC, 0x1D714);
   (0x1D716, 0x1D734); (0x1D736, 0x1D74E); (0x1D750, 0x1D76E); (0x1D770, 0x1D788);
   (0x1D78A, 0x1D7A8); (0x1D7AA, 0x1D7C2); (0x1D7C4, 0x1D7CB); (0x1DF00, 0x1DF09);
   (0x1DF0B, 0x1DF1E); (0x1E900, 0x1E943); (0x1F130, 0x1F149); (0x1F150, 0x1F169);
   (0x1F170, 0x1F189)].

(** The case-ignorable code points, as ranges. *)
Definition case_ignorable_ranges : list (N * N) :=
  [(0x27, 0x27); (0x2E, 0x2E); (0x3A, 0x3A); (0x5E, 0x5E);
   (0x60, 0x60); (0xA8, 0xA8); (0xAD, 0xAD); (0xAF, 0xAF);
   (0xB4, 0xB4); (0xB7, 0xB8); (0x2B0, 0x36F); (0x374, 0x375);
   (0x37A, 0x37A); (0x384, 0x385); (0x387, 0x387); (0x483, 0x489);
   (0x559, 0x559); (0x55F, 0x55F); (0x591, 0x5BD); (0x5BF, 0x5BF);
   (0x5C1, 0x5C2); (0x5C4, 0x5C5); (0x5C7, 0x5C7); (0x5F4, 0x5F4);
   (0x600, 0x605); (0x610, 0x61A); (0x61C, 0x61C); (0x640, 0x640);
   (0x64B, 0x65F); (0x670, 0x670); (0x6D6, 0x6DD); (0x6DF, 0x6E8);
   (0x6EA, 0x6ED); (0x70F, 0x70F); (0x711, 0x711); (0x730, 0x74A);
   (0x7A6, 0x7B0); (0x7EB, 0x7F5); (0x7FA, 0x7FA); (0x7FD, 0x7FD);
   (0x816, 0x82D); (0x859, 0x85B); (0x888, 0x888); (0x890, 0x891);
   (0x898, 0x89F); (0x8C9, 0x902); (0x93A, 0x93A); (0x93C, 0x93C);
   (0x941, 0x948); (0x94D, 0x94D); (0x951, 0x957); (0x962, 0x963);
   (0x971, 0x971); (0x981, 0x981); (0x9BC, 0x9BC); (0x9C1, 0x9C4);
   (0x9CD, 0x9CD); (0x9E2, 0x9E3); (0x9FE, 0x9FE); (0xA01, 0xA02);
   (0xA3C, 0xA3C); (0xA41, 0xA42); (0xA47, 0xA48); (0xA4B, 0xA4D);
   (0xA51, 0xA51); (0xA70, 0xA71); (0xA75, 0xA75); (0xA81, 0xA82);
   (0xABC, 0xABC); (0xAC1, 0xAC5); (0xAC7, 0xAC8); (0xACD, 0xACD);
   (0xAE2, 0xAE3); (0xAFA, 0xAFF); (0xB01, 0xB01); (0xB3C, 0xB3C);
   (0xB3F, 0xB3F); (0xB41, 0xB44); (0xB4D, 0xB4D); (0xB55, 0xB56);
   (0xB62, 0xB63); (0xB82, 0xB82); (0xBC0, 0xBC0); (0xBCD, 0xBCD);
   (0xC00, 0xC00); (0xC04, 0xC04); (0xC3C, 0xC3C); (0xC3E, 0xC40);
   (0xC46, 0xC48); (0xC4A, 0xC4D); (0xC55, 0xC56); (0xC62, 0xC63);
   (0xC81, 0xC81); (0xCBC, 0xCBC); (0xCBF, 0xCBF); (0xCC6, 0xCC6);
   (0xCCC, 0xCCD); (0xCE2, 0xCE3); (0xD00, 0xD01); (0xD3B, 0xD3C);
   (0xD41, 0xD44); (0xD4D, 0xD4D); (0xD62, 0xD63); (0xD81, 0xD81);
   (0xDCA, 0xDCA); (0xDD2, 0xDD4); (0xDD6, 0xDD6); (0xE31, 0xE31);
   (0xE34, 0xE3A); (0xE46, 0xE4E); (0xEB1, 0xEB1); (0xEB4, 0xEBC);
   (0xEC6, 0xEC6); (0xEC8, 0xECD); (0xF18, 0xF19); (0xF35, 0xF35);
   (0xF37, 0xF37); (0xF39, 0xF39); (0xF71, 0xF7E); (0xF80, 0xF84);
   (0xF86, 0xF87); (0xF8D, 0xF97); (0xF99, 0xFBC); (0xFC6, 0xFC6);
   (0x102D, 0x1030); (0x1032, 0x1037); (0x1039, 0x103A); (0x103D, 0x103E);
   (0x1058, 0x1059); (0x105E, 0x1060); (0x1071, 0x1074); (0x1082, 0x1082);
   (0x1085, 0x1086); (0x108D, 0x108D); (0x109D, 0x109D); (0x10FC, 0x10FC);
   (0x135D, 0x135F); (0x1712, 0x1714); (0x1732, 0x1733); (0x1752, 0x1753);
   (0x1772, 0x1773); (0x17B4, 0x17B5); (0x17B7, 0x17BD); (0x17C6, 0x17C6);
   (0x17C9, 0x17D3); (0x17D7, 0x17D7); (0x17DD, 0x17DD); (0x180B, 0x180F);
   (0x1843, 0x1843); (0x1885, 0x1886); (0x18A9, 0x18A9); (0x1920, 0x1922);
   (0x1927, 0x1928); (0x1932, 0x1932); (0x1939, 0x193B); (0x1A17, 0x1A18);
   (0x1A1B, 0x1A1B); (0x1A56, 0x1A56); (0x1A58, 0x1A5E); (0x1A60, 0x1A60);
   (0x1A62, 0x1A62); (0x1A65, 0x1A6C); (0x1A73, 0x1A7C); (0x1A7F, 0x1A7F);
   (0x1AA7, 0x1AA7); (0x1AB0, 0x1ACE); (0x1B00, 0x1B03); (0x1B34, 0x1B34);
   (0x1B36, 0x1B3A); (0x1B3C, 0x1B3C); (0x1B42, 0x1B42); (0x1B6B, 0x1B73);
   (0x1B80, 0x1B81); (0x1BA2, 0x1BA5); (0x1BA8, 0x1BA9); (0x1BAB, 0x1BAD);
   (0x1BE6, 0x1BE6); (0x1BE8, 0x1BE9); (0x1BED, 0x1BED); (0x1BEF, 0x1BF1);
   (0x1C2C, 0x1C33); (0x1C36, 0x1C37); (0x1C78, 0x1C7D); (0x1CD0, 0x1CD2);
   (0x1CD4, 0x1CE0); (0x1CE2, 0x1CE8); (0x1CED, 0x1CED); (0x1CF4, 0x1CF4);
   (0x1CF8, 0x1CF9); (0x1D2C, 0x1D6A); (0x1D78, 0x1D78); (0x1D9B, 0x1DFF);
   (0x1FBD, 0x1FBD); (0x1FBF, 0x1FC1); (0x1FCD, 0x1FCF); (0x1FDD, 0x1FDF);
   (0x1FED, 0x1FEF); (0x1FFD, 0x1FFE); (0x200B, 0x200F); (0x2018, 0x2019);
   (0x2024, 0x2024); (0x2027, 0x2027); (0x202A, 0x202E); (0x2060, 0x2064);
   (0x2066, 0x206F); (0x2071, 0x2071); (0x207F, 0x207F); (0x2090, 0x209C);
   (0x20D0, 0x20F0); (0x2C7C, 0x2C7D); (0x2CEF, 0x2CF1); (0x2D6F, 0x2D6F);
   (0x2D7F, 0x2D7F); (0x2DE0, 0x2DFF); (0x2E2F, 0x2E2F); (0x3005, 0x3005);
   (0x302A, 0x302D); (0x3031, 0x3035); (0x303B, 0x303B); (0x3099, 0x309E);
   (0x30FC, 0x30FE); (0xA015, 0xA015); (0xA4F8, 0xA4FD); (0xA60C, 0xA60C);
   (0xA66F, 0xA672); (0xA674, 0xA67D); (0xA67F, 0xA67F); (0xA69C, 0xA69F);
   (0xA6F0, 0xA6F1); (0xA700, 0xA721); (0xA770, 0xA770); (0xA788, 0xA78A);
   (0xA7F2, 0xA7F4); (0xA7F8, 0xA7F9); (0xA802, 0xA802); (0xA806, 0xA806);
   (0xA80B, 0xA80B); (0xA825, 0xA826); (0xA82C, 0xA82C); (0xA8C4, 0xA8C5);
   (0xA8E0, 0xA8F1); (0xA8FF, 0xA8FF); (0xA926, 0xA92D); (0xA947, 0xA951);
   (0xA980, 0xA982); (0xA9B3, 0xA9B3); (0xA9B6, 0xA9B9); (0xA9BC, 0xA9BD);
   (0xA9CF, 0xA9CF); (0xA9E5, 0xA9E6); (0xAA29, 0xAA2E); (0xAA31, 0xAA32);
   (0xAA35, 0xAA36); (0xAA43, 0xAA43); (0xAA4C, 0xAA4C); (0xAA70, 0xAA70);
   (0xAA7C, 0xAA7C); (0xAAB0, 0xAAB0); (0xAAB2, 0xAAB4); (0xAAB7, 0xAAB8);
   (0xAABE, 0xAABF); (0xAAC1, 0xAAC1); (0xAADD, 0xAADD); (0xAAEC, 0xAAED);
   (0xAAF3, 0xAAF4); (0xAAF6, 0xAAF6); (0xAB5B, 0xAB5F); (0xAB69, 0xAB6B);
   (0xABE5, 0xABE5); (0xABE8, 0xABE8); (0xABED, 0xABED); (0xFB1E, 0xFB1E);
   (0xFBB2, 0xFBC2); (0xFE00, 0xFE0F); (0xFE13, 0xFE13); (0xFE20, 0xFE2F);
   (0xFE52, 0xFE52); (0xFE55, 0xFE55); (0xFEFF, 0xFEFF); (0xFF07, 0xFF07);
   (0xFF0E, 0xFF0E); (0xFF1A, 0xFF1A); (0xFF3E, 0xFF3E); (0xFF40, 0xFF40);
   (0xFF70, 0xFF70); (0xFF9E, 0xFF9F); (0xFFE3, 0xFFE3); (0xFFF9, 0xFFFB);
   (0x101FD, 0x101FD); (0x102E0, 0x102E0); (0x10376, 0x1037A); (0x10780, 0x10785);
   (0x10787, 0x107B0); (0x107B2, 0x107BA); (0x10A01, 0x10A03); (0x10A05, 0x10A06);
   (0x10A0C, 0x10A0F); (0x10A38, 0x10A3A); (0x10A3F, 0x10A3F); (0x10AE5, 0x10AE6);
   (0x10D24, 0x10D27); (0x10EAB, 0x10EAC); (0x10F46, 0x10F50); (0x10F82, 0x10F85);
   (0x11001, 0x11001); (0x11038, 0x11046); (0x11070, 0x11070); (0x11073, 0x11074);
   (0x1107F, 0x11081); (0x110B3, 0x110B6); (0x110B9, 0x110BA); (0x110BD, 0x110BD);
   (0x110C2, 0x110C2); (0x110CD, 0x110CD); (0x11100, 0x11102); (0x11127, 0x1112B);
   (0x1112D, 0x11134); (0x11173, 0x11173); (0x11180, 0x11181); (0x111B6, 0x111BE);
   (0x111C9, 0x111CC); (0x111CF, 0x111CF); (0x1122F, 0x11231); (0x11234, 0x11234);
   (0x11236, 0x11237); (0x1123E, 0x1123E); (0x112DF, 0x112DF); (0x112E3, 0x112EA);
   (0x11300, 0x11301); (0x1133B, 0x1133C); (0x11340, 0x11340); (0x11366, 0x1136C);
   (0x11370, 0x11374); (0x11438, 0x1143F); (0x11442, 0x11444); (0x11446, 0x11446);
   (0x1145E, 0x1145E); (0x114B3, 0x114B8); (0x114BA, 0x114BA); (0x114BF, 0x114C0);
   (0x114C2, 0x114C3); (0x115B2, 0x115B5); (0x115BC, 0x115BD); (0x115BF, 0x115C0);
   (0x115DC, 0x115DD); (0x11633, 0x1163A); (0x1163D, 0x1163D); (0x1163F, 0x11640);
   (0x116AB, 0x116AB); (0x116AD, 0x116AD); (0x116B0, 0x116B5); (0x116B7, 0x116B7);
   (0x1171D, 0x1171F); (0x11722, 0x11725); (0x11727, 0x1172B); (0x1182F, 0x11837);
   (0x11839, 0x1183A); (0x1193B, 0x1193C); (0x1193E, 0x1193E); (0x11943, 0x11943);
   (0x119D4, 0x119D7); (0x119DA, 0x119DB); (0x119E0, 0x119E0); (0x11A01, 0x11A0A);
   (0x11A33, 0x11A38); (0x11A3B, 0x11A3E); (0x11A47, 0x11A47); (0x11A51, 0x11A56);
   (0x11A59, 0x11A5B); (0x11A8A, 0x11A96); (0x11A98, 0x11A99); (0x11C30, 0x11C36);
   (0x11C38, 0x11C3D); (0x11C3F, 0x11C3F); (0x11C92, 0x11CA7); (0x11CAA, 0x11CB0);
   (0x11CB2, 0x11CB3); (0x11CB5, 0x11CB6); (0x11D31, 0x11D36); (0x11D3A, 0x11D3A);
   (0x11D3C, 0x11D3D); (0x11D3F, 0x11D45); (0x11D47, 0x11D47); (0x11D90, 0x11D91);
   (0x11D95, 0x11D95); (0x11D97, 0x11D97); (0x11EF3, 0x11EF4); (0x13430, 0x13438);
   (0x16AF0, 0x16AF4); (0x16B30, 0x16B36); (0x16B40, 0x16B43); (0x16F4F, 0x16F4F);
   (0x16F8F, 0x16F9F); (0x16FE0, 0x16FE1); (0x16FE3, 0x16FE4); (0x1AFF0, 0x1AFF3);
   (0x1AFF5, 0x1AFFB); (0x1AFFD, 0x1AFFE); (0x1BC9D, 0x1BC9E); (0x1BCA0, 0x1BCA3);
   (0x1CF00, 0x1CF2D); (0x1CF30, 0x1CF46); (0x1D167, 0x1D169); (0x1D173, 0x1D182);
   (0x1D185, 0x1D18B); (0x1D1AA, 0x1D1AD); (0x1D242, 0x1D244); (0x1DA00, 0x1DA36);
   (0x1DA3B, 0x1DA6C); (0x1DA75, 0x1DA75); (0x1DA84, 0x1DA84); (0x1DA9B, 0x1DA9F);
   (0x1DAA1, 0x1DAAF); (0x1E000, 0x1E006); (0x1E008, 0x1E018); (0x1E01B, 0x1E021);
   (0x1E023, 0x1E024); (0x1E026, 0x1E02A); (0x1E130, 0x1E13D); (0x1E2AE, 0x1E2AE);
   (0x1E2EC, 0x1E2EF); (0x1E8D0, 0x1E8D6); (0x1E944, 0x1E94B); (0x1F3FB, 0x1F3FF);
   (0xE0001, 0xE0001); (0xE0020, 0xE007F); (0xE0100, 0xE01EF)].
Local Close Scope N_scope.

Fixpoint lower_in (t : list (N * N * N * N)) (cp : N) : N :=
  match t with
  | [] => cp
  | (lo, hi, step, image) :: r =>
      if N.ltb cp lo then cp
      else if N.leb cp hi && N.eqb ((cp - lo) mod step) 0 then (image + (cp - lo))%N
      else lower_in r cp
  end.

Fixpoint in_ranges (t : list (N * N)) (cp : N) : bool :=
  match t with
  | [] => false
  | (lo, hi) :: r =>
      if N.ltb cp lo then false
      else if N.leb cp hi then true
      else in_ranges r cp
  end.

Definition cased (cp : N) : bool := in_ranges cased_ranges cp.

Definition case_ignorable (cp : N) : bool := in_ranges case_ignorable_ranges cp.

(** The lower-case mapping of a code point out of context; U+0130 is the
    one code point that maps to two. *)
Definition lower_cp (cp : N) : list N :=
  if N.eqb cp 304 then [105%N; 775%N] else [lower_in lower_ranges cp].

(** Whether, after the [skip] bytes that end the current sequence, a
    cased letter follows, case-ignorable characters apart. *)
Fixpoint cased_ahead (s : string) (skip : nat) : bool :=
  match s with
  | EmptyString => false
  | String c r =>
      match skip with
      | S k => cased_ahead r k
      | O =>
          let '(cp, k) := decode_at c r in
          if case_ignorable cp then cased_ahead r k else cased cp
      end
  end.

Definition utf8s (cps : list N) : string :=
  fold_right (fun cp s => (utf8 cp ++ s)%string) EmptyString cps.

(** [toLowerCase] from left to right.  [skip] counts the bytes that
    remain of the sequence just converted; [after_cased] tells whether a
    cased letter stands before, case-ignorable characters apart.  A
    capital sigma (U+03A3) becomes a final sigma (U+03C2) after a cased
    letter when none follows, and a small sigma (U+03C3) otherwise. *)
Fixpoint lower_from (s : string) (skip : nat) (after_cased : bool) : string :=
  match s with
  | EmptyString => EmptyString
  | String c r =>
      match skip with
      | S k => lower_from r k after_cased
      | O =>
          let '(cp, k) := decode_at c r in
          if N.leb 1114112 cp then String c (lower_from r 0%nat false)
          else
            let out :=
              if N.eqb cp 931 then
                if after_cased && negb (cased_ahead r k) then [962%N] else [963%N]
              else lower_cp cp in
            (utf8s out
             ++ lower_from r k (if case_ignorable cp then after_cased else cased cp))%string
      end
  end.

(** [s.toLowerCase()]. *)
Definition toLowerCase (s : string) : string := lower_from s 0%nat false.

(** [s.split(/\s+/)]: a maximal run of white space is one separator; a
    leading or trailing run yields an empty first or last piece, and the
    empty string yields one empty piece.  [skip] counts the bytes that
    remain of the current sequence. *)
Fixpoint split_ws_from (s : string) (cur : string) (in_ws : bool) (skip : nat)
    : list string :=
  match s with
  | EmptyString => [cur]
  | String c r =>
      match skip with
      | S k =>
          if in_ws then split_ws_from r cur true k
          else split_ws_from r (cur ++ String c EmptyString)%string false k
      | O =>
          let '(cp, k) := decode_at c r in
          if is_space cp then
            if in_ws then split_ws_from r cur true k
            else cur :: split_ws_from r EmptyString true k
          else split_ws_from r (cur ++ String c EmptyString)%string false k
      end
  end.

Definition split_ws (s : string) : list string :=
  split_ws_from s EmptyString false 0%nat.

(** [s.split(sep)] for a one-character separator. *)
Fixpoint split_char_from (sep : ascii) (s : string) (cur : string) : list string :=
  match s with
  | EmptyString => [cur]
  | String c r =>
      if Ascii.eqb c sep then cur :: split_char_from sep r EmptyString
      else split_char_from sep r (cur ++ String c EmptyString)%string
  end.

Definition split_char (sep : ascii) (s : string) : list string :=
  split_char_from sep s EmptyString.

(** [s.startsWith(p)]. *)
Definition startsWith (s p : string) : bool := String.prefix p s.

(** [xs.join(sep)]. *)
Definition join (sep : string) (xs : list string) : string := String.concat sep xs.

(** [a < b] and [a > b]; every comparison with NaN is false. *)
Definition nlt (a b : number) : bool :=
  match a, b with
  | Num x, Num y => negb (Qle_bool y x)
  | _, _ => false
  end.

Definition ngt (a b : number) : bool := nlt b a.

(** [s.includes(sub)] on strings. *)
Fixpoint str_includes (s sub : string) : bool :=
  String.prefix sub s
  || match s with
     | EmptyString => false
     | String _ r => str_includes r sub
     end.

(** [xs.sort(cmp)].  The sort is stable; [x], which stands before [y],
    is moved behind it when [cmp(x, y) > 0], and a NaN from the comparator
    counts as 0.  (ECMAScript fixes the result when the comparator is a
    consistent order, which is the case the properties below are about.) *)
Fixpoint insertBy {A : Type} (cmp : A -> A -> number) (x : A) (l : list A) : list A :=
  match l with
  | [] => [x]
  | y :: r => if ngt (cmp x y) (Num 0) then y :: insertBy cmp x r else x :: y :: r
  end.

Definition sortBy {A : Type} (cmp : A -> A -> number) (l : list A) : list A :=
  fold_right (insertBy cmp) [] l.

(** *** Doubles

    IEEE-754 binary64 with rounding to nearest, ties to even: the
    operations of the standard library's [SpecFloat] at precision 53. *)

Definition double : Type := spec_float.

Definition dprec : Z := 53.

Definition demax : Z := 1024.

Definition dadd (a b : double) : double := SFadd dprec demax a b.

Definition dsub (a b : double) : double := SFsub dprec demax a b.

Definition dmul (a b : double) : double := SFmul dprec demax a b.

Definition ddiv (a b : double) : double := SFdiv dprec demax a b.

(** The double nearest to an integer (the integer itself up to 2^53). *)
Definition double_of_Z (z : Z) : double := binary_normalize dprec demax z 0 false.

Definition double_of_nat (n : nat) : double := double_of_Z (Z.of_nat n).

(** The double a decimal literal denotes, the literal read as the
    fraction [n / d] with [d] a power of ten: [0.6] is [decimal 6 10]. *)
Definition decimal (n d : Z) : double := ddiv (double_of_Z n) (double_of_Z d).

(** The double nearest to a rational. *)
Definition double_of_Q (q : Q) : double :=
  match Qnum q with
  | Z0 => S754_zero false
  | Zpos n => ddiv (S754_finite false n 0) (S754_finite false (Qden q) 0)
  | Zneg n => ddiv (S754_finite true n 0) (S754_finite false (Qden q) 0)
  end.

(** [a >= b], [a < b] and [a > b]; every comparison with NaN is false. *)
Definition dge (a b : double) : bool := SFleb b a.

Definition dlt (a b : double) : bool := SFltb a b.

Definition dgt (a b : double) : bool := SFltb b a.

(** [Math.max(a, b)]. *)
Definition dmax (a b : double) : double :=
  match a, b with
  | S754_nan, _ | _, S754_nan => S754_nan
  | S754_zero sa, S754_zero sb => S754_zero (sa && sb)
  | _, _ => if SFltb a b then b else a
  end.

(** [x || 0] on a number: 0 and NaN are falsy. *)
Definition or_zero (x : double) : double :=
  match x with
  | S754_nan | S754_zero _ => S754_zero false
  | _ => x
  end.

(** The exact value of a finite double, as a fraction in lowest terms. *)
Definition value (x : double) : option Q :=
  match x with
  | S754_zero _ => Some 0
  | S754_finite s m e => Some (Qred (inject_Z (cond_Zopp s (Zpos m)) * Qpower 2 e))
  | _ => None
  end.

End JS.

Import JS.

(** ** The document model ([models/Document.ts]) *)

(** What the code observes of a timestamp string. *)
Inductive isotime : Type :=
| NoTime                (* the empty string: falsy *)
| BadTime               (* a non-empty string [Date] cannot parse *)
| Time (ms : Z).        (* parses to [ms] epoch milliseconds *)

(** [new Date(t).getTime()]. *)
Definition getTime (t : isotime) : number :=
  match t with
  | Time ms => Num (inject_Z ms)
  | _ => NaN
  end.

(** [author: string | string[]]. *)
Inductive author_t : Type :=
| Author (a : string)
| Authors (l : list string).

Record ChangeLogEntry : Type := mkChangeLogEntry {
  cl_timestamp : isotime;
  cl_action : string;
  cl_author : string;
  cl_reason : option string
}.

Record DocumentMetadata : Type := mkMetadata {
  id : string;
  created : isotime;
  updated : isotime;
  author : author_t;
  tags : list string;
  prompt_hash : string;
  related_files : list string;
  summary : string;
  ultra_summary : string;
  standard_summary : string;
  embedding_model : string;
  version : string;
  merged_from : option (list string);
  merge_method : option string;
  merge_timestamp : option isotime;
  is_merged : option bool;
  reference_count : option Q;
  change_log : option (list ChangeLogEntry)
}.

Record Document : Type := mkDocument {
  metadata : DocumentMetadata;
  content : string;
  file_path : string
}.

Record CreateDocParams : Type := mkCreateDocParams {
  p_files : list string;
  p_prompt : string;
  p_summary : option string
}.

(** ** File overlap ([DocumentMerger.calculateFileOverlap],
       [MCPServer.calculateFileOverlap]: the two bodies are the same) *)

Definition intersection_size (xs ys : list string) : nat :=
  let setA := mkSet xs in
  let setB := mkSet ys in
  length (filter (fun f => includes setB f) setA).

Definition calculateFileOverlap (filesA filesB : list string) : Q :=
  if Nat.eqb (length filesA) 0 || Nat.eqb (length filesB) 0 then 0
  else of_nat (intersection_size filesA filesB)
       / of_nat (Nat.max (length filesA) (length filesB)).

(** ** The memory cache of [MCPServer]: similarity of a new document,
       keyword search, project context *)

Module MCPServer.

(** [commonTags.length / Math.max(tagsA.length, tagsB.length)], where
    [commonTags = tagsA.filter(tag => tagsB.includes(tag))]. *)
Definition tagSimilarity (tagsA tagsB : list string) : number :=
  let commonTags := filter (fun tag => includes tagsB tag) tagsA in
  div_count (length commonTags) (Nat.max (length tagsA) (length tagsB)).

Definition words (text : string) : list string :=
  mkSet (split_ws (toLowerCase text)).

Definition calculateKeywordSimilarity (textA textB : string) : number :=
  let wordsA := words textA in
  let wordsB := words textB in
  let intersection := mkSet (filter (fun w => includes wordsB w) wordsA) in
  div_count (length intersection) (Nat.max (length wordsA) (length wordsB)).

(** The exact value of the sum the body of the loop of
    [findSimilarInMemory] forms for one cached document: [similarity]
    starts at 0 and the three weighted parts are added in turn.
    [Binary64.similarity] is the double the code gets. *)
Definition similarity (newDoc doc : Document) : number :=
  let similarity0 := Num 0 in
  let fileOverlap :=
    calculateFileOverlap (related_files (metadata newDoc))
                         (related_files (metadata doc)) in
  let similarity1 := nadd similarity0 (nmul (Num fileOverlap) (Num (6 # 10))) in
  let tagSim := tagSimilarity (tags (metadata newDoc)) (tags (metadata doc)) in
  let similarity2 := nadd similarity1 (nmul tagSim (Num (2 # 10))) in
  let keywordSim :=
    calculateKeywordSimilarity (summary (metadata newDoc)) (summary (metadata doc)) in
  nadd similarity2 (nmul keywordSim (Num (2 # 10))).

(** *** Keyword search in the cache ([searchInMemory]) *)

(** The score the loop of [searchInMemory] gives one document;
    [queryLower] is the lower-cased query. *)
Definition searchScore (queryLower : string) (doc : Document) : nat :=
  let score0 := 0%nat in
  let score1 :=
    if str_includes (toLowerCase (summary (metadata doc))) queryLower
    then (score0 + 10)%nat else score0 in
  let score2 :=
    fold_left (fun score tag =>
                 if str_includes queryLower (toLowerCase tag)
                 then (score + 5)%nat else score)
              (tags (metadata doc)) score1 in
  fold_left (fun score file =>
               if str_includes queryLower (toLowerCase file)
               then (score + 3)%nat else score)
            (related_files (metadata doc)) score2.

(** The comparator [b.score - a.score]. *)
Definition byScore (a b : Document * nat) : number :=
  Num (of_nat (snd b) - of_nat (snd a)).

(** [searchInMemory(query, limit)] for a limit that is a natural number. *)
Definition searchInMemory (documentCache : list (string * Document))
    (query : string) (limit : nat) : list Document :=
  let queryLower := toLowerCase query in
  let results :=
    flat_map (fun entry : string * Document =>
                let doc := snd entry in
                let score := searchScore queryLower doc in
                if Nat.ltb 0 score then [(doc, score)] else [])
             documentCache in
  map fst (slice0 limit (sortBy byScore results)).

(** *** The project context ([buildProjectContext], [updateProjectContext]) *)

(** A [Map<string, Document[]>] in insertion order. *)
Definition Index : Type := list (string * list Document).

Record ProjectContext : Type := mkContext {
  byDate : Index;
  byTag : Index;
  byFile : Index;
  allDocs : list Document
}.

(** [index.get(key)]. *)
Definition indexGet (index : Index) (key : string) : option (list Document) :=
  match find (fun e => String.eqb (fst e) key) index with
  | Some e => Some (snd e)
  | None => None
  end.

(** The documents filed under [key], none when the key is absent. *)
Definition docsUnder (index : Index) (key : string) : list Document :=
  match indexGet index key with
  | Some docs => docs
  | None => []
  end.

(** [if (!index.has(key)) index.set(key, []); index.get(key).push(doc)]. *)
Fixpoint indexPush (index : Index) (key : string) (doc : Document) : Index :=
  match index with
  | [] => [(key, [doc])]
  | (k, docs) :: r =>
      if String.eqb k key then (k, docs ++ [doc]) :: r
      else (k, docs) :: indexPush r key doc
  end.

Section WithDates.

(** [created.split('T')[0]]: the date part of a creation time. *)
Variable datePart : isotime -> string.

(** The body of the loop of [buildProjectContext] for one document, on
    the three maps. *)
Definition buildStep (maps : Index * Index * Index) (doc : Document)
    : Index * Index * Index :=
  let '(byDate, byTag, byFile) := maps in
  let byDate' := indexPush byDate (datePart (created (metadata doc))) doc in
  let byTag' := fold_left (fun m tag => indexPush m tag doc) (tags (metadata doc)) byTag in
  let byFile' :=
    fold_left (fun m file => indexPush m file doc) (related_files (metadata doc)) byFile in
  (byDate', byTag', byFile').

Definition buildProjectContext (docs : list Document) : ProjectContext :=
  let '(byDate, byTag, byFile) := fold_left buildStep docs ([], [], []) in
  mkContext byDate byTag byFile docs.

(** [updateProjectContext(doc)] on the field [projectContext], which is
    null before the first load. *)
Definition updateProjectContext (projectContext : option ProjectContext)
    (doc : Document) : option ProjectContext :=
  match projectContext with
  | None => None
  | Some ctx =>
      let date := datePart (created (metadata doc)) in
      let byDate' := indexPush (byDate ctx) date doc in
      let byTag' :=
        fold_left (fun m tag => indexPush m tag doc) (tags (metadata doc)) (byTag ctx) in
      let byFile' :=
        fold_left (fun m file => indexPush m file doc) (related_files (metadata doc))
                  (byFile ctx) in
      Some (mkContext byDate' byTag' byFile' (allDocs ctx ++ [doc]))
  end.

End WithDates.

(** [getRecentDocumentsFromMemory(count)] for a natural number [count]. *)
Definition getRecentDocumentsFromMemory (projectContext : option ProjectContext)
    (documentCache : list (string * Document)) (count : nat) : list Document :=
  match projectContext with
  | None => []
  | Some _ =>
      slice0 count
        (sortBy (fun a b => nsub (getTime (created (metadata b)))
                                 (getTime (created (metadata a))))
                (map snd documentCache))
  end.

End MCPServer.

(** The similarity the specification words describe, for comparison. *)
Module SpecScore.

Definition union_size (xs ys : list string) : nat :=
  length (mkSet (xs ++ ys)).

(** Intersection over union of two sets; 0 when either set is empty. *)
Definition jaccard (xs ys : list string) : Q :=
  if Nat.eqb (length (mkSet xs)) 0 || Nat.eqb (length (mkSet ys)) 0 then 0
  else of_nat (intersection_size xs ys) / of_nat (union_size xs ys).

Definition tagJaccard (a b : Document) : Q :=
  jaccard (tags (metadata a)) (tags (metadata b)).

(** The words of a text: its non-empty whitespace-separated pieces,
    lower-cased. *)
Definition tokens (text : string) : list string :=
  filter (fun w => negb (String.eqb w EmptyString)) (split_ws (toLowerCase text)).

Definition keywordJaccard (textA textB : string) : Q :=
  jaccard (tokens textA) (tokens textB).

Definition score (a b : Document) : Q :=
  (6 # 10) * calculateFileOverlap (related_files (metadata a)) (related_files (metadata b))
  + (2 # 10) * tagJaccard a b
  + (2 # 10) * keywordJaccard (summary (metadata a)) (summary (metadata b)).

(** The file overlap over related-path sets: the size of the
    intersection over the larger of the two set sizes, 0 when either set
    is empty. *)
Definition fileOverlap (xs ys : list string) : Q :=
  if Nat.eqb (length (mkSet xs)) 0 || Nat.eqb (length (mkSet ys)) 0 then 0
  else of_nat (intersection_size xs ys)
       / of_nat (Nat.max (length (mkSet xs)) (length (mkSet ys))).

(** A pair is a merge candidate when the semantic score reaches the
    merge threshold or the file overlap reaches 0.5. *)
Definition mergeCandidate (semanticScore mergeThreshold : Q) (a b : Document) : bool :=
  Qle_bool mergeThreshold semanticScore
  || Qle_bool (1 # 2) (fileOverlap (related_files (metadata a)) (related_files (metadata b))).

End SpecScore.

(** ** Errors and results *)

Inductive error : Type := Error (message : string).

Inductive result (A : Type) : Type :=
| Ok (a : A)
| Throw (e : error).

Arguments Ok {A} a.
Arguments Throw {A} e.

(** ** Tag generation ([MetadataExtractor]) *)

Module MetadataExtractor.

Definition stopWords : list string :=
  ["を"; "の"; "に"; "は"; "が"; "で"; "と"; "から"; "まで";
   "実装"; "作成"; "追加"; "する"; "した"].

(** Stable insertion by descending count, as [sort((a, b) => b[1] - a[1])]. *)
Fixpoint insert_by_count (x : string * nat) (l : list (string * nat)) : list (string * nat) :=
  match l with
  | [] => [x]
  | y :: r => if Nat.leb (snd y) (snd x) then x :: y :: r else y :: insert_by_count x r
  end.

Definition sort_by_count (l : list (string * nat)) : list (string * nat) :=
  fold_right insert_by_count [] l.

Definition extractKeywords (text : string) : list string :=
  let words :=
    filter (fun word => Nat.ltb 2 (str_length word) && negb (includes stopWords word))
           (split_ws (toLowerCase text)) in
  (* the entries of the frequency map, in insertion order *)
  let freq := map (fun w => (w, count_occ string_dec words w)) (mkSet words) in
  slice0 5 (map fst (sort_by_count freq)).

(** The tags one file path contributes. *)
Definition fileTags (file : string) : list string :=
  let parts := split_char "/" file in
  let dirTag :=
    match nth_error parts 1 with
    | Some p => if Nat.ltb 1 (length parts) && negb (String.eqb p EmptyString) then [p] else []
    | None => []
    end in
  let fileName := last parts EmptyString in
  let baseTag :=
    if String.eqb fileName EmptyString then []
    else match split_char "." fileName with
         | baseName :: _ => if String.eqb baseName EmptyString then [] else [baseName]
         | [] => []
         end in
  dirTag ++ baseTag.

Definition generateTags (prompt : string) (files : list string) : list string :=
  slice0 10 (mkSet (extractKeywords prompt ++ flat_map fileTags files)).

End MetadataExtractor.

(** ** Summaries ([Summarizer]) *)

Module Summarizer.

(** [content.split('\n\n')[0]]: what precedes the first blank line. *)
Fixpoint firstParagraph (content : string) : string :=
  match content with
  | EmptyString => EmptyString
  | String c r =>
      if startsWith content (String (ascii_of_nat 10) (String (ascii_of_nat 10) EmptyString))
      then EmptyString
      else String c (firstParagraph r)
  end.

(** [s.slice(0, stop)]: a negative [stop] counts from the end. *)
Definition slice_to (s : string) (stop : Z) : string :=
  let len := Z.of_nat (str_length s) in
  let to := if Z.ltb stop 0 then Z.max (len + stop)%Z 0%Z else Z.min stop len in
  take_units (Z.to_nat to) s.

Definition fallbackSummarize (content : string) (maxLength : nat) : string :=
  let firstParagraph := firstParagraph content in
  if String.eqb firstParagraph EmptyString then EmptyString
  else if Nat.leb (str_length firstParagraph) maxLength then firstParagraph
  else (slice_to firstParagraph (Z.of_nat maxLength - 3)%Z ++ "...")%string.

(** [summarize]: the answer of Ollama when it is reachable and its
    request succeeds ([ollama] gives it), the fallback otherwise. *)
Definition summarize (ollama : string -> nat -> option string)
    (content : string) (maxLength : nat) : string :=
  match ollama content maxLength with
  | Some response => response
  | None => fallbackSummarize content maxLength
  end.

End Summarizer.

(** ** The document store ([DocumentManager]) *)

Module DocumentManager.

(** What the operations take from their surroundings. *)
Record Env : Type := mkEnv {
  summarize : string -> nat -> string;     (* [Summarizer.summarize]; it always returns *)
  readFile : string -> option string;      (* a source file of the project, if readable *)
  gitEmail : string;                       (* [getGitInfo().email] *)
  sha256hex : string -> string;            (* hex digest of [crypto]'s SHA-256 *)
  isoDate : Z -> string                    (* the [YYYY-MM-DD] part of [toISOString()] *)
}.

(** A markdown file of the store: the front matter and the body that
    [matter(...)] reads back from what [matter.stringify] wrote. *)
Definition FileData : Type := (DocumentMetadata * string)%type.

(** A directory: its files by name, in [readdir] order. *)
Definition Dir : Type := list (string * FileData).

(** The two directories of the store.  A [file_path] is the name of the
    file inside its directory. *)
Record Store : Type := mkStore {
  docsDir : Dir;
  archiveDir : Dir
}.

(** *** File system *)

Fixpoint writeFile (d : Dir) (name : string) (data : FileData) : Dir :=
  match d with
  | [] => [(name, data)]
  | (n, old) :: r =>
      if String.eqb n name then (n, data) :: r else (n, old) :: writeFile r name data
  end.

Definition unlink (d : Dir) (name : string) : Dir :=
  filter (fun e => negb (String.eqb (fst e) name)) d.

(** The data of the file called [name], if there is one. *)
Definition lookupFile (d : Dir) (name : string) : option FileData :=
  match find (fun e => String.eqb (fst e) name) d with
  | Some e => Some (snd e)
  | None => None
  end.

(** [file.startsWith('.')] is false. *)
Definition visible (name : string) : bool := negb (startsWith name ".").

(** *** Metadata updates *)

Definition set_summaries (m : DocumentMetadata) (s u st : string) : DocumentMetadata :=
  mkMetadata (id m) (created m) (updated m) (author m) (tags m) (prompt_hash m)
    (related_files m) s u st (embedding_model m) (version m)
    (merged_from m) (merge_method m) (merge_timestamp m) (is_merged m)
    (reference_count m) (change_log m).

Definition set_updated (m : DocumentMetadata) (t : isotime) : DocumentMetadata :=
  mkMetadata (id m) (created m) t (author m) (tags m) (prompt_hash m)
    (related_files m) (summary m) (ultra_summary m) (standard_summary m)
    (embedding_model m) (version m)
    (merged_from m) (merge_method m) (merge_timestamp m) (is_merged m)
    (reference_count m) (change_log m).

(** [Partial<DocumentMetadata>]: [None] is a key the object does not have. *)
Record MetadataPatch : Type := mkPatch {
  u_id : option string;
  u_created : option isotime;
  u_updated : option isotime;
  u_author : option author_t;
  u_tags : option (list string);
  u_prompt_hash : option string;
  u_related_files : option (list string);
  u_summary : option string;
  u_ultra_summary : option string;
  u_standard_summary : option string;
  u_embedding_model : option string;
  u_version : option string;
  u_merged_from : option (list string);
  u_merge_method : option string;
  u_merge_timestamp : option isotime;
  u_is_merged : option bool;
  u_reference_count : option Q;
  u_change_log : option (list ChangeLogEntry)
}.

Definition emptyPatch : MetadataPatch :=
  mkPatch None None None None None None None None None None None None
          None None None None None None.

(** A whole metadata object passed as the patch. *)
Definition asPatch (m : DocumentMetadata) : MetadataPatch :=
  mkPatch (Some (id m)) (Some (created m)) (Some (updated m)) (Some (author m))
    (Some (tags m)) (Some (prompt_hash m)) (Some (related_files m))
    (Some (summary m)) (Some (ultra_summary m)) (Some (standard_summary m))
    (Some (embedding_model m)) (Some (version m))
    (merged_from m) (merge_method m) (merge_timestamp m) (is_merged m)
    (reference_count m) (change_log m).

Definition over {A : Type} (u : option A) (old : A) : A :=
  match u with Some v => v | None => old end.

Definition over_opt {A : Type} (u old : option A) : option A :=
  match u with Some v => Some v | None => old end.

(** [{ ...m, ...u }]. *)
Definition spread (m : DocumentMetadata) (u : MetadataPatch) : DocumentMetadata :=
  mkMetadata (over (u_id u) (id m)) (over (u_created u) (created m))
    (over (u_updated u) (updated m)) (over (u_author u) (author m))
    (over (u_tags u) (tags m)) (over (u_prompt_hash u) (prompt_hash m))
    (over (u_related_files u) (related_files m)) (over (u_summary u) (summary m))
    (over (u_ultra_summary u) (ultra_summary m))
    (over (u_standard_summary u) (standard_summary m))
    (over (u_embedding_model u) (embedding_model m)) (over (u_version u) (version m))
    (over_opt (u_merged_from u) (merged_from m))
    (over_opt (u_merge_method u) (merge_method m))
    (over_opt (u_merge_timestamp u) (merge_timestamp m))
    (over_opt (u_is_merged u) (is_merged m))
    (over_opt (u_reference_count u) (reference_count m))
    (over_opt (u_change_log u) (change_log m)).

(** *** Creation *)

Definition generateMetadata (env : Env) (now : Z) (uuid : string)
    (files : list string) (prompt : string) : DocumentMetadata :=
  let tags := MetadataExtractor.generateTags prompt files in
  let promptHash := ("sha256:" ++ sha256hex env prompt)%string in
  mkMetadata uuid (Time now) (Time now) (Author (gitEmail env)) tags promptHash files
    EmptyString EmptyString EmptyString "nomic-embed-text" "1.0" None None None None None None.

Definition nl : string := String (ascii_of_nat 10) EmptyString.

Definition generateContent (env : Env) (files : list string) (prompt : string) : string :=
  let head := ("## 実装概要" ++ nl ++ nl ++ prompt ++ nl ++ nl
               ++ "## 実装詳細" ++ nl ++ nl)%string in
  let details :=
    String.concat EmptyString
      (map (fun file =>
              match readFile env file with
              | Some fileContent =>
                  ("### " ++ file ++ nl ++ nl ++ "```" ++ nl
                   ++ take_units 500 fileContent ++ nl ++ "..." ++ nl
                   ++ "```" ++ nl ++ nl)%string
              | None => EmptyString
              end) files) in
  let changed :=
    String.concat EmptyString (map (fun file => ("- `" ++ file ++ "`" ++ nl)%string) files) in
  (head ++ details ++ "## 変更ファイル" ++ nl ++ nl ++ changed)%string.

Definition is_alnum (c : ascii) : bool :=
  let n := nat_of_ascii c in
  (Nat.leb 97 n && Nat.leb n 122) || (Nat.leb 48 n && Nat.leb n 57).

(** [s.replace(/[^a-z0-9]+/g, '-')]. *)
Fixpoint dashify (s : string) (in_run : bool) : string :=
  match s with
  | EmptyString => EmptyString
  | String c r =>
      if is_alnum c then String c (dashify r false)
      else if in_run then dashify r true
      else String "-" (dashify r true)
  end.

Definition generateFileName (env : Env) (m : DocumentMetadata) : string :=
  let date := match created m with Time ms => isoDate env ms | _ => EmptyString end in
  let uuid := hd EmptyString (split_char "-" (id m)) in
  let summary := take_units 30 (dashify (toLowerCase (summary m)) false) in
  (date ++ "_" ++ uuid ++ "_" ++ summary ++ ".md")%string.

Definition createDocument (env : Env) (now : Z) (uuid : string)
    (st : Store) (params : CreateDocParams) : Document * Store :=
  let metadata0 := generateMetadata env now uuid (p_files params) (p_prompt params) in
  let content := generateContent env (p_files params) (p_prompt params) in
  let summary :=
    match p_summary params with
    | Some s => if String.eqb s EmptyString then summarize env content 100 else s
    | None => summarize env content 100
    end in
  let metadata :=
    set_summaries metadata0 summary (summarize env content 50) (summarize env content 200) in
  let fileName := generateFileName env metadata in
  (mkDocument metadata content fileName,
   mkStore (writeFile (docsDir st) fileName (metadata, content)) (archiveDir st)).

(** *** Lookup *)

(** The test of the loop of [getDocument] on one directory entry. *)
Definition holds (docId : string) (e : string * FileData) : bool :=
  visible (fst e) && String.eqb (id (fst (snd e))) docId.

Definition getDocument (st : Store) (docId : string) : option Document :=
  match find (holds docId) (docsDir st) with
  | Some (file, (m, c)) => Some (mkDocument m c file)
  | None => None
  end.

(** No two visible files of the directory hold the same document id. *)
Definition UniqueIds (d : Dir) : Prop :=
  forall n1 x1 n2 x2,
    In (n1, x1) d -> In (n2, x2) d ->
    visible n1 = true -> visible n2 = true ->
    id (fst x1) = id (fst x2) -> n1 = n2.

(** No visible file of the directory holds the id [docId]. *)
Definition FreshId (d : Dir) (docId : string) : Prop :=
  forall n x, In (n, x) d -> visible n = true -> id (fst x) <> docId.

Definition notFound (docId : string) : error :=
  Error ("Document not found: " ++ docId).

(** *** Update, delete, archive *)

Definition updateDocument (now : Z) (st : Store) (docId : string)
    (updates : MetadataPatch) : result Document * Store :=
  match getDocument st docId with
  | None => (Throw (notFound docId), st)
  | Some doc =>
      let updatedMetadata := set_updated (spread (metadata doc) updates) (Time now) in
      (Ok (mkDocument updatedMetadata (content doc) (file_path doc)),
       mkStore (writeFile (docsDir st) (file_path doc) (updatedMetadata, content doc))
               (archiveDir st))
  end.

Definition deleteDocument (st : Store) (docId : string) : result unit * Store :=
  match getDocument st docId with
  | None => (Throw (notFound docId), st)
  | Some doc => (Ok tt, mkStore (unlink (docsDir st) (file_path doc)) (archiveDir st))
  end.

(** [fs.rename] into the archive directory replaces a file of that name
    there. *)
Definition archiveDocument (st : Store) (docId : string) : result unit * Store :=
  match getDocument st docId with
  | None => (Throw (notFound docId), st)
  | Some doc =>
      (Ok tt,
       mkStore (unlink (docsDir st) (file_path doc))
               (writeFile (archiveDir st) (file_path doc) (metadata doc, content doc)))
  end.

(** *** Search *)

(** [{ keyword?, tags? }]. *)
Record SearchQuery : Type := mkQuery {
  q_keyword : option string;
  q_tags : option (list string)
}.

(** The two filters of the loop of [searchDocuments] on one parsed file. *)
Definition matchesQuery (query : SearchQuery) (m : DocumentMetadata) (c : string) : bool :=
  (match q_keyword query with
   | None => true
   | Some k =>
       if String.eqb k EmptyString then true
       else
         let lowerKeyword := toLowerCase k in
         str_includes (toLowerCase (summary m)) lowerKeyword
         || str_includes (toLowerCase c) lowerKeyword
   end)
  && (match q_tags query with
      | None => true
      | Some ts =>
          if Nat.ltb 0 (length ts) then existsb (fun tag => includes (tags m) tag) ts
          else true
      end).

(** The comparator [new Date(b.created).getTime() - new Date(a.created).getTime()]. *)
Definition newerFirst (a b : Document) : number :=
  nsub (getTime (created (metadata b))) (getTime (created (metadata a))).

Definition searchDocuments (st : Store) (query : SearchQuery) : list Document :=
  sortBy newerFirst
    (flat_map
       (fun e : string * FileData =>
          let '(file, (m, c)) := e in
          if visible file && matchesQuery query m c then [mkDocument m c file] else [])
       (docsDir st)).

Definition getAllDocuments (st : Store) : list Document :=
  searchDocuments st (mkQuery None None).

(** The creation time of a document in epoch milliseconds, 0 when it
    does not parse. *)
Definition createdMs (d : Document) : Z :=
  match created (metadata d) with
  | Time ms => ms
  | _ => 0%Z
  end.

(** The document [searchDocuments] builds from a directory entry. *)
Definition asDocument (e : string * FileData) : Document :=
  mkDocument (fst (snd e)) (snd (snd e)) (fst e).

(** *** Cleanup *)

(** [fs.readFile] of a file that is no longer there. *)
Definition noSuchFile (file : string) : error :=
  Error ("ENOENT: no such file or directory, open '" ++ file ++ "'").

(** The loop of [cleanupOldDocuments] over the names [readdir] returned
    before the loop; [threshold] is in epoch milliseconds. *)
Fixpoint cleanupLoop (threshold : number) (files : list string) (st : Store)
    (count : nat) : result nat * Store :=
  match files with
  | [] => (Ok count, st)
  | file :: r =>
      if negb (visible file) then cleanupLoop threshold r st count
      else
        match lookupFile (docsDir st) file with
        | None => (Throw (noSuchFile file), st)
        | Some (m, _) =>
            if nlt (getTime (created m)) threshold then
              match archiveDocument st (id m) with
              | (Throw e, st1) => (Throw e, st1)
              | (Ok _, st1) => cleanupLoop threshold r st1 (S count)
              end
            else cleanupLoop threshold r st count
        end
  end.

(** The test of the loop on one directory entry: the file is visible and
    its creation time is before [threshold]. *)
Definition expired (threshold : number) (e : string * FileData) : bool :=
  visible (fst e) && nlt (getTime (created (fst (snd e)))) threshold.

(** [cleanupOldDocuments(daysThreshold)]; [now] is [Date.now()]. *)
Definition cleanupOldDocuments (now : Z) (daysThreshold : Q) (st : Store)
    : result nat * Store :=
  let threshold := Num (inject_Z now - daysThreshold * 24 * 60 * 60 * 1000) in
  cleanupLoop threshold (map fst (docsDir st)) st 0.

End DocumentManager.

(** ** Similar-document detection and merging ([DocumentMerger]) *)

Module DocumentMerger.

Import DocumentManager.

Inductive reason_t : Type := vector_similarity | file_overlap.

Record DocumentGroup : Type := mkGroup {
  similarity : Q;
  documents : list Document;
  reason : reason_t
}.

(** A hit of [VectorStore.search]: document id and score. *)
Definition SearchResult : Type := (string * Q)%type.

Record DocumentVector : Type := mkDocumentVector {
  v_id : string;
  v_text : string;
  v_metadata : DocumentMetadata
}.

Section WithVectorStore.

(** The vector index and its three operations, each of which may throw. *)
Variable VS : Type.
Variable search : VS -> string -> nat -> result (list SearchResult).
Variable vsDeleteDocument : VS -> string -> result VS.
Variable vsAddDocument : VS -> DocumentVector -> result VS.

Definition calculateVectorSimilarity (vs : VS) (docA docB : Document) : Q :=
  match search vs (content docA) 10 with
  | Ok results =>
      match find (fun r => String.eqb (fst r) (id (metadata docB))) results with
      | Some m => snd m
      | None => 0
      end
  | Throw _ => 0
  end.

(** The test of the inner loop of [detectSimilarDocuments]. *)
Definition isCandidate (threshold vectorSim fileOverlap : Q) : bool :=
  Qle_bool threshold vectorSim || Qle_bool (1 # 2) fileOverlap.

(** The body of the inner loop for documents [docA] and [docB]: the
    groups it pushes. *)
Definition comparePair (vs : VS) (threshold : Q) (docA docB : Document)
    : list DocumentGroup :=
  let vectorSim := calculateVectorSimilarity vs docA docB in
  let fileOverlap :=
    calculateFileOverlap (related_files (metadata docA)) (related_files (metadata docB)) in
  if isCandidate threshold vectorSim fileOverlap then
    [mkGroup vectorSim [docA; docB]
       (if Qle_bool threshold vectorSim then vector_similarity else file_overlap)]
  else [].

(** The two nested loops, [i < j]. *)
Fixpoint scanPairs (vs : VS) (threshold : Q) (allDocs : list Document)
    : list DocumentGroup :=
  match allDocs with
  | [] => []
  | docA :: rest =>
      flat_map (comparePair vs threshold docA) rest ++ scanPairs vs threshold rest
  end.

Definition docIds (docs : list Document) : list string :=
  map (fun d => id (metadata d)) docs.

(** The loop over [otherGroup.documents] that adds the documents whose id
    is not yet in [currentDocIds]. *)
Fixpoint absorb (docs : list Document) (cur : list Document) (ids : list string)
    : list Document * list string :=
  match docs with
  | [] => (cur, ids)
  | doc :: r =>
      if includes ids (id (metadata doc)) then absorb r cur ids
      else absorb r (cur ++ [doc]) (ids ++ [id (metadata doc)])
  end.

(** The inner loop of [mergeGroups] from index [j] on; [others] are
    [groups[j..]].  The current group, its id set and [processed] are
    threaded through. *)
Fixpoint mergeInto (j : nat) (others : list DocumentGroup)
    (cur : DocumentGroup) (ids : list string) (processed : list nat)
    : DocumentGroup * list string * list nat :=
  match others with
  | [] => (cur, ids, processed)
  | otherGroup :: r =>
      if existsb (Nat.eqb j) processed then mergeInto (S j) r cur ids processed
      else if existsb (fun d => includes ids (id (metadata d))) (documents otherGroup) then
        let '(docs', ids') := absorb (documents otherGroup) (documents cur) ids in
        let cur' := mkGroup (Qmax (similarity cur) (similarity otherGroup))
                            docs' (reason cur) in
        mergeInto (S j) r cur' ids' (j :: processed)
      else mergeInto (S j) r cur ids processed
  end.

(** The outer loop of [mergeGroups] from index [i] on; [rest] are
    [groups[i..]].  Only [groups[i]] is modified in place, and no later
    iteration reads it, so the later groups are the ones of the input. *)
Fixpoint mergeFrom (i : nat) (rest : list DocumentGroup)
    (processed : list nat) (merged : list DocumentGroup) : list DocumentGroup :=
  match rest with
  | [] => merged
  | currentGroup :: r =>
      if existsb (Nat.eqb i) processed then mergeFrom (S i) r processed merged
      else
        let currentDocIds := mkSet (docIds (documents currentGroup)) in
        let '(cur, _, processed') :=
          mergeInto (S i) r currentGroup currentDocIds processed in
        mergeFrom (S i) r (i :: processed') (merged ++ [cur])
  end.

Definition mergeGroups (groups : list DocumentGroup) : list DocumentGroup :=
  if Nat.leb (length groups) 1 then groups
  else mergeFrom 0 groups [] [].

(** Every document of [g] has its id in some group of [out]. *)
Definition coveredBy (g : DocumentGroup) (out : list DocumentGroup) : Prop :=
  forall d, In d (documents g) ->
            exists g', In g' out /\ In (id (metadata d)) (docIds (documents g')).

(** [detectSimilarDocuments(threshold)], on the documents
    [getAllActiveDocuments()] returned. *)
Definition detectSimilarDocuments (vs : VS) (threshold : Q)
    (allDocs : list Document) : list DocumentGroup :=
  mergeGroups (scanPairs vs threshold allDocs).

(** *** Merging *)

Definition createMergedMetadata (docs : list Document)
    : result (list string * string * list string) :=
  match docs with
  | [] => Throw (Error "No documents provided for metadata creation")
  | firstDoc :: _ =>
      Ok (mkSet (flatMap (fun d => related_files (metadata d)) docs),
          ("統合: " ++ summary (metadata firstDoc))%string,
          mkSet (flatMap (fun d => tags (metadata d)) docs))
  end.

Definition authorList (a : author_t) : list string :=
  match a with
  | Author s => [s]
  | Authors l => l
  end.

Definition set_merge_info (m : DocumentMetadata) (from : list string) (method : string)
    (ts : isotime) (authors : list string) : DocumentMetadata :=
  mkMetadata (id m) (created m) (updated m) (Authors authors) (tags m) (prompt_hash m)
    (related_files m) (summary m) (ultra_summary m) (standard_summary m)
    (embedding_model m) (version m)
    (Some from) (Some method) (Some ts) (Some true)
    (reference_count m) (change_log m).

Definition tooFew : error := Error "At least 2 documents are required for merging".

(** [mergeDocuments(docs)].  The text [unifyWithAI] returns is dropped by
    the source, and the summarizer always returns, so that call leaves no
    trace here. *)
Definition mergeDocuments (env : Env) (now : Z) (uuid : string)
    (st : Store) (docs : list Document) : result Document * Store :=
  if Nat.ltb (length docs) 2 then
    (Throw tooFew, st)
  else
    match createMergedMetadata docs with
    | Throw e => (Throw e, st)
    | Ok (files, mergedSummary, _) =>
        let prompt :=
          ("統合: " ++ join ", " (map (fun d => summary (metadata d)) docs))%string in
        let '(merged0, st1) :=
          createDocument env now uuid st (mkCreateDocParams files prompt (Some mergedSummary)) in
        let mergedMeta :=
          set_merge_info (metadata merged0) (docIds docs) "ai_unified" (Time now)
            (mkSet (flatMap (fun d => authorList (author (metadata d))) docs)) in
        let merged := mkDocument mergedMeta (content merged0) (file_path merged0) in
        match updateDocument now st1 (id mergedMeta) (asPatch mergedMeta) with
        | (Throw e, st2) => (Throw e, st2)
        | (Ok _, st2) => (Ok merged, st2)
        end
    end.

(** The loop of [executeMerge] that archives the sources of one group and
    drops them from the vector index. *)
Fixpoint archiveSources (vs : VS) (st : Store) (docs : list Document)
    : result unit * (VS * Store) :=
  match docs with
  | [] => (Ok tt, (vs, st))
  | doc :: r =>
      match archiveDocument st (id (metadata doc)) with
      | (Throw e, st1) => (Throw e, (vs, st1))
      | (Ok _, st1) =>
          match vsDeleteDocument vs (id (metadata doc)) with
          | Throw e => (Throw e, (vs, st1))
          | Ok vs1 => archiveSources vs1 st1 r
          end
      end
  end.

(** One iteration of the loop of [executeMerge]: merge the group, archive
    its sources, index the merged document. *)
Definition executeMergeGroup (env : Env) (now : Z) (uuid : string)
    (vs : VS) (st : Store) (group : DocumentGroup)
    : result Document * (VS * Store) :=
  match mergeDocuments env now uuid st (documents group) with
  | (Throw e, st1) => (Throw e, (vs, st1))
  | (Ok merged, st1) =>
      match archiveSources vs st1 (documents group) with
      | (Throw e, w) => (Throw e, w)
      | (Ok _, (vs2, st2)) =>
          match vsAddDocument vs2 (mkDocumentVector (id (metadata merged)) (content merged)
                                                    (metadata merged)) with
          | Throw e => (Throw e, (vs2, st2))
          | Ok vs3 => (Ok merged, (vs3, st2))
          end
      end
  end.

End WithVectorStore.

End DocumentMerger.

(** ** Quality scores ([QualityManager.calculateQualityScore]) *)

Module QualityManager.

Record QualityScores : Type := mkScores {
  freshness : number;
  completeness : Q;
  references : Q;
  total : number
}.

Definition msPerDay : Q := inject_Z (1000 * 60 * 60 * 24).

(** [now] is the value of [Date.now()]. *)
Definition ageInDays (now : Z) (doc : Document) : number :=
  ndiv (nsub (Num (inject_Z now)) (getTime (created (metadata doc)))) (Num msPerDay).

Definition calculateQualityScore (now : Z) (doc : Document) : QualityScores :=
  let freshness := Math_max (Num 0) (nsub (Num 100) (ageInDays now doc)) in
  let completeness0 : Q := 0 in
  let completeness1 :=
    if Nat.ltb 10 (str_length (summary (metadata doc)))
    then completeness0 + 40 else completeness0 in
  let completeness2 :=
    if Nat.ltb 0 (length (tags (metadata doc)))
    then completeness1 + 30 else completeness1 in
  let completeness3 :=
    if Nat.ltb 0 (length (related_files (metadata doc)))
    then completeness2 + 30 else completeness2 in
  let references :=
    match reference_count (metadata doc) with
    | Some r => r
    | None => 0
    end in
  let total :=
    nadd (nadd (nmul freshness (Num (4 # 10))) (nmul (Num completeness3) (Num (4 # 10))))
         (nmul (Num references) (Num (2 # 10))) in
  mkScores freshness completeness3 references total.

(** *** The quality report ([checkDocumentQuality]) *)

Inductive issue_kind : Type := stale | incomplete | duplicate | contradiction.

Inductive level : Type := low | medium | high.

Record QualityIssue : Type := mkQualityIssue {
  i_docId : string;
  i_type : issue_kind;
  i_severity : level;
  i_message : string
}.

Record Contradiction : Type := mkContradiction {
  c_docIds : list string;
  c_description : string;
  c_files : list string
}.

Record QualityReport : Type := mkReport {
  totalDocuments : nat;
  averageScore : number;
  issues : list QualityIssue;
  recommendations : list string
}.

(** A count in a template string. *)
Definition showNat (n : nat) : string := NilEmpty.string_of_uint (Nat.to_uint n).

(** [detectContradictions(docs)]: the map from each related file to the
    documents that list it, then one contradiction for each file listed
    more than once. *)
Definition fileMapOf (docs : list Document) : MCPServer.Index :=
  fold_left
    (fun fileMap doc =>
       fold_left (fun m file => MCPServer.indexPush m file doc)
                 (related_files (metadata doc)) fileMap)
    docs [].

Definition detectContradictions (docs : list Document) : list Contradiction :=
  flat_map
    (fun entry : string * list Document =>
       let '(file, relatedDocs) := entry in
       if Nat.ltb 1 (length relatedDocs) then
         [mkContradiction (map (fun d => id (metadata d)) relatedDocs)
            ("Multiple implementation records found for " ++ file)
            [file]]
       else [])
    (fileMapOf docs).

(** [detectStaleInfo(docs, daysThreshold)]; [now] is [Date.now()]. *)
Definition detectStaleInfo (now : Z) (docs : list Document) (daysThreshold : Q)
    : list Document :=
  let threshold := Num (inject_Z now - daysThreshold * 24 * 60 * 60 * 1000) in
  filter (fun doc => nlt (getTime (created (metadata doc))) threshold) docs.

(** [estimateMergedQuality(docs)]: the mean of the totals. *)
Definition estimateMergedQuality (now : Z) (docs : list Document) : number :=
  ndiv (fold_left (fun a b => nadd a (total b))
                  (map (calculateQualityScore now) docs) (Num 0))
       (Num (of_nat (length docs))).

Section WithFormat.

(** [n.toFixed(digits)]. *)
Variable toFixed : number -> nat -> string.

(** The issues the loop of [checkDocumentQuality] pushes for one
    document. *)
Definition docIssues (now : Z) (doc : Document) : list QualityIssue :=
  let score := calculateQualityScore now doc in
  (if nlt (freshness score) (Num 50) then
     [mkQualityIssue (id (metadata doc)) stale medium
        ("Document is stale (freshness score: " ++ toFixed (freshness score) 1 ++ ")")]
   else [])
  ++ (if negb (Qle_bool 60 (completeness score)) then
        [mkQualityIssue (id (metadata doc)) incomplete low
           ("Document is incomplete (completeness score: "
            ++ toFixed (Num (completeness score)) 1 ++ ")")]
      else []).

(** The issues pushed for the contradictions. *)
Definition contradictionIssues (contradictions : list Contradiction) : list QualityIssue :=
  flat_map
    (fun c =>
       match c_docIds c with
       | firstDocId :: _ =>
           if String.eqb firstDocId EmptyString then []
           else [mkQualityIssue firstDocId contradiction high
                   ("Contradiction detected: " ++ c_description c)]
       | [] => []
       end)
    contradictions.

Definition countType (k : issue_kind) (l : list QualityIssue) : nat :=
  length (filter (fun i => match i_type i, k with
                           | stale, stale | incomplete, incomplete
                           | duplicate, duplicate | contradiction, contradiction => true
                           | _, _ => false
                           end) l).

Definition generateRecommendations (l : list QualityIssue) (average : number)
    : list string :=
  (if nlt average (Num 60)
   then ["Overall quality is low. Document review is recommended."] else [])
  ++ (let staleCount := countType stale l in
      if Nat.ltb 0 staleCount
      then [(showNat staleCount ++ " stale document(s) found. Consider archiving them.")%string]
      else [])
  ++ (let contradictionCount := countType contradiction l in
      if Nat.ltb 0 contradictionCount
      then [(showNat contradictionCount
             ++ " contradiction(s) found. Consider merging related documents.")%string]
      else [])
  ++ (let incompleteCount := countType incomplete l in
      if Nat.ltb 0 incompleteCount
      then [(showNat incompleteCount
             ++ " incomplete document(s) found. Consider updating metadata.")%string]
      else []).

(** [checkDocumentQuality(fix)] on the documents [getAllDocuments()]
    returned; the source does not use [fix]. *)
Definition checkDocumentQuality (now : Z) (allDocs : list Document) : QualityReport :=
  let scores := map (fun doc => total (calculateQualityScore now doc)) allDocs in
  let issues :=
    flat_map (docIssues now) allDocs
    ++ contradictionIssues (detectContradictions allDocs) in
  let averageScore :=
    if Nat.ltb 0 (length scores)
    then ndiv (fold_left nadd scores (Num 0)) (Num (of_nat (length scores)))
    else Num 0 in
  mkReport (length allDocs) averageScore issues
           (generateRecommendations issues averageScore).

End WithFormat.

End QualityManager.

(** ** Integrity recovery ([IntegrityChecker]) *)

Module IntegrityChecker.

Inductive issue_type : Type :=
| invalid_metadata
| incomplete_operation
| file_memory_mismatch.

(** An issue; its [details] are not read by the recovery. *)
Record IntegrityIssue : Type := mkIssue {
  type : issue_type;
  docId : option string;
  operation : option string
}.

Record RecoveryResult : Type := mkRecoveryResult {
  r_total : nat;
  r_recovered : nat
}.

Inductive impact_t : Type := low | medium | high.

(** The [details] objects the recovery writes. *)
Inductive details_t : Type :=
| DetailsFix (docId : string)
| DetailsOperation (operation : option string)
| DetailsSync (docId : string)
| DetailsRecovery (r : RecoveryResult).

Record AuditLogEntry : Type := mkEntry {
  e_timestamp : isotime;
  e_action : string;
  e_actor : string;
  e_details : details_t;
  e_impact : impact_t
}.

Section WithAuditLog.

(** The audit log file: appending a line may throw; the rotation check
    that follows catches its own errors. *)
Variable LogFile : Type.
Variable appendFile : LogFile -> AuditLogEntry -> result LogFile.
Variable rotateIfNeeded : LogFile -> LogFile.

(** [documentCache] in insertion order, and the log file. *)
Record State : Type := mkState {
  documentCache : list (string * DocumentMetadata);
  logFile : LogFile
}.

(** [AuditLogger.log]. *)
Definition log (st : State) (entry : AuditLogEntry) : result unit * State :=
  match appendFile (logFile st) entry with
  | Throw e => (Throw e, st)
  | Ok f => (Ok tt, mkState (documentCache st) (rotateIfNeeded f))
  end.

Definition cacheGet (c : list (string * DocumentMetadata)) (k : string)
    : option DocumentMetadata :=
  match find (fun e => String.eqb (fst e) k) c with
  | Some e => Some (snd e)
  | None => None
  end.

(** [Map.set]: an existing key keeps its place. *)
Fixpoint cacheSet (c : list (string * DocumentMetadata)) (k : string)
    (m : DocumentMetadata) : list (string * DocumentMetadata) :=
  match c with
  | [] => [(k, m)]
  | (k', old) :: r =>
      if String.eqb k' k then (k', m) :: r else (k', old) :: cacheSet r k m
  end.

Definition truthy (t : isotime) : bool :=
  match t with NoTime => false | _ => true end.

(** The four repairs of [fixMetadata], and whether any applied. *)
Definition repair (now : Z) (m : DocumentMetadata) : DocumentMetadata * bool :=
  let created1 := if truthy (created m) then created m else Time now in
  let updated1 := if truthy (updated m) then updated m else created1 in
  let author1 :=
    match author m with
    | Author a => if String.eqb a EmptyString then Author "unknown" else author m
    | Authors _ => author m
    end in
  let authorFixed :=
    match author m with
    | Author a => String.eqb a EmptyString
    | Authors _ => false
    end in
  let summaryFixed := String.eqb (summary m) EmptyString in
  let summary1 := if summaryFixed then "No summary available" else summary m in
  (mkMetadata (id m) created1 updated1 author1 (tags m) (prompt_hash m)
     (related_files m) summary1 (ultra_summary m) (standard_summary m)
     (embedding_model m) (version m)
     (merged_from m) (merge_method m) (merge_timestamp m) (is_merged m)
     (reference_count m) (change_log m),
   negb (truthy (created m)) || negb (truthy (updated m)) || authorFixed || summaryFixed).

(** [fixMetadata(docId)].  The metadata object is changed in place, so
    the cache holds the repaired fields even when the audit write
    throws. *)
Definition fixMetadata (now : Z) (st : State) (docId : option string)
    : result unit * State :=
  match docId with
  | None => (Ok tt, st)
  | Some k =>
      match cacheGet (documentCache st) k with
      | None => (Ok tt, st)
      | Some m =>
          let '(m', fixed) := repair now m in
          if fixed then
            log (mkState (cacheSet (documentCache st) k m') (logFile st))
                (mkEntry (Time now) "fix_metadata" "system" (DetailsFix k) medium)
          else (Ok tt, st)
      end
  end.

(** [completeOperation(operation)]: both known operations only write to
    the console; the audit entry is written in every case. *)
Definition completeOperation (now : Z) (st : State) (op : option string)
    : result unit * State :=
  log st (mkEntry (Time now) "complete_operation" "system" (DetailsOperation op) medium).

Definition set_change_log (m : DocumentMetadata) (l : list ChangeLogEntry)
    : DocumentMetadata :=
  mkMetadata (id m) (created m) (updated m) (author m) (tags m) (prompt_hash m)
    (related_files m) (summary m) (ultra_summary m) (standard_summary m)
    (embedding_model m) (version m)
    (merged_from m) (merge_method m) (merge_timestamp m) (is_merged m)
    (reference_count m) (Some l).

(** [syncFileToMemory(docId)]. *)
Definition syncFileToMemory (now : Z) (st : State) (docId : option string)
    : result unit * State :=
  match docId with
  | None => (Ok tt, st)
  | Some k =>
      match cacheGet (documentCache st) k with
      | None => (Ok tt, st)
      | Some m =>
          match change_log m with
          | Some _ => (Ok tt, st)
          | None =>
              let author :=
                match author m with
                | Authors l => hd "unknown" l
                | Author a => a
                end in
              let m' :=
                set_change_log m
                  [mkChangeLogEntry (Time now) "created" author
                                    (Some "Initialized during sync")] in
              log (mkState (cacheSet (documentCache st) k m') (logFile st))
                  (mkEntry (Time now) "sync_file_to_memory" "system" (DetailsSync k) low)
          end
      end
  end.

(** The [switch] of [recover] for one issue. *)
Definition fixIssue (now : Z) (st : State) (issue : IntegrityIssue)
    : result unit * State :=
  match type issue with
  | invalid_metadata => fixMetadata now st (docId issue)
  | incomplete_operation => completeOperation now st (operation issue)
  | file_memory_mismatch => syncFileToMemory now st (docId issue)
  end.

(** The loop of [recover], with its [try]/[catch] around each issue:
    the final state and the number of issues recovered. *)
Fixpoint recoverLoop (now : Z) (st : State) (issues : list IntegrityIssue)
    (recovered : nat) : nat * State :=
  match issues with
  | [] => (recovered, st)
  | issue :: r =>
      match fixIssue now st issue with
      | (Ok _, st1) => recoverLoop now st1 r (S recovered)
      | (Throw _, st1) => recoverLoop now st1 r recovered
      end
  end.

(** The audit entry [recover] writes after its loop. *)
Definition recoveryEntry (now : Z) (result : RecoveryResult) : AuditLogEntry :=
  mkEntry (Time now) "auto_recovery" "system" (DetailsRecovery result)
          (if Nat.ltb (r_recovered result) (r_total result) then high else medium).

Definition recover (now : Z) (st : State) (issues : list IntegrityIssue)
    : result RecoveryResult * State :=
  let '(recovered, st1) := recoverLoop now st issues 0 in
  let result := mkRecoveryResult (length issues) recovered in
  match log st1 (recoveryEntry now result) with
  | (Throw e, st2) => (Throw e, st2)
  | (Ok _, st2) => (Ok result, st2)
  end.

(** *** The checks ([validateMetadata], [findIncompleteOperations],
        [checkFileMemorySync], [calculateSeverity]) *)

Definition isDigit (c : ascii) : bool :=
  let n := nat_of_ascii c in Nat.leb 48 n && Nat.leb n 57.

(** [[0-9a-f]] under the flag [i]. *)
Definition isHex (c : ascii) : bool :=
  let n := nat_of_ascii c in
  isDigit c || (Nat.leb 97 n && Nat.leb n 102) || (Nat.leb 65 n && Nat.leb n 70).

(** [[89ab]] under the flag [i]. *)
Definition is89ab (c : ascii) : bool :=
  let n := nat_of_ascii c in
  Nat.eqb n 56 || Nat.eqb n 57 || Nat.eqb n 97 || Nat.eqb n 98
  || Nat.eqb n 65 || Nat.eqb n 66.

Definition isChar (x c : ascii) : bool := Ascii.eqb c x.

(** The regular expression of [validateMetadata], one character class
    per position; it is anchored at both ends. *)
Definition uuidV4Regex : list (ascii -> bool) :=
  repeat isHex 8 ++ [isChar "-"] ++ repeat isHex 4 ++ [isChar "-"]
  ++ [isChar "4"] ++ repeat isHex 3 ++ [isChar "-"]
  ++ [is89ab] ++ repeat isHex 3 ++ [isChar "-"] ++ repeat isHex 12.

Fixpoint test (classes : list (ascii -> bool)) (s : string) : bool :=
  match classes, s with
  | [], EmptyString => true
  | f :: classes', String c s' => f c && test classes' s'
  | _, _ => false
  end.

Definition parses (t : isotime) : bool :=
  match t with Time _ => true | _ => false end.

(** [validateMetadata(metadata)], check by check. *)
Definition validateMetadata (m : DocumentMetadata) : bool :=
  if negb (test uuidV4Regex (id m)) then false
  else if String.eqb (id m) EmptyString then false
  else if negb (truthy (created m)) then false
  else if match author m with Author a => String.eqb a EmptyString | Authors _ => false end
       then false
  else if String.eqb (summary m) EmptyString then false
  else if negb (parses (created m)) then false
  else if negb (parses (updated m)) then false
  else true.

Definition validateAllMetadata (cache : list (string * DocumentMetadata))
    : list IntegrityIssue :=
  flat_map (fun entry : string * DocumentMetadata =>
              if negb (validateMetadata (snd entry))
              then [mkIssue invalid_metadata (Some (fst entry)) None] else [])
           cache.

(** Truthiness of the optional string [merge_timestamp] and of the
    optional flag [is_merged]. *)
Definition hasTimestamp (m : DocumentMetadata) : bool :=
  match merge_timestamp m with Some t => truthy t | None => false end.

Definition isMerged (m : DocumentMetadata) : bool :=
  match is_merged m with Some b => b | None => false end.

Definition findIncompleteOperations (cache : list (string * DocumentMetadata))
    : list IntegrityIssue :=
  flat_map (fun entry : string * DocumentMetadata =>
              let m := snd entry in
              (if hasTimestamp m && negb (isMerged m)
               then [mkIssue incomplete_operation (Some (fst entry)) (Some "merge")]
               else [])
              ++ (if match merged_from m with Some _ => true | None => false end
                     && negb (hasTimestamp m)
                  then [mkIssue incomplete_operation (Some (fst entry))
                                (Some "merge_inconsistency")]
                  else []))
           cache.

Definition lacksChangeLog (m : DocumentMetadata) : bool :=
  match change_log m with
  | None => true
  | Some l => Nat.eqb (length l) 0
  end.

Definition checkFileMemorySync (cache : list (string * DocumentMetadata))
    : list IntegrityIssue :=
  flat_map (fun entry : string * DocumentMetadata =>
              if lacksChangeLog (snd entry)
              then [mkIssue file_memory_mismatch (Some (fst entry)) None] else [])
           cache.

Inductive severity_t : Type := sev_low | sev_medium | sev_high | sev_critical.

Definition isType (t : issue_type) (i : IntegrityIssue) : bool :=
  match type i, t with
  | invalid_metadata, invalid_metadata
  | incomplete_operation, incomplete_operation
  | file_memory_mismatch, file_memory_mismatch => true
  | _, _ => false
  end.

Definition calculateSeverity (issues : list IntegrityIssue) : severity_t :=
  if Nat.eqb (length issues) 0 then sev_low
  else
    let hasInvalidMetadata := existsb (isType invalid_metadata) issues in
    if Nat.ltb 10 (length issues) || hasInvalidMetadata then sev_critical
    else
      let hasIncompleteOps := existsb (isType incomplete_operation) issues in
      if Nat.ltb 5 (length issues) || hasIncompleteOps then sev_high
      else sev_medium.

(** The order low < medium < high < critical. *)
Definition severityRank (s : severity_t) : nat :=
  match s with
  | sev_low => 0
  | sev_medium => 1
  | sev_high => 2
  | sev_critical => 3
  end.

(** The issues and the severity [checkIntegrity] computes before it
    writes its audit entry. *)
Definition integrityReport (cache : list (string * DocumentMetadata))
    : list IntegrityIssue * severity_t :=
  let issues :=
    validateAllMetadata cache ++ findIncompleteOperations cache
    ++ checkFileMemorySync cache in
  (issues, calculateSeverity issues).

End WithAuditLog.

End IntegrityChecker.

(** ** The computed values, in doubles

    The similarity of [findSimilarInMemory] and the scores of
    [calculateQualityScore] with every division, product and sum rounded
    as the code rounds it. *)

Module Binary64.

(** [MCPServer.calculateFileOverlap]. *)
Definition calculateFileOverlap (filesA filesB : list string) : double :=
  if Nat.eqb (length filesA) 0 || Nat.eqb (length filesB) 0 then double_of_Z 0
  else ddiv (double_of_nat (intersection_size filesA filesB))
            (double_of_nat (Nat.max (length filesA) (length filesB))).

(** [commonTags.length / Math.max(tagsA.length, tagsB.length)]; 0 / 0 is
    NaN. *)
Definition tagSimilarity (tagsA tagsB : list string) : double :=
  let commonTags := filter (fun tag => includes tagsB tag) tagsA in
  ddiv (double_of_nat (length commonTags))
       (double_of_nat (Nat.max (length tagsA) (length tagsB))).

(** [MCPServer.calculateKeywordSimilarity]. *)
Definition calculateKeywordSimilarity (textA textB : string) : double :=
  let wordsA := MCPServer.words textA in
  let wordsB := MCPServer.words textB in
  let intersection := mkSet (filter (fun w => includes wordsB w) wordsA) in
  ddiv (double_of_nat (length intersection))
       (double_of_nat (Nat.max (length wordsA) (length wordsB))).

(** The body of the loop of [findSimilarInMemory] for one cached
    document: [similarity] starts at 0 and the three weighted parts are
    added in turn. *)
Definition similarity (newDoc doc : Document) : double :=
  let similarity0 := double_of_Z 0 in
  let fileOverlap :=
    calculateFileOverlap (related_files (metadata newDoc))
                         (related_files (metadata doc)) in
  let similarity1 := dadd similarity0 (dmul fileOverlap (decimal 6 10)) in
  let tagSim := tagSimilarity (tags (metadata newDoc)) (tags (metadata doc)) in
  let similarity2 := dadd similarity1 (dmul tagSim (decimal 2 10)) in
  let keywordSim :=
    calculateKeywordSimilarity (summary (metadata newDoc)) (summary (metadata doc)) in
  dadd similarity2 (dmul keywordSim (decimal 2 10)).

(** Stable insertion of [x], which stands before the elements of [l]:
    it is moved behind [y] when the comparator
    [b.similarity - a.similarity] is positive at [(x, y)].  The difference
    of two doubles is positive exactly when the first is the greater. *)
Fixpoint insert_desc (x : Document * double) (l : list (Document * double))
    : list (Document * double) :=
  match l with
  | [] => [x]
  | y :: r => if dgt (snd y) (snd x) then y :: insert_desc x r else x :: y :: r
  end.

Definition sort_desc (l : list (Document * double)) : list (Document * double) :=
  fold_right insert_desc [] l.

(** [findSimilarInMemory(newDoc, threshold)] over the entries of
    [documentCache] (a [Map] from id to document) in iteration order. *)
Definition findSimilarInMemory (documentCache : list (string * Document))
    (newDoc : Document) (threshold : double) : list (Document * double) :=
  sort_desc
    (flat_map
       (fun entry =>
          let '(key, doc) := entry in
          if String.eqb key (id (metadata newDoc)) then []
          else if dge (similarity newDoc doc) threshold
               then [(doc, similarity newDoc doc)] else [])
       documentCache).

(** [QualityScores]. *)
Record QualityScores : Type := mkScores {
  freshness : double;
  completeness : double;
  references : double;
  total : double
}.

(** [new Date(t).getTime()]. *)
Definition getTime (t : isotime) : double :=
  match t with
  | Time ms => double_of_Z ms
  | _ => S754_nan
  end.

(** [(Date.now() - new Date(created).getTime()) / (1000 * 60 * 60 * 24)];
    [now] is the value of [Date.now()]. *)
Definition ageInDays (now : Z) (doc : Document) : double :=
  ddiv (dsub (double_of_Z now) (getTime (created (metadata doc))))
       (double_of_Z (1000 * 60 * 60 * 24)).

(** [QualityManager.calculateQualityScore]. *)
Definition calculateQualityScore (now : Z) (doc : Document) : QualityScores :=
  let freshness := dmax (double_of_Z 0) (dsub (double_of_Z 100) (ageInDays now doc)) in
  let completeness0 := double_of_Z 0 in
  let completeness1 :=
    if Nat.ltb 10 (str_length (summary (metadata doc)))
    then dadd completeness0 (double_of_Z 40) else completeness0 in
  let completeness2 :=
    if Nat.ltb 0 (length (tags (metadata doc)))
    then dadd completeness1 (double_of_Z 30) else completeness1 in
  let completeness3 :=
    if Nat.ltb 0 (length (related_files (metadata doc)))
    then dadd completeness2 (double_of_Z 30) else completeness2 in
  let references :=
    match reference_count (metadata doc) with
    | Some r => or_zero (double_of_Q r)
    | None => double_of_Z 0
    end in
  let total :=
    dadd (dadd (dmul freshness (decimal 4 10)) (dmul completeness3 (decimal 4 10)))
         (dmul references (decimal 2 10)) in
  mkScores freshness completeness3 references total.

End Binary64.

(** ** Sample data *)

Module Samples.

Import DocumentManager.

(** A document with the given id, related files, tags, summary and
    creation time; the other fields are as [createDocument] sets them. *)
Definition sampleDoc (docId : string) (files tags : list string)
    (summ : string) (t : isotime) : Document :=
  mkDocument
    (mkMetadata docId t t (Author "dev@example.com") tags "sha256:00" files
       summ summ summ "nomic-embed-text" "1.0" None None None None None None)
    "body" (docId ++ ".md").

(** Surroundings in which the summarizer truncates, no source file is
    readable and every document is dated the same day. *)
Definition sampleEnv : Env :=
  mkEnv (fun s n => String.substring 0 n s) (fun _ => None)
        "dev@example.com" (fun _ => "00") (fun _ => "2025-11-19").

(** The same surroundings when Ollama is not reachable. *)
Definition offlineEnv : Env :=
  mkEnv (Summarizer.summarize (fun _ _ => None)) (fun _ => None)
        "dev@example.com" (fun _ => "00") (fun _ => "2025-11-19").

Definition storeOf (docs : list Document) : Store :=
  mkStore (map (fun d => (file_path d, (metadata d, content d))) docs) [].

(** A vector index that knows no document. *)
Definition noHits : unit -> string -> nat -> result (list DocumentMerger.SearchResult) :=
  fun _ _ _ => Ok [].

Definition vsOk : unit -> string -> result unit := fun _ _ => Ok tt.

Definition vsAddOk : unit -> DocumentMerger.DocumentVector -> result unit :=
  fun _ _ => Ok tt.

End Samples.

(** * Properties *)

(** ** Sets and counts *)

Lemma includes_In (xs : list string) (x : string) :
  includes xs x = true <-> In x xs.
Proof.
  unfold includes. rewrite existsb_exists. split.
  - intros [y [Hy He]]. apply String.eqb_eq in He. now subst.
  - intros H. exists x. split; [assumption | apply String.eqb_refl].
Qed.

Lemma mkSet_In (xs : list string) (x : string) : In x (mkSet xs) <-> In x xs.
Proof.
  unfold mkSet. rewrite <- in_rev, nodup_In, <- in_rev. reflexivity.
Qed.

Lemma mkSet_NoDup (xs : list string) : NoDup (mkSet xs).
Proof.
  unfold mkSet. apply NoDup_rev. apply NoDup_nodup.
Qed.

Lemma mkSet_fixed (xs : list string) : NoDup xs -> mkSet xs = xs.
Proof.
  intros H. unfold mkSet.
  rewrite nodup_fixed_point by (apply NoDup_rev; exact H).
  apply rev_involutive.
Qed.

Lemma filter_all {A : Type} (f : A -> bool) (l : list A) :
  (forall x, In x l -> f x = true) -> filter f l = l.
Proof.
  induction l as [| a l IH]; intros H; simpl.
  - reflexivity.
  - rewrite (H a (or_introl eq_refl)). f_equal. apply IH.
    intros x Hx. apply H. now right.
Qed.

(** ** File overlap *)

Lemma intersection_size_subset (xs ys : list string) :
  NoDup xs -> incl xs ys -> intersection_size xs ys = length xs.
Proof.
  intros Hnd Hincl. unfold intersection_size.
  rewrite (mkSet_fixed xs Hnd).
  rewrite filter_all; [reflexivity |].
  intros x Hx. apply includes_In. apply mkSet_In. apply Hincl. exact Hx.
Qed.

(** C9, as amended: for related-path lists without repeated entries
    (so that each list has as many entries as its set has members), both
    non-empty, with every path of A among the paths of B, the file overlap
    is |A| / |B|. *)
Theorem fileOverlap_subset (filesA filesB : list string) :
  NoDup filesA -> NoDup filesB ->
  filesA <> [] -> filesB <> [] ->
  incl filesA filesB ->
  calculateFileOverlap filesA filesB
  == of_nat (length (mkSet filesA)) / of_nat (length (mkSet filesB))
  /\ length (mkSet filesA) = length filesA
  /\ length (mkSet filesB) = length filesB.
Proof.
  intros HA HB NA NB Hincl.
  rewrite (mkSet_fixed filesA HA), (mkSet_fixed filesB HB).
  split; [| split; reflexivity].
  unfold calculateFileOverlap.
  destruct filesA as [| a ra]; [contradiction |].
  destruct filesB as [| b rb]; [contradiction |].
  cbn [length Nat.eqb orb].
  rewrite (intersection_size_subset _ _ HA Hincl).
  pose proof (NoDup_incl_length HA Hincl) as Hle.
  cbn [length] in Hle. rewrite Nat.max_r by exact Hle. reflexivity.
Qed.

Lemma fileOverlap_subset_witness :
  calculateFileOverlap ["a.ts"; "b.ts"] ["a.ts"; "b.ts"; "c.ts"]
  == of_nat 2 / of_nat 3.
Proof.
  apply (fileOverlap_subset ["a.ts"; "b.ts"] ["a.ts"; "b.ts"; "c.ts"]).
  - repeat constructor; simpl; intuition discriminate.
  - repeat constructor; simpl; intuition discriminate.
  - discriminate.
  - discriminate.
  - intros x Hx. simpl in *. intuition.
Defined.

(** C9, as stated, fails when a path is listed more than once: for
    A = [a.ts; a.ts; a.ts] and B = [a.ts] the sets are equal, yet the
    overlap is 1/3, which is neither the ratio of the set sizes (1) nor
    that of the list lengths (3). *)
Lemma fileOverlap_subset_repeated_paths :
  let filesA := ["a.ts"; "a.ts"; "a.ts"] in
  let filesB := ["a.ts"] in
  filesA <> [] /\ filesB <> [] /\ incl filesA filesB /\
  calculateFileOverlap filesA filesB == 1 # 3 /\
  ~ calculateFileOverlap filesA filesB
    == of_nat (length (mkSet filesA)) / of_nat (length (mkSet filesB)) /\
  ~ calculateFileOverlap filesA filesB
    == of_nat (length filesA) / of_nat (length filesB).
Proof.
  cbv zeta. repeat split.
  - discriminate.
  - discriminate.
  - intros x Hx. simpl in *. intuition.
  - intro H. vm_compute in H. discriminate.
  - intro H. vm_compute in H. discriminate.
Qed.

(** ** The merge-candidate test *)

Section MergeCandidate.

Import DocumentMerger Samples.

Variable VS : Type.
Variable search : VS -> string -> nat -> result (list SearchResult).











End MergeCandidate.

(** C5, as stated, fails when a path is listed more than once: with
    related paths [a.ts; a.ts; a.ts] against [a.ts] the path sets are
    equal, the overlap of the sets is 1 and the stated test makes the pair
    a candidate, but the code divides the one common path by the length 3
    of the longer list, gets 1/3, and with a vector index that returns no
    hit pushes no group. *)
Lemma merge_candidate_repeated_paths :
  let a := Samples.sampleDoc "a" ["a.ts"; "a.ts"; "a.ts"] [] "first" (Time 0) in
  let b := Samples.sampleDoc "b" ["a.ts"] [] "second" (Time 0) in
  let threshold := 85 # 100 in
  SpecScore.fileOverlap (related_files (metadata a)) (related_files (metadata b)) == 1
  /\ SpecScore.mergeCandidate 0 threshold a b = true
  /\ calculateFileOverlap (related_files (metadata a)) (related_files (metadata b))
     == 1 # 3
  /\ DocumentMerger.calculateVectorSimilarity unit Samples.noHits tt a b = 0
  /\ DocumentMerger.scanPairs unit Samples.noHits tt threshold [a; b] = []
  /\ DocumentMerger.detectSimilarDocuments unit Samples.noHits tt threshold [a; b] = [].
Proof.
  cbv zeta. repeat split.
Qed.

(** ** Similarity of a new document *)

Section Similarity.

Import MCPServer Samples.

Lemma split_ws_from_nonempty (s cur : string) (in_ws : bool) (skip : nat) :
  split_ws_from s cur in_ws skip <> [].
Proof.
  revert cur in_ws skip. induction s as [| c r IH]; intros cur in_ws skip;
    cbn [split_ws_from].
  - discriminate.
  - destruct skip as [| k].
    + destruct (decode_at c r) as [cp k].
      destruct (is_space cp); [destruct in_ws |]; try apply IH. discriminate.
    + destruct in_ws; apply IH.
Qed.

Lemma mkSet_nonempty (xs : list string) : xs <> [] -> (0 < length (mkSet xs))%nat.
Proof.
  destruct xs as [| x r]; [contradiction |]. intros _.
  assert (H : In x (mkSet (x :: r))) by (apply mkSet_In; now left).
  destruct (mkSet (x :: r)); [contradiction | simpl; lia].
Qed.

Lemma words_nonempty (text : string) : (0 < length (words text))%nat.
Proof.
  apply mkSet_nonempty. apply split_ws_from_nonempty.
Qed.

Lemma dmul_nan (c : double) : dmul S754_nan c = S754_nan.
Proof. reflexivity. Qed.

Lemma dadd_nan_r (x : double) : dadd x S754_nan = S754_nan.
Proof. destruct x; reflexivity. Qed.

Lemma dadd_nan_l (y : double) : dadd S754_nan y = S754_nan.
Proof. reflexivity. Qed.

(** C1, as amended: the similarity is the double that
    ((0 + fileOverlap * 0.6) + tagSimilarity * 0.2) + keywordSimilarity * 0.2
    gives when every division, product and sum is rounded, where
    fileOverlap is the number of common paths over the larger of the two
    path counts (0 when a list is empty), tagSimilarity is the number of
    tags of the new document found among the other's over the larger of
    the two tag counts, and keywordSimilarity is the number of common
    words over the larger of the two word-set sizes, the words of a
    summary being its different lower-cased pieces between white space
    (there is always one).  Tags [auth; jwt] against [auth; oauth] give
    0.5.  When neither document has a tag the similarity is NaN. *)
Theorem similarity_formula (newDoc doc : Document) :
  let filesA := related_files (metadata newDoc) in
  let filesB := related_files (metadata doc) in
  let tagsA := tags (metadata newDoc) in
  let tagsB := tags (metadata doc) in
  let wordsA := words (summary (metadata newDoc)) in
  let wordsB := words (summary (metadata doc)) in
  let o := match filesA, filesB with
           | _ :: _, _ :: _ =>
               ddiv (double_of_nat (intersection_size filesA filesB))
                    (double_of_nat (Nat.max (length filesA) (length filesB)))
           | _, _ => double_of_Z 0
           end in
  let t := ddiv (double_of_nat (length (filter (fun tag => includes tagsB tag) tagsA)))
                (double_of_nat (Nat.max (length tagsA) (length tagsB))) in
  let k := ddiv (double_of_nat
                   (length (mkSet (filter (fun w => includes wordsB w) wordsA))))
                (double_of_nat (Nat.max (length wordsA) (length wordsB))) in
  Binary64.similarity newDoc doc
  = dadd (dadd (dadd (double_of_Z 0) (dmul o (decimal 6 10))) (dmul t (decimal 2 10)))
         (dmul k (decimal 2 10))
  /\ (forall text w,
        In w (words text) <-> In w (split_ws (toLowerCase text)))
  /\ (forall text, NoDup (words text) /\ (0 < length (words text))%nat)
  /\ Binary64.tagSimilarity ["auth"; "jwt"] ["auth"; "oauth"] = decimal 1 2
  /\ (tagsA = [] -> tagsB = [] -> Binary64.similarity newDoc doc = S754_nan).
Proof.
  intros filesA filesB tagsA tagsB wordsA wordsB o t k.
  split; [| split; [| split; [| split]]].
  - unfold Binary64.similarity, Binary64.calculateFileOverlap. fold filesA filesB.
    assert (Eo : (if Nat.eqb (length filesA) 0 || Nat.eqb (length filesB) 0
                  then double_of_Z 0
                  else ddiv (double_of_nat (intersection_size filesA filesB))
                            (double_of_nat (Nat.max (length filesA) (length filesB))))
                 = o).
    { subst o. destruct filesA; [reflexivity |]. destruct filesB; reflexivity. }
    cbv zeta. rewrite Eo. reflexivity.
  - intros text w. unfold words. apply mkSet_In.
  - intros text. split; [apply mkSet_NoDup | apply words_nonempty].
  - vm_compute. reflexivity.
  - intros HA HB. unfold Binary64.similarity. cbv zeta. fold tagsA tagsB.
    rewrite HA, HB.
    change (Binary64.tagSimilarity [] []) with S754_nan.
    rewrite dmul_nan, dadd_nan_r. apply dadd_nan_l.
Qed.

(** At the threshold 0.9 of [handleRecordImplementation]: two documents
    with the same file, the same summary and one of two tags in common
    have the similarity 0.8999999999999999, which does not reach it. *)
Lemma similarity_formula_witness :
  let a := sampleDoc "a" ["src/auth.ts"] ["auth"; "jwt"] "fix login" (Time 0) in
  let b := sampleDoc "b" ["src/auth.ts"] ["auth"; "oauth"] "fix login" (Time 0) in
  Binary64.similarity a b = S754_finite false 8106479329266892 (-53)
  /\ decimal 9 10 = S754_finite false 8106479329266893 (-53)
  /\ dge (Binary64.similarity a b) (decimal 9 10) = false.
Proof.
  intros a b.
  destruct (similarity_formula a b) as [H _].
  rewrite H. vm_compute. repeat split.
Defined.

(** C1, as stated, fails: for tags [auth; jwt] against [auth; oauth] the
    code's tag term is 0.5, not the intersection-over-union 1/3, and on
    two documents that agree on files and summary the similarity is
    0.8999999999999999 where the stated formula gives 13/15. *)
Lemma similarity_is_not_jaccard :
  let a := sampleDoc "a" ["src/auth.ts"] ["auth"; "jwt"] "fix login" (Time 0) in
  let b := sampleDoc "b" ["src/auth.ts"] ["auth"; "oauth"] "fix login" (Time 0) in
  SpecScore.tagJaccard a b == 1 # 3
  /\ value (Binary64.tagSimilarity (tags (metadata a)) (tags (metadata b))) = Some (1 # 2)
  /\ SpecScore.score a b == 13 # 15
  /\ exists q, value (Binary64.similarity a b) = Some q
               /\ SpecScore.score a b + (3 # 100) < q.
Proof.
  cbv zeta. split; [reflexivity |]. split; [vm_compute; reflexivity |].
  split; [reflexivity |]. eexists. split; [vm_compute; reflexivity |].
  vm_compute. reflexivity.
Qed.

(** The exact value of the sum when neither document has a tag: the tag
    term is 0/0. *)
Lemma similarity_without_tags (newDoc doc : Document) :
  tags (metadata newDoc) = [] -> tags (metadata doc) = [] ->
  similarity newDoc doc = NaN.
Proof.
  intros HA HB. unfold similarity. rewrite HA, HB. reflexivity.
Qed.

End Similarity.

(** ** Quality scores *)

Section Quality.

Import Samples.

(** C7, as amended: for a document whose creation time parses, with
    every operation rounded as doubles are, freshness is
    max(0, 100 - ageInDays), the age being the difference of the two
    times in milliseconds over 86400000; completeness is 40 for a summary
    of more than 10 UTF-16 code units plus 30 for a tag plus 30 for a
    related file; total is
    (freshness * 0.4 + completeness * 0.4) + referenceCount * 0.2, the
    count being 0 when absent.  A document created 120 days before now
    with no tag, no related file, a summary of at most 10 code units and
    no reference count scores 0, 0 and 0. *)
Theorem quality_score_formula (now t : Z) (doc : Document) :
  created (metadata doc) = Time t ->
  let s := Binary64.calculateQualityScore now doc in
  let age := ddiv (dsub (double_of_Z now) (double_of_Z t)) (double_of_Z 86400000) in
  let points :=
    ((if Nat.ltb 10 (str_length (summary (metadata doc))) then 40 else 0)
     + (match tags (metadata doc) with [] => 0 | _ => 30 end)
     + (match related_files (metadata doc) with [] => 0 | _ => 30 end))%Z in
  let r := match reference_count (metadata doc) with
           | Some n => or_zero (double_of_Q n)
           | None => double_of_Z 0
           end in
  Binary64.freshness s = dmax (double_of_Z 0) (dsub (double_of_Z 100) age)
  /\ Binary64.completeness s = double_of_Z points
  /\ Binary64.references s = r
  /\ Binary64.total s
     = dadd (dadd (dmul (Binary64.freshness s) (decimal 4 10))
                  (dmul (double_of_Z points) (decimal 4 10)))
            (dmul r (decimal 2 10))
  /\ (dsub (double_of_Z now) (double_of_Z t) = double_of_Z (120 * 86400000) ->
      tags (metadata doc) = [] -> related_files (metadata doc) = [] ->
      (str_length (summary (metadata doc)) <= 10)%nat ->
      reference_count (metadata doc) = None ->
      Binary64.freshness s = double_of_Z 0
      /\ Binary64.completeness s = double_of_Z 0
      /\ Binary64.total s = double_of_Z 0).
Proof.
  intros Hc s age points r.
  assert (Hf : Binary64.freshness s
               = dmax (double_of_Z 0) (dsub (double_of_Z 100) age)).
  { subst s age. unfold Binary64.calculateQualityScore, Binary64.ageInDays.
    cbn [Binary64.freshness]. rewrite Hc. reflexivity. }
  assert (Hp : Binary64.completeness s = double_of_Z points).
  { subst s points. unfold Binary64.calculateQualityScore.
    cbn [Binary64.completeness].
    destruct (Nat.ltb 10 _); destruct (tags (metadata doc));
      destruct (related_files (metadata doc)); cbn [length Nat.ltb Nat.leb];
      vm_compute; reflexivity. }
  assert (Ht : Binary64.total s
               = dadd (dadd (dmul (Binary64.freshness s) (decimal 4 10))
                            (dmul (double_of_Z points) (decimal 4 10)))
                      (dmul r (decimal 2 10))).
  { rewrite <- Hp. reflexivity. }
  split; [exact Hf |]. split; [exact Hp |]. split; [reflexivity |].
  split; [exact Ht |].
  intros Hage Htags Hfiles Hsum Href.
  assert (Hf0 : Binary64.freshness s = double_of_Z 0).
  { rewrite Hf. subst age. rewrite Hage. vm_compute. reflexivity. }
  assert (Hp0 : points = 0%Z).
  { subst points. rewrite Htags, Hfiles.
    replace (Nat.ltb 10 (str_length (summary (metadata doc)))) with false;
      [reflexivity |].
    symmetry. apply Nat.ltb_ge. exact Hsum. }
  split; [exact Hf0 |]. split; [now rewrite Hp, Hp0 |].
  rewrite Ht, Hf0, Hp0. subst r. rewrite Href. vm_compute. reflexivity.
Qed.

Lemma quality_score_formula_witness :
  let doc := sampleDoc "d" [] [] "short" (Time 0) in
  let s := Binary64.calculateQualityScore (120 * 86400000) doc in
  Binary64.freshness s = double_of_Z 0
  /\ Binary64.completeness s = double_of_Z 0
  /\ Binary64.total s = double_of_Z 0.
Proof.
  intros doc s.
  destruct (quality_score_formula (120 * 86400000) 0 doc eq_refl)
    as [_ [_ [_ [_ H]]]].
  apply H.
  - vm_compute. reflexivity.
  - reflexivity.
  - reflexivity.
  - vm_compute. lia.
  - reflexivity.
Defined.

(** C7, as stated, fails in its example: a document created 120 days ago
    with no tag and no related file, whose summary has more than 10
    characters, has completeness 40 and total 16. *)
Lemma quality_score_long_summary :
  let doc := sampleDoc "d" [] [] "Implemented the login flow" (Time 0) in
  let s := Binary64.calculateQualityScore (120 * 86400000) doc in
  tags (metadata doc) = [] /\ related_files (metadata doc) = []
  /\ Binary64.ageInDays (120 * 86400000) doc = double_of_Z 120
  /\ Binary64.freshness s = double_of_Z 0
  /\ Binary64.completeness s = double_of_Z 40
  /\ Binary64.total s = double_of_Z 16
  /\ Binary64.completeness s <> double_of_Z 0
  /\ Binary64.total s <> double_of_Z 0.
Proof.
  cbv zeta. repeat split; try (vm_compute; reflexivity).
  - intro H. vm_compute in H. discriminate.
  - intro H. vm_compute in H. discriminate.
Qed.

(** The rounding shows in the total: freshness 97 and completeness 30
    give 50.800000000000004, the double next above 50.8. *)
Lemma quality_score_total_rounded :
  let doc := sampleDoc "d" ["src/a.ts"] [] "short" (Time 0) in
  let s := Binary64.calculateQualityScore (3 * 86400000) doc in
  Binary64.freshness s = double_of_Z 97
  /\ Binary64.completeness s = double_of_Z 30
  /\ Binary64.total s = S754_finite false 7149464408450663 (-47)
  /\ decimal 508 10 = S754_finite false 7149464408450662 (-47).
Proof.
  cbv zeta. repeat split; vm_compute; reflexivity.
Qed.

End Quality.

(** ** The document store *)

Section Store.

Import DocumentManager Samples.

Lemma lookup_writeFile_same (d : Dir) (name : string) (data : FileData) :
  lookupFile (writeFile d name data) name = Some data.
Proof.
  unfold lookupFile. induction d as [| [n old] r IH]; simpl.
  - now rewrite String.eqb_refl.
  - destruct (String.eqb n name) eqn:E; simpl; rewrite E.
    + reflexivity.
    + exact IH.
Qed.

Lemma lookup_writeFile_other (d : Dir) (name other : string) (data : FileData) :
  other <> name ->
  lookupFile (writeFile d name data) other = lookupFile d other.
Proof.
  intros Hne. unfold lookupFile. induction d as [| [n old] r IH]; simpl.
  - destruct (String.eqb name other) eqn:E; [| reflexivity].
    apply String.eqb_eq in E. congruence.
  - destruct (String.eqb n name) eqn:E; simpl.
    + apply String.eqb_eq in E. subst n.
      destruct (String.eqb name other) eqn:E'; [| reflexivity].
      apply String.eqb_eq in E'. congruence.
    + destruct (String.eqb n other); [reflexivity | exact IH].
Qed.

Lemma getDocument_Some (st : Store) (docId : string) (doc : Document) :
  getDocument st docId = Some doc ->
  In (file_path doc, (metadata doc, content doc)) (docsDir st)
  /\ visible (file_path doc) = true
  /\ id (metadata doc) = docId.
Proof.
  unfold getDocument. intros H.
  destruct (find (holds docId) (docsDir st)) as [[file [m c]] |] eqn:E; [| discriminate].
  injection H as <-. apply find_some in E. destruct E as [Hin Hp].
  apply andb_true_iff in Hp. destruct Hp as [Hv Hid].
  apply String.eqb_eq in Hid. simpl in *. auto.
Qed.

Lemma getDocument_None (st : Store) (docId : string) :
  getDocument st docId = None <-> FreshId (docsDir st) docId.
Proof.
  unfold FreshId.
  unfold getDocument. split.
  - intros H n x Hin Hv Hid.
    destruct (find (holds docId) (docsDir st)) as [[file [m c]] |] eqn:E; [discriminate |].
    pose proof (find_none _ _ E (n, x) Hin) as Hf. unfold holds in Hf. simpl in Hf.
    rewrite Hv, Hid, String.eqb_refl in Hf. discriminate.
  - intros H.
    destruct (find (holds docId) (docsDir st)) as [[file [m c]] |] eqn:E; [| reflexivity].
    apply find_some in E. destruct E as [Hin Hp].
    apply andb_true_iff in Hp. destruct Hp as [Hv Hid].
    apply String.eqb_eq in Hid. simpl in *.
    exfalso. exact (H file (m, c) Hin Hv Hid).
Qed.

(** C8, as amended: [updateDocument] throws the not-found error and
    leaves the store as it is when no visible file holds the id; otherwise
    it returns the document with the patch applied (every field of the
    metadata is the patch's if the patch has it and the stored one
    otherwise) and [updated] set to the current time, whatever the patch
    says of it, writes it to the document's file, and leaves every other
    file and the archive unchanged.  The change log is the patch's if the
    patch has one and the old one otherwise: no entry is appended. *)
Theorem updateDocument_spec (now : Z) (st : Store) (docId : string)
    (updates : MetadataPatch) :
  (getDocument st docId = None ->
   updateDocument now st docId updates = (Throw (notFound docId), st))
  /\ (forall doc, getDocument st docId = Some doc ->
      exists doc' st',
        updateDocument now st docId updates = (Ok doc', st')
        /\ updated (metadata doc') = Time now
        /\ id (metadata doc')
           = match u_id updates with Some v => v | None => id (metadata doc) end
        /\ created (metadata doc')
           = match u_created updates with Some v => v | None => created (metadata doc) end
        /\ author (metadata doc')
           = match u_author updates with Some v => v | None => author (metadata doc) end
        /\ tags (metadata doc')
           = match u_tags updates with Some v => v | None => tags (metadata doc) end
        /\ prompt_hash (metadata doc')
           = match u_prompt_hash updates with
             | Some v => v
             | None => prompt_hash (metadata doc)
             end
        /\ related_files (metadata doc')
           = match u_related_files updates with
             | Some v => v
             | None => related_files (metadata doc)
             end
        /\ summary (metadata doc')
           = match u_summary updates with Some v => v | None => summary (metadata doc) end
        /\ ultra_summary (metadata doc')
           = match u_ultra_summary updates with
             | Some v => v
             | None => ultra_summary (metadata doc)
             end
        /\ standard_summary (metadata doc')
           = match u_standard_summary updates with
             | Some v => v
             | None => standard_summary (metadata doc)
             end
        /\ embedding_model (metadata doc')
           = match u_embedding_model updates with
             | Some v => v
             | None => embedding_model (metadata doc)
             end
        /\ version (metadata doc')
           = match u_version updates with Some v => v | None => version (metadata doc) end
        /\ merged_from (metadata doc')
           = match u_merged_from updates with
             | Some v => Some v
             | None => merged_from (metadata doc)
             end
        /\ merge_method (metadata doc')
           = match u_merge_method updates with
             | Some v => Some v
             | None => merge_method (metadata doc)
             end
        /\ merge_timestamp (metadata doc')
           = match u_merge_timestamp updates with
             | Some v => Some v
             | None => merge_timestamp (metadata doc)
             end
        /\ is_merged (metadata doc')
           = match u_is_merged updates with
             | Some v => Some v
             | None => is_merged (metadata doc)
             end
        /\ reference_count (metadata doc')
           = match u_reference_count updates with
             | Some v => Some v
             | None => reference_count (metadata doc)
             end
        /\ change_log (metadata doc')
           = match u_change_log updates with
             | Some v => Some v
             | None => change_log (metadata doc)
             end
        /\ content doc' = content doc
        /\ file_path doc' = file_path doc
        /\ lookupFile (docsDir st') (file_path doc) = Some (metadata doc', content doc')
        /\ (forall other, other <> file_path doc ->
              lookupFile (docsDir st') other = lookupFile (docsDir st) other)
        /\ archiveDir st' = archiveDir st).
Proof.
  split.
  - intros H. unfold updateDocument. now rewrite H.
  - intros doc H. unfold updateDocument. rewrite H.
    eexists. eexists. split; [reflexivity |]. cbn.
    repeat split.
    + apply lookup_writeFile_same.
    + intros other Hne. now apply lookup_writeFile_other.
Qed.

(** C8, as stated, fails: updating a stored document whose change log has
    one entry succeeds and returns it with [updated] bumped and the same
    one-entry change log, which is also what the file then holds. *)
Lemma updateDocument_appends_no_change_log_entry :
  let entry := mkChangeLogEntry (Time 0) "created" "dev@example.com" None in
  let old :=
    IntegrityChecker.set_change_log
      (metadata (sampleDoc "id-1" ["src/a.ts"] ["a"] "first" (Time 0))) [entry] in
  let st := mkStore [("id-1.md", (old, "body"))] [] in
  exists doc' st',
    updateDocument 1000 st "id-1" emptyPatch = (Ok doc', st')
    /\ updated (metadata doc') = Time 1000
    /\ change_log old = Some [entry]
    /\ change_log (metadata doc') = Some [entry]
    /\ lookupFile (docsDir st') "id-1.md" = Some (metadata doc', "body").
Proof.
  cbv zeta. eexists. eexists. split; [reflexivity |]. repeat split.
Qed.

End Store.

(** ** Merging *)

Section Merging.

Import DocumentManager DocumentMerger Samples.

Variable VS : Type.
Variable vsDeleteDocument : VS -> string -> result VS.
Variable vsAddDocument : VS -> DocumentVector -> result VS.

(** C6: merging fewer than two documents throws, and neither the store
    nor the vector index is changed, whether [mergeDocuments] is called
    directly or from the loop of [executeMerge]. *)
Theorem mergeDocuments_too_few (env : Env) (now : Z) (uuid : string)
    (vs : VS) (st : Store) (group : DocumentGroup) :
  (length (documents group) < 2)%nat ->
  mergeDocuments env now uuid st (documents group) = (Throw tooFew, st)
  /\ executeMergeGroup VS vsDeleteDocument vsAddDocument env now uuid vs st group
     = (Throw tooFew, (vs, st)).
Proof.
  intros H.
  assert (E : mergeDocuments env now uuid st (documents group) = (Throw tooFew, st)).
  { unfold mergeDocuments. apply Nat.ltb_lt in H. now rewrite H. }
  split; [exact E |]. unfold executeMergeGroup. now rewrite E.
Qed.

End Merging.

Lemma mergeDocuments_too_few_witness :
  let doc := Samples.sampleDoc "id-1" ["src/a.ts"] ["a"] "only one" (Time 0) in
  let st := Samples.storeOf [doc] in
  DocumentMerger.mergeDocuments Samples.sampleEnv 1000 "id-2" st [doc]
  = (Throw DocumentMerger.tooFew, st).
Proof.
  intros doc st.
  apply (mergeDocuments_too_few unit Samples.vsOk Samples.vsAddOk Samples.sampleEnv
           1000 "id-2" tt st (DocumentMerger.mkGroup 0 [doc] DocumentMerger.file_overlap)).
  simpl. lia.
Defined.

(** ** Archiving the sources of a merge *)

Section Archiving.

Import DocumentManager DocumentMerger Samples.

Lemma in_writeFile (d : Dir) (name : string) (data : FileData) n x :
  In (n, x) (writeFile d name data) -> (n = name /\ x = data) \/ In (n, x) d.
Proof.
  induction d as [| [n0 old] r IH]; simpl.
  - intros [H | []]. injection H as <- <-. now left.
  - destruct (String.eqb n0 name) eqn:E; simpl.
    + apply String.eqb_eq in E. subst n0.
      intros [H | H]; [injection H as <- <-; now left | right; now right].
    + intros [H | H]; [right; now left |].
      destruct (IH H) as [H' | H']; [now left | right; now right].
Qed.

Lemma in_writeFile_self (d : Dir) (name : string) (data : FileData) :
  In (name, data) (writeFile d name data).
Proof.
  induction d as [| [n0 old] r IH]; simpl.
  - now left.
  - destruct (String.eqb n0 name) eqn:E; simpl.
    + apply String.eqb_eq in E. subst n0. now left.
    + now right.
Qed.

Lemma in_writeFile_other (d : Dir) (name : string) (data : FileData) n x :
  n <> name -> In (n, x) d -> In (n, x) (writeFile d name data).
Proof.
  intros Hne. induction d as [| [n0 old] r IH]; simpl.
  - intros [].
  - destruct (String.eqb n0 name) eqn:E; simpl.
    + apply String.eqb_eq in E. subst n0.
      intros [H | H]; [injection H as <- <-; congruence | now right].
    + intros [H | H]; [now left | right; now apply IH].
Qed.

Lemma writeFile_twice (d : Dir) (name : string) (x y : FileData) :
  writeFile (writeFile d name x) name y = writeFile d name y.
Proof.
  induction d as [| [n0 old] r IH]; simpl.
  - now rewrite String.eqb_refl.
  - destruct (String.eqb n0 name) eqn:E; simpl; rewrite E.
    + reflexivity.
    + now rewrite IH.
Qed.

Lemma in_unlink (d : Dir) (name : string) n x :
  In (n, x) (unlink d name) <-> In (n, x) d /\ n <> name.
Proof.
  unfold unlink. rewrite filter_In. simpl. rewrite negb_true_iff.
  split; intros [H1 H2]; split; try assumption.
  - intro E. subst n. now rewrite String.eqb_refl in H2.
  - now apply String.eqb_neq.
Qed.

Lemma UniqueIds_unlink (d : Dir) (name : string) :
  UniqueIds d -> UniqueIds (unlink d name).
Proof.
  intros U n1 x1 n2 x2 H1 H2. apply in_unlink in H1, H2.
  apply U; tauto.
Qed.

Lemma UniqueIds_writeFile (d : Dir) (name : string) (data : FileData) :
  UniqueIds d -> FreshId d (id (fst data)) -> UniqueIds (writeFile d name data).
Proof.
  intros U F n1 x1 n2 x2 H1 H2 V1 V2 E.
  apply in_writeFile in H1, H2.
  destruct H1 as [[-> ->] | H1], H2 as [[-> ->] | H2].
  - reflexivity.
  - exfalso. exact (F n2 x2 H2 V2 (eq_sym E)).
  - exfalso. exact (F n1 x1 H1 V1 E).
  - exact (U n1 x1 n2 x2 H1 H2 V1 V2 E).
Qed.

Lemma archiveDocument_Ok (st st' : Store) (docId : string) (u : unit) :
  archiveDocument st docId = (Ok u, st') ->
  exists doc,
    getDocument st docId = Some doc
    /\ docsDir st' = unlink (docsDir st) (file_path doc)
    /\ archiveDir st' = writeFile (archiveDir st) (file_path doc)
                                  (metadata doc, content doc).
Proof.
  unfold archiveDocument. destruct (getDocument st docId) as [doc |]; [| discriminate].
  intros H. injection H as _ <-. exists doc. auto.
Qed.

Variable VS : Type.
Variable vsDeleteDocument : VS -> string -> result VS.

(** The archiving loop only removes files from the active directory. *)
Lemma archiveSources_docs (docs : list Document) :
  forall vs st u vs' st',
    archiveSources VS vsDeleteDocument vs st docs = (Ok u, (vs', st')) ->
    forall n x, In (n, x) (docsDir st') -> In (n, x) (docsDir st).
Proof.
  induction docs as [| doc r IH]; intros vs st u vs' st' H n x Hin; simpl in H.
  - injection H as _ _ <-. exact Hin.
  - destruct (archiveDocument st (id (metadata doc))) as [[u1 | e] st1] eqn:EA;
      [| discriminate].
    destruct (vsDeleteDocument vs (id (metadata doc))) as [vs1 | e]; [| discriminate].
    apply archiveDocument_Ok in EA. destruct EA as [d [_ [Hd _]]].
    pose proof (IH _ _ _ _ _ H n x Hin) as H1.
    rewrite Hd in H1. apply in_unlink in H1. tauto.
Qed.

(** A file of the archive whose name is no longer in use in the active
    directory stays in the archive. *)
Lemma archiveSources_archive (docs : list Document) :
  forall vs st u vs' st',
    archiveSources VS vsDeleteDocument vs st docs = (Ok u, (vs', st')) ->
    forall n x, In (n, x) (archiveDir st) ->
                (forall y, ~ In (n, y) (docsDir st)) ->
                In (n, x) (archiveDir st').
Proof.
  induction docs as [| doc r IH]; intros vs st u vs' st' H n x Hin Hfree; simpl in H.
  - injection H as _ _ <-. exact Hin.
  - destruct (archiveDocument st (id (metadata doc))) as [[u1 | e] st1] eqn:EA;
      [| discriminate].
    destruct (vsDeleteDocument vs (id (metadata doc))) as [vs1 | e]; [| discriminate].
    apply archiveDocument_Ok in EA. destruct EA as [d [Hg [Hd Ha]]].
    apply getDocument_Some in Hg. destruct Hg as [Hdin _].
    apply (IH _ _ _ _ _ H).
    + rewrite Ha. apply in_writeFile_other; [| exact Hin].
      intro E. subst n. exact (Hfree _ Hdin).
    + intros y Hy. rewrite Hd in Hy. apply in_unlink in Hy.
      exact (Hfree y (proj1 Hy)).
Qed.

Lemma archiveSources_sources (docs : list Document) :
  forall vs st u vs' st',
    UniqueIds (docsDir st) ->
    archiveSources VS vsDeleteDocument vs st docs = (Ok u, (vs', st')) ->
    forall d, In d docs ->
      getDocument st' (id (metadata d)) = None
      /\ exists n x,
           In (n, x) (docsDir st) /\ visible n = true
           /\ id (fst x) = id (metadata d) /\ In (n, x) (archiveDir st').
Proof.
  induction docs as [| doc r IH]; intros vs st u vs' st' U H d Hd; simpl in H.
  - destruct Hd.
  - destruct (archiveDocument st (id (metadata doc))) as [[u1 | e] st1] eqn:EA;
      [| discriminate].
    destruct (vsDeleteDocument vs (id (metadata doc))) as [vs1 | e]; [| discriminate].
    apply archiveDocument_Ok in EA. destruct EA as [found [Hg [Hdocs Harch]]].
    apply getDocument_Some in Hg. destruct Hg as [Hfin [Hfv Hfid]].
    assert (U1 : UniqueIds (docsDir st1))
      by (rewrite Hdocs; now apply UniqueIds_unlink).
    destruct Hd as [<- | Hd].
    + split.
      * apply getDocument_None. intros n2 x2 Hin2 Hv2 Hid2.
        pose proof (archiveSources_docs _ _ _ _ _ _ H n2 x2 Hin2) as Hin1.
        rewrite Hdocs in Hin1. apply in_unlink in Hin1. destruct Hin1 as [Hin0 Hne].
        apply Hne.
        apply (U n2 x2 (file_path found) (metadata found, content found));
          try assumption.
        simpl. congruence.
      * exists (file_path found), (metadata found, content found).
        repeat split; try assumption.
        apply (archiveSources_archive _ _ _ _ _ _ H).
        -- rewrite Harch. apply in_writeFile_self.
        -- intros y Hy. rewrite Hdocs in Hy. apply in_unlink in Hy. now destruct Hy.
    + destruct (IH _ _ _ _ _ U1 H d Hd) as [Hnone [n [x [Hin [Hv [Hid Ha]]]]]].
      split; [exact Hnone |].
      exists n, x. repeat split; try assumption.
      rewrite Hdocs in Hin. apply in_unlink in Hin. tauto.
Qed.

End Archiving.

Section MergedSources.

Import DocumentManager DocumentMerger Samples.

Lemma mergeDocuments_Ok (env : Env) (now : Z) (uuid : string) (st st1 : Store)
    (docs : list Document) (merged : Document) :
  FreshId (docsDir st) uuid ->
  mergeDocuments env now uuid st docs = (Ok merged, st1) ->
  (exists name data,
      docsDir st1 = writeFile (docsDir st) name data /\ id (fst data) = uuid)
  /\ archiveDir st1 = archiveDir st
  /\ related_files (metadata merged)
     = mkSet (flatMap (fun d => related_files (metadata d)) docs)
  /\ tags (metadata merged)
     = MetadataExtractor.generateTags
         ("統合: " ++ join ", " (map (fun d => summary (metadata d)) docs))
         (related_files (metadata merged)).
Proof.
  intros F H. unfold mergeDocuments in H.
  destruct (Nat.ltb (length docs) 2); [discriminate |].
  destruct docs as [| firstDoc rest]; [discriminate |].
  cbn [createMergedMetadata] in H.
  destruct (createDocument env now uuid st _) as [merged0 st1a] eqn:EC.
  unfold createDocument in EC. injection EC as <- <-.
  cbn [metadata content file_path] in H.
  match type of H with
  | context [updateDocument now ?s ?i ?p] =>
      destruct (updateDocument now s i p) as [[d2 | e] st2] eqn:EU; [| discriminate]
  end.
  injection H as <- <-.
  unfold updateDocument in EU.
  match type of EU with
  | context [getDocument ?s ?i] =>
      destruct (getDocument s i) as [found |] eqn:EG; [| discriminate]
  end.
  injection EU as _ <-.
  apply getDocument_Some in EG. destruct EG as [Hin [Hv Hid]].
  cbn [docsDir archiveDir] in *.
  apply in_writeFile in Hin. destruct Hin as [[Hname _] | Hin].
  - split; [| split; [reflexivity | split; reflexivity]].
    rewrite Hname, writeFile_twice. eexists. eexists. split; [reflexivity |].
    reflexivity.
  - exfalso. apply (F _ _ Hin Hv). cbn [fst]. rewrite Hid. reflexivity.
Qed.

Variable VS : Type.
Variable vsDeleteDocument : VS -> string -> result VS.
Variable vsAddDocument : VS -> DocumentVector -> result VS.

(** C4, as amended: when one round of [executeMerge] succeeds on a group,
    in a store whose visible files hold pairwise different ids and with a
    new id that neither a visible file nor a source of the group has,
    every source of the group has had its file moved, with its metadata
    and body, from the active directory to the archive directory; it is
    not deleted, and [getDocument], which reads the active directory
    only, returns null for its id. *)
Theorem merged_sources_are_archived (env : Env) (now : Z) (uuid : string)
    (vs vs' : VS) (st st' : Store) (group : DocumentGroup) (merged : Document) :
  UniqueIds (docsDir st) ->
  FreshId (docsDir st) uuid ->
  ~ In uuid (docIds (documents group)) ->
  executeMergeGroup VS vsDeleteDocument vsAddDocument env now uuid vs st group
  = (Ok merged, (vs', st')) ->
  forall d, In d (documents group) ->
    getDocument st' (id (metadata d)) = None
    /\ exists n x,
         In (n, x) (docsDir st) /\ visible n = true
         /\ id (fst x) = id (metadata d)
         /\ In (n, x) (archiveDir st')
         /\ ~ In (n, x) (docsDir st').
Proof.
  intros U F Hnew H d Hd. unfold executeMergeGroup in H.
  destruct (mergeDocuments env now uuid st (documents group))
    as [[m1 | e] st1] eqn:EM; [| discriminate].
  destruct (archiveSources VS vsDeleteDocument vs st1 (documents group))
    as [[u | e] [vs2 st2]] eqn:EA; [| discriminate].
  destruct (vsAddDocument vs2 _) as [vs3 | e]; [| discriminate].
  injection H as _ _ <-.
  destruct (mergeDocuments_Ok _ _ _ _ _ _ _ F EM) as [[name [data [Hdocs Hdata]]] _].
  assert (U1 : UniqueIds (docsDir st1)).
  { rewrite Hdocs. apply UniqueIds_writeFile; [exact U |]. now rewrite Hdata. }
  destruct (archiveSources_sources VS vsDeleteDocument _ _ _ _ _ _ U1 EA d Hd)
    as [Hnone [n [x [Hin [Hv [Hid Ha]]]]]].
  split; [exact Hnone |].
  exists n, x.
  assert (Hin0 : In (n, x) (docsDir st)).
  { rewrite Hdocs in Hin. apply in_writeFile in Hin.
    destruct Hin as [[_ ->] | Hin]; [| exact Hin].
    exfalso. apply Hnew. unfold docIds. apply in_map_iff.
    exists d. split; [congruence | exact Hd]. }
  repeat split; try assumption.
  intro Hin2. apply getDocument_None in Hnone. exact (Hnone n x Hin2 Hv Hid).
Qed.

End MergedSources.

Lemma merged_sources_are_archived_witness :
  let a := Samples.sampleDoc "id-1" ["src/a.ts"] ["security"] "Login" (Time 0) in
  let b := Samples.sampleDoc "id-2" ["src/b.ts"] ["database"] "Logout" (Time 0) in
  let st := Samples.storeOf [a; b] in
  let group := DocumentMerger.mkGroup 0 [a; b] DocumentMerger.file_overlap in
  let out :=
    DocumentMerger.executeMergeGroup unit Samples.vsOk Samples.vsAddOk
      Samples.sampleEnv 1000 "id-3" tt st group in
  DocumentManager.getDocument (snd (snd out)) "id-1" = None
  /\ In ("id-1.md", (metadata a, content a))
        (DocumentManager.archiveDir (snd (snd out))).
Proof.
  intros a b st group out.
  assert (E : exists merged st', out = (Ok merged, (tt, st'))).
  { eexists. eexists. subst out. vm_compute. reflexivity. }
  destruct E as [merged [st' E]].
  assert (U : DocumentManager.UniqueIds (DocumentManager.docsDir st)).
  { intros n1 x1 n2 x2 H1 H2 _ _ Hid. simpl in H1, H2.
    destruct H1 as [H1 | [H1 | []]], H2 as [H2 | [H2 | []]];
      injection H1 as <- <-; injection H2 as <- <-;
      try reflexivity; simpl in Hid; discriminate. }
  assert (F : DocumentManager.FreshId (DocumentManager.docsDir st) "id-3").
  { intros n x H _. simpl in H.
    destruct H as [H | [H | []]]; injection H as <- <-; simpl; discriminate. }
  assert (N : ~ In "id-3" (DocumentMerger.docIds (DocumentMerger.documents group))).
  { simpl. intros [H | [H | []]]; discriminate. }
  destruct (merged_sources_are_archived unit Samples.vsOk Samples.vsAddOk
              Samples.sampleEnv 1000 "id-3" tt tt st st' group merged U F N E a
              (or_introl eq_refl))
    as [Hnone [n [x [Hin [Hv [Hid [Ha _]]]]]]].
  rewrite E. cbn [snd]. split; [exact Hnone |].
  simpl in Hin. destruct Hin as [Hin | [Hin | []]]; injection Hin as <- <-.
  - exact Ha.
  - simpl in Hid. discriminate.
Defined.

(** C4, as stated, fails: after a successful round of [executeMerge] on
    the two stored documents id-1 and id-2, their files are in the archive
    directory, and [getDocument] returns null for both ids. *)
Lemma archived_sources_are_not_retrievable :
  let a := Samples.sampleDoc "id-1" ["src/a.ts"] ["security"] "Login" (Time 0) in
  let b := Samples.sampleDoc "id-2" ["src/b.ts"] ["database"] "Logout" (Time 0) in
  let st := Samples.storeOf [a; b] in
  let group := DocumentMerger.mkGroup 0 [a; b] DocumentMerger.file_overlap in
  DocumentManager.getDocument st "id-1" = Some a
  /\ DocumentManager.getDocument st "id-2" = Some b
  /\ exists merged st',
       DocumentMerger.executeMergeGroup unit Samples.vsOk Samples.vsAddOk
         Samples.sampleEnv 1000 "id-3" tt st group = (Ok merged, (tt, st'))
       /\ map fst (DocumentManager.archiveDir st') = ["id-1.md"; "id-2.md"]
       /\ DocumentManager.getDocument st' "id-1" = None
       /\ DocumentManager.getDocument st' "id-2" = None.
Proof.
  cbv zeta. split; [reflexivity |]. split; [reflexivity |].
  eexists. eexists. split; [vm_compute; reflexivity |].
  repeat split.
Qed.

(** ** Metadata of a merged document *)

Section MergedMetadata.

Import DocumentManager DocumentMerger Samples.

(** The related files of the merged document are the union of those of
    the sources. *)
Lemma merged_related_files (env : Env) (now : Z) (uuid : string) (st st1 : Store)
    (docs : list Document) (merged : Document) :
  FreshId (docsDir st) uuid ->
  mergeDocuments env now uuid st docs = (Ok merged, st1) ->
  forall d, In d docs ->
    incl (related_files (metadata d)) (related_files (metadata merged)).
Proof.
  intros F H d Hd f Hf.
  destruct (mergeDocuments_Ok _ _ _ _ _ _ _ F H) as [_ [_ [Hfiles _]]].
  rewrite Hfiles. apply mkSet_In. unfold flatMap. apply in_flat_map.
  exists d. now split.
Qed.

(** C3 at a failing input: merging id-1 (tag security) and id-2 (tag
    database) succeeds; the merged document has the related files of both
    sources, and tags that are generated anew from the prompt and the file
    paths, with neither source tag among them. *)
Theorem merge_drops_source_tags :
  let a := sampleDoc "id-1" ["src/a.ts"] ["security"] "Login" (Time 0) in
  let b := sampleDoc "id-2" ["src/b.ts"] ["database"] "Logout" (Time 0) in
  exists merged st',
    mergeDocuments sampleEnv 1000 "id-3" (storeOf [a; b]) [a; b] = (Ok merged, st')
    /\ related_files (metadata merged) = ["src/a.ts"; "src/b.ts"]
    /\ tags (metadata merged)
       = ["統合:"; "login,"; "logout"; "a.ts"; "a"; "b.ts"; "b"]
    /\ In "security" (tags (metadata a))
    /\ In "database" (tags (metadata b))
    /\ ~ In "security" (tags (metadata merged))
    /\ ~ In "database" (tags (metadata merged)).
Proof.
  cbv zeta. eexists. eexists. split; [vm_compute; reflexivity |].
  cbn [metadata tags related_files].
  split; [reflexivity |]. split; [reflexivity |].
  split; [now left |]. split; [now left |].
  split; intros H; simpl in H; intuition discriminate.
Qed.

(** ** Grouping *)

(** C2 at a failing input: four documents of which d0-d2, d1-d3 and d2-d3
    overlap by half of their files.  The pairs are found in the order
    (d0,d2), (d1,d3), (d2,d3); the first group takes in the third, the
    second is then kept as it is, and d3 is in both returned groups. *)
Theorem detected_groups_share_a_document :
  let d0 := sampleDoc "d0" ["x.ts"] ["t0"] "zero" (Time 0) in
  let d1 := sampleDoc "d1" ["z.ts"] ["t1"] "one" (Time 0) in
  let d2 := sampleDoc "d2" ["x.ts"; "y.ts"] ["t2"] "two" (Time 0) in
  let d3 := sampleDoc "d3" ["y.ts"; "z.ts"] ["t3"] "three" (Time 0) in
  let groups := detectSimilarDocuments unit noHits tt (85 # 100) [d0; d1; d2; d3] in
  map (fun g => docIds (documents g))
      (scanPairs unit noHits tt (85 # 100) [d0; d1; d2; d3])
  = [["d0"; "d2"]; ["d1"; "d3"]; ["d2"; "d3"]]
  /\ map (fun g => docIds (documents g)) groups
     = [["d0"; "d2"; "d3"]; ["d1"; "d3"]]
  /\ exists g1 g2,
       nth_error groups 0 = Some g1 /\ nth_error groups 1 = Some g2
       /\ In "d3" (docIds (documents g1)) /\ In "d3" (docIds (documents g2)).
Proof.
  cbv zeta. split; [vm_compute; reflexivity |]. split; [vm_compute; reflexivity |].
  eexists. eexists. split; [vm_compute; reflexivity |].
  split; [vm_compute; reflexivity |].
  split; simpl; intuition.
Qed.

(** Three documents chained by overlap, the first and the last sharing
    no file, come out as one group. *)
Example detected_chain_is_one_group :
  let doc1 := sampleDoc "doc1" ["a.ts"; "b.ts"] [] "one" (Time 0) in
  let doc2 := sampleDoc "doc2" ["b.ts"; "c.ts"] [] "two" (Time 0) in
  let doc3 := sampleDoc "doc3" ["c.ts"; "d.ts"] [] "three" (Time 0) in
  map (fun g => docIds (documents g))
      (detectSimilarDocuments unit noHits tt (85 # 100) [doc1; doc2; doc3])
  = [["doc1"; "doc2"; "doc3"]].
Proof.
  vm_compute. reflexivity.
Qed.

End MergedMetadata.

(** ** Integrity recovery *)

Section Recovery.

Import IntegrityChecker.

Variable LogFile : Type.
Variable appendFile : LogFile -> AuditLogEntry -> result LogFile.
Variable rotateIfNeeded : LogFile -> LogFile.

Lemma recoverLoop_bounds (now : Z) (issues : list IntegrityIssue) :
  forall (st : State LogFile) (k : nat),
    (k <= fst (recoverLoop LogFile appendFile rotateIfNeeded now st issues k)
     <= k + length issues)%nat.
Proof.
  induction issues as [| issue r IH]; intros st k; simpl.
  - lia.
  - destruct (fixIssue LogFile appendFile rotateIfNeeded now st issue) as [[u | e] st1].
    + specialize (IH st1 (S k)). lia.
    + specialize (IH st1 k). lia.
Qed.

(** C10, as amended: the loop of [recover] goes through every issue; an
    issue whose fix throws is not counted and the loop goes on with the
    state that fix left, an issue whose fix returns is counted.  After the
    loop [recover] writes one audit entry: if that write succeeds it
    returns total = number of issues and recovered <= total; if that
    write throws, [recover] throws the same error. *)
Theorem recover_spec (now : Z) (st : State LogFile) (issues : list IntegrityIssue) :
  let loop := recoverLoop LogFile appendFile rotateIfNeeded now in
  let fix1 := fixIssue LogFile appendFile rotateIfNeeded now in
  let recovered := fst (loop st issues 0%nat) in
  let st1 := snd (loop st issues 0%nat) in
  let result := mkRecoveryResult (length issues) recovered in
  let written := log LogFile appendFile rotateIfNeeded st1 (recoveryEntry now result) in
  (recovered <= length issues)%nat
  /\ (forall issue rest s k e s1,
        fix1 s issue = (Throw e, s1) -> loop s (issue :: rest) k = loop s1 rest k)
  /\ (forall issue rest s k u s1,
        fix1 s issue = (Ok u, s1) -> loop s (issue :: rest) k = loop s1 rest (S k))
  /\ (forall u s2,
        written = (Ok u, s2) ->
        recover LogFile appendFile rotateIfNeeded now st issues = (Ok result, s2))
  /\ (forall e s2,
        written = (Throw e, s2) ->
        recover LogFile appendFile rotateIfNeeded now st issues = (Throw e, s2))
  /\ (forall r s2,
        recover LogFile appendFile rotateIfNeeded now st issues = (Ok r, s2) ->
        r_total r = length issues /\ (r_recovered r <= r_total r)%nat).
Proof.
  intros loop fix1 recovered st1 result written.
  assert (Hb : (recovered <= length issues)%nat).
  { subst recovered loop.
    pose proof (recoverLoop_bounds now issues st 0). lia. }
  assert (Hr : recover LogFile appendFile rotateIfNeeded now st issues
               = match written with
                 | (Throw e, s2) => (Throw e, s2)
                 | (Ok _, s2) => (Ok result, s2)
                 end).
  { unfold recover. subst written result recovered st1 loop.
    destruct (recoverLoop LogFile appendFile rotateIfNeeded now st issues 0)
      as [n s]. reflexivity. }
  split; [exact Hb |].
  split; [intros issue rest s k e s1 H; subst loop fix1; simpl; now rewrite H |].
  split; [intros issue rest s k u s1 H; subst loop fix1; simpl; now rewrite H |].
  split; [intros u s2 H; now rewrite Hr, H |].
  split; [intros e s2 H; now rewrite Hr, H |].
  intros r s2 H. rewrite Hr in H.
  destruct written as [[u | e] s3]; [| discriminate].
  injection H as <- _. simpl. split; [reflexivity | exact Hb].
Qed.

End Recovery.

(** C10, as stated, fails: with an audit log that cannot be appended to,
    [recover] throws to its caller, even for an empty list of issues. *)
Lemma recover_raises_when_audit_fails :
  let appendFile :=
    fun (_ : list IntegrityChecker.AuditLogEntry) (_ : IntegrityChecker.AuditLogEntry) =>
      @Throw (list IntegrityChecker.AuditLogEntry) (Error "ENOSPC: no space left on device") in
  let st := IntegrityChecker.mkState (list IntegrityChecker.AuditLogEntry) [] [] in
  IntegrityChecker.recover _ appendFile (fun f => f) 1000 st []
  = (Throw (Error "ENOSPC: no space left on device"), st)
  /\ IntegrityChecker.recover _ appendFile (fun f => f) 1000 st
       [IntegrityChecker.mkIssue IntegrityChecker.incomplete_operation None (Some "merge")]
     = (Throw (Error "ENOSPC: no space left on device"), st).
Proof.
  cbv zeta. split; reflexivity.
Qed.

(** An audit log that rejects the entries of [completeOperation] only:
    the first of two issues fails and is caught, the second is fixed, and
    [recover] returns total 2, recovered 1 after writing two entries. *)
Example recover_continues_after_failure :
  let appendFile :=
    fun (f : list IntegrityChecker.AuditLogEntry) (e : IntegrityChecker.AuditLogEntry) =>
      if String.eqb (IntegrityChecker.e_action e) "complete_operation"
      then Throw (Error "EIO: i/o error")
      else Ok (f ++ [e]) in
  let m := metadata (Samples.sampleDoc "id-1" ["src/a.ts"] ["a"] "first" (Time 0)) in
  let st := IntegrityChecker.mkState (list IntegrityChecker.AuditLogEntry) [("id-1", m)] [] in
  let issues :=
    [IntegrityChecker.mkIssue IntegrityChecker.incomplete_operation None (Some "merge");
     IntegrityChecker.mkIssue IntegrityChecker.file_memory_mismatch (Some "id-1") None] in
  exists st',
    IntegrityChecker.recover _ appendFile (fun f => f) 1000 st issues
    = (Ok (IntegrityChecker.mkRecoveryResult 2 1), st')
    /\ map IntegrityChecker.e_action (IntegrityChecker.logFile _ st')
       = ["sync_file_to_memory"; "auto_recovery"].
Proof.
  cbv zeta. eexists. split; reflexivity.
Qed.

(** * Further properties *)

(** ** Sorting *)

Section Sorting.

Context {A : Type}.
Variable cmp : A -> A -> number.

Lemma insertBy_perm (x : A) (l : list A) : Permutation (insertBy cmp x l) (x :: l).
Proof.
  induction l as [| y r IH]; cbn [insertBy].
  - apply Permutation_refl.
  - destruct (ngt (cmp x y) (Num 0)).
    + apply Permutation_trans with (y :: x :: r).
      * now apply perm_skip.
      * apply perm_swap.
    + apply Permutation_refl.
Qed.

Lemma sortBy_perm (l : list A) : Permutation (sortBy cmp l) l.
Proof.
  induction l as [| x r IH]; simpl.
  - apply Permutation_refl.
  - apply Permutation_trans with (x :: sortBy cmp r).
    + apply insertBy_perm.
    + now apply perm_skip.
Qed.

Lemma sortBy_In (l : list A) (x : A) : In x (sortBy cmp l) <-> In x l.
Proof.
  split; apply Permutation_in.
  - apply sortBy_perm.
  - apply Permutation_sym, sortBy_perm.
Qed.

(** A comparator that subtracts keys sorts by descending key. *)
Variable key : A -> Q.

Lemma insertBy_sorted (x : A) (l : list A) :
  (forall y, In y l -> cmp x y = Num (key y - key x)) ->
  StronglySorted (fun a b => key b <= key a) l ->
  StronglySorted (fun a b => key b <= key a) (insertBy cmp x l).
Proof.
  intros Hc Hs. induction Hs as [| y r Hr IH Hy]; cbn [insertBy].
  - constructor; [constructor | constructor].
  - rewrite (Hc y (or_introl eq_refl)). unfold ngt, nlt.
    destruct (Qle_bool (key y - key x) 0) eqn:E; cbn [negb].
    + apply Qle_bool_iff in E.
      assert (Hxy : key y <= key x) by lra.
      constructor.
      * now constructor.
      * constructor; [exact Hxy |].
        rewrite Forall_forall in *. intros z Hz.
        specialize (Hy z Hz). lra.
    + assert (Hyx : key x <= key y).
      { destruct (Qlt_le_dec (key y) (key x)) as [Hlt | Hle]; [| exact Hle].
        assert (Hle : key y - key x <= 0) by lra.
        apply Qle_bool_iff in Hle. congruence. }
      constructor.
      * apply IH. intros z Hz. apply Hc. now right.
      * rewrite Forall_forall in *. intros z Hz.
        apply (Permutation_in _ (insertBy_perm x r)) in Hz.
        destruct Hz as [<- | Hz]; [exact Hyx | now apply Hy].
Qed.

Lemma sortBy_sorted (l : list A) :
  (forall x y, In x l -> In y l -> cmp x y = Num (key y - key x)) ->
  StronglySorted (fun a b => key b <= key a) (sortBy cmp l).
Proof.
  induction l as [| x r IH]; intros Hc; simpl.
  - constructor.
  - apply insertBy_sorted.
    + intros y Hy. apply (proj1 (sortBy_In r y)) in Hy. apply Hc; [now left | now right].
    + apply IH. intros a b Ha Hb. apply Hc; now right.
Qed.

End Sorting.

(** ** Searching the store *)

Section Searching.

Import DocumentManager Samples.

Lemma flat_map_if_singleton {A B : Type} (p : A -> bool) (f : A -> B) (l : list A) :
  flat_map (fun e => if p e then [f e] else []) l = map f (filter p l).
Proof.
  induction l as [| a r IH]; simpl; [reflexivity |].
  destruct (p a); simpl; now rewrite IH.
Qed.

Lemma searchDocuments_unsorted (st : Store) (query : SearchQuery) :
  searchDocuments st query
  = sortBy newerFirst
      (map asDocument
           (filter (fun e => visible (fst e)
                             && matchesQuery query (fst (snd e)) (snd (snd e)))
                   (docsDir st))).
Proof.
  unfold searchDocuments. f_equal.
  rewrite <- flat_map_if_singleton. apply flat_map_ext.
  intros [file [m c]]. reflexivity.
Qed.

Lemma searchDocuments_In (st : Store) (query : SearchQuery) (d : Document) :
  In d (searchDocuments st query)
  <-> (In (file_path d, (metadata d, content d)) (docsDir st)
       /\ visible (file_path d) = true
       /\ matchesQuery query (metadata d) (content d) = true).
Proof.
  rewrite searchDocuments_unsorted, sortBy_In, in_map_iff. split.
  - intros [[file [m c]] [<- H]]. apply filter_In in H. destruct H as [Hin Hp].
    apply andb_true_iff in Hp. simpl in *. tauto.
  - intros [Hin [Hv Hm]]. exists (file_path d, (metadata d, content d)). split.
    + destruct d; reflexivity.
    + apply filter_In. split; [exact Hin |]. simpl. now rewrite Hv, Hm.
Qed.


Lemma StronglySorted_weaken {A : Type} (R R' : A -> A -> Prop) (l : list A) :
  (forall a b, R a b -> R' a b) -> StronglySorted R l -> StronglySorted R' l.
Proof.
  intros H Hs. induction Hs as [| a r Hr IH Ha]; constructor.
  - exact IH.
  - rewrite Forall_forall in *. intros b Hb. apply H. now apply Ha.
Qed.

(** X2: when the creation time of every returned document parses, the
    result of [searchDocuments] is ordered newest first. *)
Theorem searchDocuments_newest_first (st : Store) (query : SearchQuery) :
  (forall d, In d (searchDocuments st query) ->
             exists ms, created (metadata d) = Time ms) ->
  StronglySorted (fun a b => (createdMs b <= createdMs a)%Z) (searchDocuments st query).
Proof.
  intros Hparse.
  apply StronglySorted_weaken
    with (R := fun a b => inject_Z (createdMs b) <= inject_Z (createdMs a)).
  { intros a b H. rewrite Zle_Qle. exact H. }
  assert (Hall : forall d, In d (searchDocuments st query) ->
                           created (metadata d) = Time (createdMs d)).
  { intros d Hd. destruct (Hparse d Hd) as [ms E]. unfold createdMs. now rewrite E. }
  rewrite searchDocuments_unsorted in *.
  apply sortBy_sorted with (key := fun d => inject_Z (createdMs d)).
  intros x y Hx Hy. unfold newerFirst.
  rewrite (Hall x), (Hall y) by (now apply sortBy_In). reflexivity.
Qed.

Lemma searchDocuments_newest_first_witness :
  let a := sampleDoc "id-1" ["src/a.ts"] ["a"] "first" (Time 100) in
  let b := sampleDoc "id-2" ["src/b.ts"] ["b"] "second" (Time 300) in
  let c := sampleDoc "id-3" ["src/c.ts"] ["c"] "third" (Time 200) in
  StronglySorted (fun x y => (createdMs y <= createdMs x)%Z)
                 (searchDocuments (storeOf [a; b; c]) (mkQuery None None))
  /\ map (fun d => id (metadata d)) (searchDocuments (storeOf [a; b; c]) (mkQuery None None))
     = ["id-2"; "id-3"; "id-1"].
Proof.
  intros a b c. split; [| reflexivity].
  apply (searchDocuments_newest_first (storeOf [a; b; c]) (mkQuery None None)).
  intros d Hd. vm_compute in Hd.
  destruct Hd as [<- | [<- | [<- | []]]]; eexists; reflexivity.
Defined.

(** ** Round trips through the store *)




End Searching.

Section StoreUpdates.

Import DocumentManager Samples.

Lemma names_functional (d : Dir) (n : string) (x x' : FileData) :
  NoDup (map fst d) -> In (n, x) d -> In (n, x') d -> x = x'.
Proof.
  induction d as [| [n0 x0] r IH]; intros Hnd H1 H2; [destruct H1 |].
  simpl in Hnd. inversion Hnd as [| ? ? Hnotin Hnd']. subst.
  destruct H1 as [H1 | H1], H2 as [H2 | H2].
  - congruence.
  - injection H1 as -> ->. exfalso. apply Hnotin.
    apply in_map_iff. exists (n, x'). now split.
  - injection H2 as -> ->. exfalso. apply Hnotin.
    apply in_map_iff. exists (n, x). now split.
  - now apply IH.
Qed.

Lemma find_filter_same {A : Type} (f g : A -> bool) (l : list A) :
  (forall e, In e l -> f e = true -> g e = true) ->
  find f (filter g l) = find f l.
Proof.
  induction l as [| a r IH]; intros H; simpl; [reflexivity |].
  destruct (g a) eqn:G; simpl.
  - destruct (f a); [reflexivity |]. apply IH. intros e He. apply H. now right.
  - destruct (f a) eqn:F.
    + rewrite (H a (or_introl eq_refl) F) in G. discriminate.
    + apply IH. intros e He. apply H. now right.
Qed.

(** Removing the file of one document leaves the lookup of every other id
    as it was. *)
Lemma getDocument_unlink_other (st : Store) (name : string) (x : FileData)
    (a : Dir) (other : string) :
  NoDup (map fst (docsDir st)) ->
  In (name, x) (docsDir st) -> id (fst x) <> other ->
  getDocument (mkStore (unlink (docsDir st) name) a) other = getDocument st other.
Proof.
  intros Hnd Hin Hne. unfold getDocument. cbn [docsDir]. unfold unlink.
  rewrite find_filter_same; [reflexivity |].
  intros [n y] He Hh. cbn [fst]. apply negb_true_iff. apply String.eqb_neq.
  intros ->. rewrite (names_functional _ _ _ _ Hnd He Hin) in Hh.
  unfold holds in Hh. apply andb_true_iff in Hh. destruct Hh as [_ Hh].
  apply String.eqb_eq in Hh. cbn [fst snd] in Hh. contradiction.
Qed.

Lemma getDocument_unlink_same (st : Store) (doc : Document) (a : Dir) (docId : string) :
  UniqueIds (docsDir st) -> getDocument st docId = Some doc ->
  getDocument (mkStore (unlink (docsDir st) (file_path doc)) a) docId = None.
Proof.
  intros U Hg. apply getDocument_Some in Hg. destruct Hg as [Hin [Hv Hid]].
  apply getDocument_None. intros n x Hx Hvx Hidx. cbn [docsDir] in Hx.
  apply in_unlink in Hx. destruct Hx as [Hx Hne]. apply Hne.
  apply (U n x (file_path doc) (metadata doc, content doc)); try assumption.
  cbn [fst]. congruence.
Qed.

(** X4: once [deleteDocument] has succeeded, in a directory whose file
    names and visible ids are unique, [getDocument] returns null for the
    deleted id and what it returned before for every other id; the archive
    is untouched. *)
Theorem deleteDocument_removes_exactly (st st' : Store) (docId : string) (u : unit) :
  UniqueIds (docsDir st) -> NoDup (map fst (docsDir st)) ->
  deleteDocument st docId = (Ok u, st') ->
  getDocument st' docId = None
  /\ (forall other, other <> docId -> getDocument st' other = getDocument st other)
  /\ archiveDir st' = archiveDir st.
Proof.
  intros U Hnd H. unfold deleteDocument in H.
  destruct (getDocument st docId) as [doc |] eqn:Hg; [| discriminate].
  injection H as _ <-. split; [| split].
  - now apply getDocument_unlink_same.
  - intros other Hne. apply getDocument_Some in Hg. destruct Hg as [Hin [_ Hid]].
    apply (getDocument_unlink_other st _ _ _ other Hnd Hin).
    cbn [fst]. congruence.
  - reflexivity.
Qed.

Lemma deleteDocument_removes_exactly_witness :
  let a := sampleDoc "id-1" ["src/a.ts"] ["a"] "first" (Time 0) in
  let b := sampleDoc "id-2" ["src/b.ts"] ["b"] "second" (Time 0) in
  let st' := snd (deleteDocument (storeOf [a; b]) "id-1") in
  getDocument st' "id-1" = None /\ getDocument st' "id-2" = Some b.
Proof.
  intros a b st'.
  assert (U : UniqueIds (docsDir (storeOf [a; b]))).
  { intros n1 x1 n2 x2 H1 H2 _ _ Hid. simpl in H1, H2.
    destruct H1 as [H1 | [H1 | []]], H2 as [H2 | [H2 | []]];
      injection H1 as <- <-; injection H2 as <- <-;
      try reflexivity; simpl in Hid; discriminate. }
  assert (N : NoDup (map fst (docsDir (storeOf [a; b])))).
  { simpl. repeat constructor; simpl; intuition discriminate. }
  destruct (deleteDocument_removes_exactly (storeOf [a; b]) st' "id-1" tt U N eq_refl)
    as [H1 [H2 _]].
  split; [exact H1 |]. rewrite H2 by discriminate. reflexivity.
Defined.

(** X5: once [archiveDocument] has succeeded, in a directory whose file
    names and visible ids are unique, the document is no longer returned
    by [getDocument] nor by any [searchDocuments]; its file, with the same
    metadata and body, is in the archive directory; and every other id is
    looked up as before. *)
Theorem archiveDocument_hides_and_keeps (st st' : Store) (docId : string) (u : unit) :
  UniqueIds (docsDir st) -> NoDup (map fst (docsDir st)) ->
  archiveDocument st docId = (Ok u, st') ->
  getDocument st' docId = None
  /\ (forall query d, In d (searchDocuments st' query) -> id (metadata d) <> docId)
  /\ (exists doc,
        getDocument st docId = Some doc
        /\ lookupFile (archiveDir st') (file_path doc) = Some (metadata doc, content doc))
  /\ (forall other, other <> docId -> getDocument st' other = getDocument st other).
Proof.
  intros U Hnd H. unfold archiveDocument in H.
  destruct (getDocument st docId) as [doc |] eqn:Hg; [| discriminate].
  injection H as _ <-.
  assert (Hnone : getDocument
                    (mkStore (unlink (docsDir st) (file_path doc))
                             (writeFile (archiveDir st) (file_path doc)
                                        (metadata doc, content doc))) docId = None)
    by now apply getDocument_unlink_same.
  split; [exact Hnone |]. split; [| split].
  - intros query d Hd Hid.
    apply searchDocuments_In in Hd. destruct Hd as [Hin [Hv _]].
    apply getDocument_None in Hnone. exact (Hnone _ _ Hin Hv Hid).
  - exists doc. split; [reflexivity |]. cbn [archiveDir]. apply lookup_writeFile_same.
  - intros other Hne. apply getDocument_Some in Hg. destruct Hg as [Hin [_ Hid]].
    apply (getDocument_unlink_other st _ _ _ other Hnd Hin).
    cbn [fst]. congruence.
Qed.

Lemma archiveDocument_hides_and_keeps_witness :
  let a := sampleDoc "id-1" ["src/a.ts"] ["a"] "first" (Time 0) in
  let b := sampleDoc "id-2" ["src/b.ts"] ["b"] "second" (Time 0) in
  let st' := snd (archiveDocument (storeOf [a; b]) "id-1") in
  getDocument st' "id-1" = None /\ getDocument st' "id-2" = Some b.
Proof.
  intros a b st'.
  assert (U : UniqueIds (docsDir (storeOf [a; b]))).
  { intros n1 x1 n2 x2 H1 H2 _ _ Hid. simpl in H1, H2.
    destruct H1 as [H1 | [H1 | []]], H2 as [H2 | [H2 | []]];
      injection H1 as <- <-; injection H2 as <- <-;
      try reflexivity; simpl in Hid; discriminate. }
  assert (N : NoDup (map fst (docsDir (storeOf [a; b])))).
  { simpl. repeat constructor; simpl; intuition discriminate. }
  destruct (archiveDocument_hides_and_keeps (storeOf [a; b]) st' "id-1" tt U N eq_refl)
    as [H1 [_ [_ H2]]].
  split; [exact H1 |]. rewrite H2 by discriminate. reflexivity.
Defined.

Lemma find_writeFile_found (d : Dir) (docId : string) (name : string)
    (old data : FileData) :
  NoDup (map fst d) ->
  find (holds docId) d = Some (name, old) ->
  holds docId (name, data) = true ->
  find (holds docId) (writeFile d name data) = Some (name, data).
Proof.
  induction d as [| [n0 x0] r IH]; intros Hnd Hf Hh; [discriminate |].
  simpl in Hnd. inversion Hnd as [| ? ? Hnotin Hnd']. subst.
  simpl in Hf. simpl. destruct (holds docId (n0, x0)) eqn:H0.
  - injection Hf as -> ->. rewrite String.eqb_refl. simpl. now rewrite Hh.
  - destruct (String.eqb n0 name) eqn:E.
    + apply String.eqb_eq in E. subst n0. exfalso. apply Hnotin.
      apply find_some in Hf. destruct Hf as [Hin _].
      apply in_map_iff. exists (name, old). now split.
    + simpl. rewrite H0. now apply IH.
Qed.

(** X6: [updateDocument] followed by [getDocument] on the same id returns
    the updated document, when file names are unique and the patch leaves
    the id alone. *)
Theorem updateDocument_then_getDocument (now : Z) (st : Store) (docId : string)
    (updates : MetadataPatch) (doc : Document) :
  NoDup (map fst (docsDir st)) ->
  getDocument st docId = Some doc ->
  (u_id updates = None \/ u_id updates = Some docId) ->
  exists doc' st',
    updateDocument now st docId updates = (Ok doc', st')
    /\ getDocument st' docId = Some doc'.
Proof.
  intros Hnd Hg Hid. unfold updateDocument. rewrite Hg.
  eexists. eexists. split; [reflexivity |].
  pose proof (getDocument_Some _ _ _ Hg) as [_ [Hv Hd]].
  unfold getDocument in *. cbn [docsDir].
  destruct (find (holds docId) (docsDir st)) as [[file [m c]] |] eqn:Hf; [| discriminate].
  injection Hg as <-. cbn [metadata content file_path] in *.
  erewrite find_writeFile_found; [reflexivity | exact Hnd | exact Hf |].
  unfold holds. cbn [fst snd]. rewrite Hv. cbn [andb].
  apply String.eqb_eq. cbn [id set_updated spread].
  destruct Hid as [-> | ->]; cbn [over]; [exact Hd | reflexivity].
Qed.

Lemma updateDocument_then_getDocument_witness :
  let a := sampleDoc "id-1" ["src/a.ts"] ["a"] "first" (Time 0) in
  exists doc' st',
    updateDocument 1000 (storeOf [a]) "id-1" emptyPatch = (Ok doc', st')
    /\ getDocument st' "id-1" = Some doc'.
Proof.
  intros a.
  apply (updateDocument_then_getDocument 1000 (storeOf [a]) "id-1" emptyPatch a).
  - simpl. repeat constructor. simpl. tauto.
  - reflexivity.
  - now left.
Defined.

End StoreUpdates.

(** ** Cleaning up old documents *)

Section Cleanup.

Import DocumentManager Samples.

Lemma getDocument_unique (d a : Dir) (f : string) (m : DocumentMetadata) (c : string) :
  UniqueIds d -> NoDup (map fst d) ->
  In (f, (m, c)) d -> visible f = true ->
  getDocument (mkStore d a) (id m) = Some (mkDocument m c f).
Proof.
  intros U Hnd Hin Hv.
  destruct (getDocument (mkStore d a) (id m)) as [doc |] eqn:Hg.
  - apply getDocument_Some in Hg. cbn [docsDir] in Hg. destruct Hg as [Hd [Hdv Hid]].
    assert (Hn : file_path doc = f).
    { apply (U _ (metadata doc, content doc) _ (m, c)); assumption. }
    destruct doc as [md cd fd]. cbn [file_path metadata content] in *. subst fd.
    pose proof (names_functional _ _ _ _ Hnd Hd Hin) as E. now injection E as -> ->.
  - apply getDocument_None in Hg. exfalso. exact (Hg f (m, c) Hin Hv eq_refl).
Qed.

Lemma lookupFile_middle (kept r : Dir) (f : string) (x : FileData) :
  NoDup (map fst (kept ++ (f, x) :: r)) ->
  lookupFile (kept ++ (f, x) :: r) f = Some x.
Proof.
  intros Hnd. unfold lookupFile.
  destruct (find (fun e => String.eqb (fst e) f) (kept ++ (f, x) :: r))
    as [[n y] |] eqn:E.
  - apply find_some in E. destruct E as [Hin He]. cbn [fst] in He.
    apply String.eqb_eq in He. subst n. cbn [snd]. f_equal.
    apply (names_functional _ _ _ _ Hnd Hin). apply in_or_app. right. now left.
  - exfalso.
    assert (Hin : In (f, x) (kept ++ (f, x) :: r)) by (apply in_or_app; right; now left).
    pose proof (find_none _ _ E _ Hin) as H. cbn [fst] in H.
    now rewrite String.eqb_refl in H.
Qed.

Lemma unlink_middle (kept r : Dir) (f : string) (x : FileData) :
  NoDup (map fst (kept ++ (f, x) :: r)) ->
  unlink (kept ++ (f, x) :: r) f = kept ++ r.
Proof.
  intros Hnd. unfold unlink. rewrite filter_app. cbn [filter fst].
  rewrite String.eqb_refl. cbn [negb].
  rewrite map_app in Hnd. cbn [map fst] in Hnd.
  pose proof (NoDup_remove_2 _ _ _ Hnd) as Hnotin.
  rewrite !filter_all; [reflexivity | |].
  - intros [n y] Hin. cbn [fst]. apply negb_true_iff, String.eqb_neq. intros ->.
    apply Hnotin. apply in_or_app. right. apply in_map_iff. exists (f, y). now split.
  - intros [n y] Hin. cbn [fst]. apply negb_true_iff, String.eqb_neq. intros ->.
    apply Hnotin. apply in_or_app. left. apply in_map_iff. exists (f, y). now split.
Qed.

Lemma UniqueIds_middle (kept r : Dir) (e : string * FileData) :
  UniqueIds (kept ++ e :: r) -> UniqueIds (kept ++ r).
Proof.
  intros U n1 x1 n2 x2 H1 H2. apply U.
  - apply in_app_or in H1. apply in_or_app. destruct H1; [now left | right; now right].
  - apply in_app_or in H2. apply in_or_app. destruct H2; [now left | right; now right].
Qed.

(** The archive after the expired entries have been moved into it. *)
Lemma cleanupLoop_run (threshold : number) (rem : Dir) :
  forall (kept arch : Dir) (count : nat),
    NoDup (map fst (kept ++ rem)) -> UniqueIds (kept ++ rem) ->
    cleanupLoop threshold (map fst rem) (mkStore (kept ++ rem) arch) count
    = (Ok (count + length (filter (expired threshold) rem))%nat,
       mkStore (kept ++ filter (fun e => negb (expired threshold e)) rem)
               (fold_left (fun a e => writeFile a (fst e) (snd e))
                          (filter (expired threshold) rem) arch)).
Proof.
  induction rem as [| [f [m c]] r IH]; intros kept arch count Hnd U.
  - cbn. now rewrite Nat.add_0_r.
  - assert (Hnd' : NoDup (map fst ((kept ++ [(f, (m, c))]) ++ r)))
      by now rewrite <- app_assoc.
    assert (U' : UniqueIds ((kept ++ [(f, (m, c))]) ++ r))
      by now rewrite <- app_assoc.
    assert (Ee : expired threshold (f, (m, c))
                 = visible f && nlt (getTime (created m)) threshold) by reflexivity.
    assert (Hskip : expired threshold (f, (m, c)) = false ->
              cleanupLoop threshold (map fst r)
                (mkStore (kept ++ (f, (m, c)) :: r) arch) count
              = (Ok (count + length (filter (expired threshold) ((f, (m, c)) :: r)))%nat,
                 mkStore
                   (kept ++ filter (fun e => negb (expired threshold e)) ((f, (m, c)) :: r))
                   (fold_left (fun a e => writeFile a (fst e) (snd e))
                              (filter (expired threshold) ((f, (m, c)) :: r)) arch))).
    { intros E. cbn [filter]. rewrite E. cbn [negb].
      replace (kept ++ (f, (m, c)) :: r) with ((kept ++ [(f, (m, c))]) ++ r)
        by now rewrite <- app_assoc.
      rewrite IH by assumption. now rewrite <- !app_assoc. }
    cbn [map fst cleanupLoop].
    destruct (visible f) eqn:V; cbn [negb].
    + cbn [docsDir]. rewrite (lookupFile_middle _ _ _ _ Hnd). cbn beta iota.
      destruct (nlt (getTime (created m)) threshold) eqn:O.
      * assert (Hg : getDocument (mkStore (kept ++ (f, (m, c)) :: r) arch) (id m)
                     = Some (mkDocument m c f)).
        { apply getDocument_unique; try assumption. apply in_or_app. right. now left. }
        pose proof (unlink_middle _ _ _ _ Hnd) as Hu.
        unfold archiveDocument. unfold FileData in *. rewrite Hg.
        cbn [docsDir archiveDir file_path metadata content].
        rewrite Hu. rewrite IH.
        -- cbn [filter]. rewrite Ee. cbn [negb andb length fold_left fst snd].
           f_equal. f_equal. lia.
        -- rewrite map_app in *. cbn [map fst] in Hnd.
           now apply NoDup_remove_1 in Hnd.
        -- now apply UniqueIds_middle in U.
      * apply Hskip. rewrite Ee. reflexivity.
    + apply Hskip. rewrite Ee. reflexivity.
Qed.

Lemma fold_writeFile_In (es : Dir) :
  forall (arch : Dir) (e : string * FileData),
    NoDup (map fst es) -> In e es ->
    In e (fold_left (fun a x => writeFile a (fst x) (snd x)) es arch).
Proof.
  assert (Hkeep : forall (l : Dir) (arch : Dir) (e : string * FileData),
             ~ In (fst e) (map fst l) -> In e arch ->
             In e (fold_left (fun a x => writeFile a (fst x) (snd x)) l arch)).
  { induction l as [| y l IHl]; intros arch e Hn Hin; cbn [fold_left]; [exact Hin |].
    apply IHl.
    - intro H. apply Hn. now right.
    - destruct e as [n x]. apply in_writeFile_other; [| exact Hin].
      intro E. apply Hn. left. cbn [fst] in *. now symmetry. }
  induction es as [| y r IH]; intros arch e Hnd Hin; [destruct Hin |].
  cbn [map] in Hnd. inversion Hnd as [| ? ? Hnotin Hnd']. subst.
  cbn [fold_left]. destruct Hin as [<- | Hin].
  - apply Hkeep; [exact Hnotin |]. destruct y as [n x]. apply in_writeFile_self.
  - now apply IH.
Qed.

(** X7: in a directory whose file names and visible ids are unique,
    [cleanupOldDocuments] does not throw; it returns the number of visible
    files created before the threshold, removes exactly those from the
    active directory and puts each of them into the archive.  Hidden files
    and files whose creation time does not parse stay. *)
Theorem cleanupOldDocuments_archives_expired (now : Z) (daysThreshold : Q) (st : Store) :
  UniqueIds (docsDir st) -> NoDup (map fst (docsDir st)) ->
  let threshold := Num (inject_Z now - daysThreshold * 24 * 60 * 60 * 1000) in
  exists st',
    cleanupOldDocuments now daysThreshold st
    = (Ok (length (filter (expired threshold) (docsDir st))), st')
    /\ docsDir st' = filter (fun e => negb (expired threshold e)) (docsDir st)
    /\ (forall e, In e (docsDir st) -> expired threshold e = true ->
                  In e (archiveDir st'))
    /\ (forall e, In e (docsDir st) ->
                  visible (fst e) = false \/ getTime (created (fst (snd e))) = NaN ->
                  In e (docsDir st')).
Proof.
  intros U Hnd threshold. unfold cleanupOldDocuments. fold threshold.
  destruct st as [docs arch]. cbn [docsDir archiveDir] in *.
  pose proof (cleanupLoop_run threshold docs [] arch 0 Hnd U) as H.
  cbn [app] in H. rewrite H. eexists. split; [reflexivity |].
  cbn [docsDir archiveDir]. split; [reflexivity |]. split.
  - intros e Hin He. apply fold_writeFile_In.
    + clear - Hnd. induction docs as [| y r IH]; cbn; [constructor |].
      cbn in Hnd. inversion Hnd as [| ? ? Hnotin Hnd']. subst.
      destruct (expired threshold y); [| now apply IH].
      cbn. constructor; [| now apply IH].
      intro Hc. apply Hnotin. apply in_map_iff in Hc. destruct Hc as [z [Hz Hzin]].
      apply filter_In in Hzin. apply in_map_iff. exists z. tauto.
    + apply filter_In. now split.
  - intros e Hin Hcase. apply filter_In. split; [exact Hin |].
    unfold expired. destruct Hcase as [-> | ->]; [reflexivity |].
    cbn [nlt]. now rewrite andb_false_r.
Qed.

Lemma cleanupOldDocuments_archives_expired_witness :
  let day := 86400000%Z in
  let a := sampleDoc "id-1" ["src/a.ts"] ["a"] "old" (Time 0) in
  let b := sampleDoc "id-2" ["src/b.ts"] ["b"] "recent" (Time (39 * day)) in
  let c := sampleDoc "id-3" ["src/c.ts"] ["c"] "no date" BadTime in
  let out := cleanupOldDocuments (40 * day) 30 (storeOf [a; b; c]) in
  fst out = Ok 1%nat
  /\ map fst (docsDir (snd out)) = ["id-2.md"; "id-3.md"]
  /\ map fst (archiveDir (snd out)) = ["id-1.md"].
Proof.
  intros day a b c out.
  assert (U : UniqueIds (docsDir (storeOf [a; b; c]))).
  { intros n1 x1 n2 x2 H1 H2 _ _ Hid. simpl in H1, H2.
    destruct H1 as [H1 | [H1 | [H1 | []]]], H2 as [H2 | [H2 | [H2 | []]]];
      injection H1 as <- <-; injection H2 as <- <-;
      try reflexivity; simpl in Hid; discriminate. }
  assert (N : NoDup (map fst (docsDir (storeOf [a; b; c])))).
  { simpl. repeat constructor; simpl; intuition discriminate. }
  destruct (cleanupOldDocuments_archives_expired (40 * day) 30 (storeOf [a; b; c]) U N)
    as [st' [E [Hd _]]].
  subst out. rewrite E. cbn [fst snd]. split; [reflexivity |].
  split; [rewrite Hd; reflexivity |].
  vm_compute in E. injection E as <-. reflexivity.
Defined.

End Cleanup.

(** ** Coalescing groups *)

Section Coalescing.

Import DocumentManager DocumentMerger Samples.

Lemma absorb_spec (docs : list Document) :
  forall (cur : list Document) (ids : list string),
    (exists extra,
        fst (absorb docs cur ids) = cur ++ extra
        /\ snd (absorb docs cur ids) = ids ++ docIds extra)
    /\ (forall d, In d docs -> In (id (metadata d)) (snd (absorb docs cur ids))).
Proof.
  induction docs as [| doc r IH]; intros cur ids.
  - split; [exists []; cbn; now rewrite !app_nil_r | intros d []].
  - cbn [absorb]. destruct (includes ids (id (metadata doc))) eqn:E.
    + destruct (IH cur ids) as [Hex Hall]. split; [exact Hex |].
      intros d [<- | Hd]; [| now apply Hall].
      destruct Hex as [extra [_ ->]]. apply in_or_app. left. now apply includes_In.
    + destruct (IH (cur ++ [doc]) (ids ++ [id (metadata doc)])) as [[extra [H1 H2]] Hall].
      split.
      * exists (doc :: extra). rewrite H1, H2. unfold docIds. cbn [map].
        now rewrite <- !app_assoc.
      * intros d [<- | Hd]; [| now apply Hall].
        rewrite H2. apply in_or_app. left. apply in_or_app. right. now left.
Qed.

Lemma mergeInto_spec (others : list DocumentGroup) :
  forall (j : nat) (cur : DocumentGroup) (ids : list string) (processed : list nat),
    let out := mergeInto j others cur ids processed in
    (exists extra,
        documents (fst (fst out)) = documents cur ++ extra
        /\ snd (fst out) = ids ++ docIds extra)
    /\ (forall k g, nth_error others k = Some g -> In (j + k)%nat (snd out) ->
                    In (j + k)%nat processed
                    \/ (forall d, In d (documents g) ->
                                  In (id (metadata d)) (snd (fst out)))).
Proof.
  induction others as [| g0 r IH]; intros j cur ids processed; cbn zeta.
  - split; [exists []; cbn; now rewrite !app_nil_r |].
    intros k g H. destruct k; discriminate.
  - cbn [mergeInto].
    destruct (existsb (Nat.eqb j) processed) eqn:P.
    + destruct (IH (S j) cur ids processed) as [Hex Hidx]. split; [exact Hex |].
      intros k g Hk Hin. destruct k as [| k].
      * left. rewrite Nat.add_0_r. apply existsb_exists in P.
        destruct P as [x [Hx Heq]]. apply Nat.eqb_eq in Heq. now subst.
      * cbn [nth_error] in Hk. replace (j + S k)%nat with (S j + k)%nat in * by lia.
        now apply Hidx.
    + destruct (existsb (fun d => includes ids (id (metadata d))) (documents g0)) eqn:C.
      * pose proof (absorb_spec (documents g0) (documents cur) ids) as [[ex [Hd Hi]] Hall].
        destruct (absorb (documents g0) (documents cur) ids) as [docs' ids'] eqn:EA.
        cbn [fst snd] in Hd, Hi, Hall.
        destruct (IH (S j)
                    (mkGroup (Qmax (similarity cur) (similarity g0)) docs' (reason cur))
                    ids' (j :: processed)) as [[ex2 [Hd2 Hi2]] Hidx].
        cbn [documents] in Hd2. split.
        -- exists (ex ++ ex2). rewrite Hd2, Hi2, Hd, Hi. unfold docIds.
           now rewrite map_app, <- !app_assoc.
        -- intros k g Hk Hin. destruct k as [| k].
           ++ right. cbn [nth_error] in Hk. injection Hk as <-.
              intros d Hdd. rewrite Hi2. apply in_or_app. left. now apply Hall.
           ++ cbn [nth_error] in Hk.
              replace (j + S k)%nat with (S j + k)%nat in * by lia.
              destruct (Hidx k g Hk Hin) as [[Hj | Hp] | Hc].
              ** lia.
              ** now left.
              ** now right.
      * destruct (IH (S j) cur ids processed) as [Hex Hidx]. split; [exact Hex |].
        intros k g Hk Hin. destruct k as [| k].
        -- exfalso. rewrite Nat.add_0_r in Hin.
           assert (Hmono : forall others' j' cur' ids' processed',
                      (j < j')%nat ->
                      In j (snd (mergeInto j' others' cur' ids' processed')) ->
                      In j processed').
           { clear. induction others' as [| o r' IHo]; intros j' cur' ids' processed' Hlt Hin;
               cbn [mergeInto] in Hin; [exact Hin |].
             destruct (existsb (Nat.eqb j') processed').
             - apply (IHo (S j')) in Hin; [exact Hin | lia].
             - destruct (existsb _ (documents o)).
               + destruct (absorb _ _ _) as [dd ii].
                 apply (IHo (S j')) in Hin; [| lia].
                 destruct Hin as [Hin | Hin]; [lia | exact Hin].
               + apply (IHo (S j')) in Hin; [exact Hin | lia]. }
           apply Hmono in Hin; [| lia].
           assert (Hp : existsb (Nat.eqb j) processed = true).
           { apply existsb_exists. exists j. split; [exact Hin | apply Nat.eqb_refl]. }
           congruence.
        -- cbn [nth_error] in Hk.
           replace (j + S k)%nat with (S j + k)%nat in * by lia.
           now apply Hidx.
Qed.

Lemma coveredBy_app (g : DocumentGroup) (out more : list DocumentGroup) :
  coveredBy g out -> coveredBy g (out ++ more).
Proof.
  intros H d Hd. destruct (H d Hd) as [g' [Hin Hid]].
  exists g'. split; [apply in_or_app; now left | exact Hid].
Qed.

Lemma coveredBy_incl (g : DocumentGroup) (out out' : list DocumentGroup) :
  (forall g', In g' out -> In g' out') -> coveredBy g out -> coveredBy g out'.
Proof.
  intros Hi H d Hd. destruct (H d Hd) as [g' [Hin Hid]].
  exists g'. split; [now apply Hi | exact Hid].
Qed.

Lemma mergeFrom_spec (rest : list DocumentGroup) :
  forall (i : nat) (processed : list nat) (merged : list DocumentGroup),
    (forall k g, nth_error rest k = Some g -> In (i + k)%nat processed ->
                 coveredBy g merged) ->
    (forall g, In g merged -> In g (mergeFrom i rest processed merged))
    /\ (forall g, In g rest -> coveredBy g (mergeFrom i rest processed merged))
    /\ (length (mergeFrom i rest processed merged) <= length merged + length rest)%nat.
Proof.
  induction rest as [| g0 r IH]; intros i processed merged Inv.
  - cbn. split; [auto |]. split; [intros g [] | lia].
  - cbn [mergeFrom].
    destruct (existsb (Nat.eqb i) processed) eqn:P.
    + assert (Inv' : forall k g, nth_error r k = Some g -> In (S i + k)%nat processed ->
                                 coveredBy g merged).
      { intros k g Hk Hin. apply (Inv (S k) g Hk).
        now replace (i + S k)%nat with (S i + k)%nat by lia. }
      destruct (IH (S i) processed merged Inv') as [Hm [Hc Hl]].
      split; [exact Hm |]. split; [| cbn [length]; lia].
      intros g [<- | Hg]; [| now apply Hc].
      apply (coveredBy_incl _ merged); [exact Hm |].
      apply (Inv 0%nat g0 eq_refl). rewrite Nat.add_0_r.
      apply existsb_exists in P. destruct P as [x [Hx Heq]].
      apply Nat.eqb_eq in Heq. now subst.
    + pose proof (mergeInto_spec r (S i) g0 (mkSet (docIds (documents g0))) processed)
        as Hspec.
      cbn zeta in Hspec.
      destruct (mergeInto (S i) r g0 (mkSet (docIds (documents g0))) processed)
        as [[cur ids'] processed'] eqn:EM.
      cbn [fst snd] in Hspec. destruct Hspec as [[extra [Hd Hi]] Hidx].
      assert (Hsync : forall x, In x ids' -> In x (docIds (documents cur))).
      { intros x Hx. rewrite Hi in Hx. rewrite Hd. unfold docIds. rewrite map_app.
        apply in_app_or in Hx. apply in_or_app.
        destruct Hx as [Hx | Hx];
          [left; apply (proj1 (mkSet_In _ _)) in Hx; exact Hx | right; exact Hx]. }
      assert (Inv' : forall k g, nth_error r k = Some g ->
                                 In (S i + k)%nat (i :: processed') ->
                                 coveredBy g (merged ++ [cur])).
      { intros k g Hk [Hin | Hin]; [lia |].
        destruct (Hidx k g Hk Hin) as [Hp | Hc].
        - apply coveredBy_app. apply (Inv (S k) g Hk).
          now replace (i + S k)%nat with (S i + k)%nat by lia.
        - intros d Hdd. exists cur. split; [apply in_or_app; right; now left |].
          apply Hsync. now apply Hc. }
      destruct (IH (S i) (i :: processed') (merged ++ [cur]) Inv') as [Hm [Hc Hl]].
      split; [| split].
      * intros g Hg. apply Hm. apply in_or_app. now left.
      * intros g [<- | Hg]; [| now apply Hc].
        intros d Hdd. exists cur. split.
        -- apply Hm. apply in_or_app. right. now left.
        -- rewrite Hd. unfold docIds. rewrite map_app. apply in_or_app. left.
           apply in_map_iff. exists d. now split.
      * rewrite length_app in Hl. cbn [length] in *. lia.
Qed.

(** X8: coalescing never loses a document and never makes more groups:
    the id of every document of every input group is in some returned
    group, and there are at most as many groups as before.  For
    [detectSimilarDocuments] this means that both documents of every
    candidate pair are in some returned group. *)
Theorem mergeGroups_covers (groups : list DocumentGroup) :
  (forall g, In g groups -> coveredBy g (mergeGroups groups))
  /\ (length (mergeGroups groups) <= length groups)%nat
  /\ (forall (VS : Type) (search : VS -> string -> nat -> result (list SearchResult))
             (vs : VS) (threshold : Q) (allDocs : list Document) (g : DocumentGroup),
        In g (scanPairs VS search vs threshold allDocs) ->
        coveredBy g (detectSimilarDocuments VS search vs threshold allDocs)).
Proof.
  assert (H : forall gs : list DocumentGroup,
             (forall g, In g gs -> coveredBy g (mergeGroups gs))
             /\ (length (mergeGroups gs) <= length gs)%nat).
  { intros gs. unfold mergeGroups. destruct (Nat.leb (length gs) 1).
    - split; [| lia]. intros g Hg d Hd. exists g. split; [exact Hg |].
      unfold docIds. apply in_map_iff. exists d. now split.
    - destruct (mergeFrom_spec gs 0 [] []) as [_ [Hc Hl]].
      + intros k g _ [].
      + split; [exact Hc | cbn [length] in Hl; lia]. }
  split; [apply H |]. split; [apply H |].
  intros VS search vs threshold allDocs g Hg. unfold detectSimilarDocuments.
  now apply H.
Qed.

End Coalescing.

(** ** Merging a second group that shares a document *)

Section OverlappingGroups.

Import DocumentManager DocumentMerger Samples.

Lemma mergeDocuments_entries (env : Env) (now : Z) (uuid : string) (st st1 : Store)
    (docs : list Document) (merged : Document) :
  mergeDocuments env now uuid st docs = (Ok merged, st1) ->
  forall n x, In (n, x) (docsDir st1) -> In (n, x) (docsDir st) \/ id (fst x) = uuid.
Proof.
  intros H n x Hin. unfold mergeDocuments in H.
  destruct (Nat.ltb (length docs) 2); [discriminate |].
  destruct docs as [| firstDoc rest]; [discriminate |].
  cbn [createMergedMetadata] in H.
  destruct (createDocument env now uuid st _) as [merged0 st1a] eqn:EC.
  unfold createDocument in EC. injection EC as <- <-.
  cbn [metadata content file_path] in H.
  match type of H with
  | context [updateDocument now ?s ?i ?p] =>
      destruct (updateDocument now s i p) as [[d2 | e] st2] eqn:EU; [| discriminate]
  end.
  injection H as <- <-.
  unfold updateDocument in EU.
  match type of EU with
  | context [getDocument ?s ?i] =>
      destruct (getDocument s i) as [found |] eqn:EG; [| discriminate]
  end.
  injection EU as _ <-. cbn [docsDir] in Hin.
  apply in_writeFile in Hin. destruct Hin as [[_ ->] | Hin]; [right; reflexivity |].
  apply in_writeFile in Hin. destruct Hin as [[_ ->] | Hin]; [right; reflexivity |].
  now left.
Qed.

Variable VS : Type.
Variable vsDeleteDocument : VS -> string -> result VS.
Variable vsAddDocument : VS -> DocumentVector -> result VS.

Lemma archiveSources_missing_throws (docs : list Document) :
  forall (vs : VS) (st : Store) (d : Document),
    In d docs -> FreshId (docsDir st) (id (metadata d)) ->
    exists e w, archiveSources VS vsDeleteDocument vs st docs = (Throw e, w).
Proof.
  induction docs as [| doc r IH]; intros vs st d Hd F; [destruct Hd |].
  cbn [archiveSources].
  destruct (archiveDocument st (id (metadata doc))) as [[u | e] st1] eqn:EA;
    [| eexists; eexists; reflexivity].
  destruct Hd as [<- | Hd].
  - exfalso. apply archiveDocument_Ok in EA. destruct EA as [found [Hg _]].
    apply getDocument_None in F. congruence.
  - destruct (vsDeleteDocument vs (id (metadata doc))) as [vs1 | e];
      [| eexists; eexists; reflexivity].
    apply (IH vs1 st1 d Hd).
    apply archiveDocument_Ok in EA. destruct EA as [found [_ [Hdocs _]]].
    intros n x Hin. rewrite Hdocs in Hin. apply in_unlink in Hin.
    apply F. tauto.
Qed.

(** X9: after one round of [executeMerge] has succeeded on a group, a
    round on any group that contains a document of the first one throws:
    the shared document is already archived and [archiveDocument] does not
    find it. *)
Theorem executeMergeGroup_shared_document_throws
    (env : Env) (now1 now2 : Z) (uuid1 uuid2 shared : string)
    (vs vs1 : VS) (st st1 : Store) (g1 g2 : DocumentGroup) (merged1 : Document) :
  UniqueIds (docsDir st) ->
  FreshId (docsDir st) uuid1 ->
  ~ In uuid1 (docIds (documents g1)) ->
  executeMergeGroup VS vsDeleteDocument vsAddDocument env now1 uuid1 vs st g1
  = (Ok merged1, (vs1, st1)) ->
  In shared (docIds (documents g1)) ->
  In shared (docIds (documents g2)) ->
  uuid2 <> shared ->
  exists e w,
    executeMergeGroup VS vsDeleteDocument vsAddDocument env now2 uuid2 vs1 st1 g2
    = (Throw e, w).
Proof.
  intros U F Hnew H1 Hs1 Hs2 Hneq.
  assert (Fshared : FreshId (docsDir st1) shared).
  { unfold executeMergeGroup in H1.
    destruct (mergeDocuments env now1 uuid1 st (documents g1))
      as [[m1 | e] sta] eqn:EM; [| discriminate].
    destruct (archiveSources VS vsDeleteDocument vs sta (documents g1))
      as [[u | e] [vs2 st2]] eqn:EA; [| discriminate].
    destruct (vsAddDocument vs2 _) as [vs3 | e]; [| discriminate].
    injection H1 as _ _ <-.
    destruct (mergeDocuments_Ok _ _ _ _ _ _ _ F EM) as [[name [data [Hdocs Hdata]]] _].
    assert (U1 : UniqueIds (docsDir sta)).
    { rewrite Hdocs. apply UniqueIds_writeFile; [exact U |]. now rewrite Hdata. }
    unfold docIds in Hs1. apply in_map_iff in Hs1. destruct Hs1 as [d1 [<- Hd1]].
    destruct (archiveSources_sources VS vsDeleteDocument _ _ _ _ _ _ U1 EA d1 Hd1)
      as [Hnone _].
    now apply getDocument_None. }
  unfold executeMergeGroup.
  destruct (mergeDocuments env now2 uuid2 st1 (documents g2))
    as [[m2 | e] stb] eqn:EM2; [| eexists; eexists; reflexivity].
  unfold docIds in Hs2. apply in_map_iff in Hs2. destruct Hs2 as [d2 [Hid2 Hd2]].
  destruct (archiveSources_missing_throws (documents g2) vs1 stb d2 Hd2) as [e [w E]].
  - intros n x Hin Hv. rewrite Hid2.
    destruct (mergeDocuments_entries _ _ _ _ _ _ _ EM2 n x Hin) as [Hold | Hid].
    + now apply (Fshared n x).
    + congruence.
  - rewrite E. eexists. eexists. reflexivity.
Qed.

End OverlappingGroups.

Lemma executeMergeGroup_shared_document_throws_witness :
  let d0 := Samples.sampleDoc "d0" ["x.ts"] ["t0"] "zero" (Time 0) in
  let d1 := Samples.sampleDoc "d1" ["z.ts"] ["t1"] "one" (Time 0) in
  let d2 := Samples.sampleDoc "d2" ["x.ts"; "y.ts"] ["t2"] "two" (Time 0) in
  let d3 := Samples.sampleDoc "d3" ["y.ts"; "z.ts"] ["t3"] "three" (Time 0) in
  let st := Samples.storeOf [d0; d1; d2; d3] in
  let g1 := DocumentMerger.mkGroup 0 [d0; d2; d3] DocumentMerger.file_overlap in
  let g2 := DocumentMerger.mkGroup 0 [d1; d3] DocumentMerger.file_overlap in
  let out1 :=
    DocumentMerger.executeMergeGroup unit Samples.vsOk Samples.vsAddOk
      Samples.sampleEnv 1000 "m1" tt st g1 in
  exists e w,
    DocumentMerger.executeMergeGroup unit Samples.vsOk Samples.vsAddOk
      Samples.sampleEnv 2000 "m2" tt (snd (snd out1)) g2 = (Throw e, w).
Proof.
  intros d0 d1 d2 d3 st g1 g2 out1.
  assert (E : exists merged st1, out1 = (Ok merged, (tt, st1))).
  { eexists. eexists. subst out1. vm_compute. reflexivity. }
  destruct E as [merged [st1 E]]. rewrite E. cbn [snd].
  apply (executeMergeGroup_shared_document_throws unit Samples.vsOk Samples.vsAddOk
           Samples.sampleEnv 1000 2000 "m1" "m2" "d3" tt tt st st1 g1 g2 merged).
  - intros n1 x1 n2 x2 H1 H2 _ _ Hid. simpl in H1, H2.
    destruct H1 as [H1 | [H1 | [H1 | [H1 | []]]]],
             H2 as [H2 | [H2 | [H2 | [H2 | []]]]];
      injection H1 as <- <-; injection H2 as <- <-;
      try reflexivity; simpl in Hid; discriminate.
  - intros n x H _. simpl in H.
    destruct H as [H | [H | [H | [H | []]]]]; injection H as <- <-; simpl; discriminate.
  - simpl. intros [H | [H | [H | []]]]; discriminate.
  - exact E.
  - simpl. tauto.
  - simpl. tauto.
  - discriminate.
Defined.

(** ** Bounds and symmetry of the similarity measures *)

Section SimilarityBounds.

Import MCPServer Samples.

Lemma of_nat_le (n m : nat) : (n <= m)%nat -> of_nat n <= of_nat m.
Proof.
  intros H. unfold of_nat. rewrite <- Zle_Qle. now apply Nat2Z.inj_le.
Qed.

Lemma of_nat_pos (n : nat) : (0 < n)%nat -> 0 < of_nat n.
Proof.
  intros H. unfold of_nat. change 0 with (inject_Z 0). rewrite <- Zlt_Qlt. lia.
Qed.

Lemma ratio_bounds (n d : nat) :
  (n <= d)%nat -> (0 < d)%nat -> 0 <= of_nat n / of_nat d <= 1.
Proof.
  intros Hle Hpos. pose proof (of_nat_pos d Hpos) as Hd.
  pose proof (of_nat_le n d Hle) as Hn.
  pose proof (of_nat_le 0 n (Nat.le_0_l n)) as H0. change (of_nat 0) with 0 in H0.
  split.
  - apply Qle_shift_div_l; [exact Hd | lra].
  - apply Qle_shift_div_r; [exact Hd | lra].
Qed.

Lemma mkSet_length_le (xs : list string) : (length (mkSet xs) <= length xs)%nat.
Proof.
  apply NoDup_incl_length; [apply mkSet_NoDup |].
  intros x Hx. now apply mkSet_In.
Qed.

Lemma filter_length_le {A : Type} (f : A -> bool) (l : list A) :
  (length (filter f l) <= length l)%nat.
Proof.
  induction l as [| a r IH]; simpl; [lia |]. destruct (f a); simpl; lia.
Qed.

Lemma intersection_size_le (xs ys : list string) :
  (intersection_size xs ys <= length xs)%nat.
Proof.
  unfold intersection_size.
  pose proof (filter_length_le (fun f => includes (mkSet ys) f) (mkSet xs)).
  pose proof (mkSet_length_le xs). lia.
Qed.

Lemma intersection_size_comm (xs ys : list string) :
  intersection_size xs ys = intersection_size ys xs.
Proof.
  unfold intersection_size. apply Permutation_length. apply NoDup_Permutation.
  - apply NoDup_filter, mkSet_NoDup.
  - apply NoDup_filter, mkSet_NoDup.
  - intros x. rewrite !filter_In, !includes_In. tauto.
Qed.

Lemma calculateFileOverlap_bounds (filesA filesB : list string) :
  0 <= calculateFileOverlap filesA filesB <= 1.
Proof.
  unfold calculateFileOverlap.
  destruct filesA as [| a ra]; [cbn; lra |].
  destruct filesB as [| b rb]; [cbn; lra |].
  cbn [length Nat.eqb orb]. apply ratio_bounds.
  - pose proof (intersection_size_le (a :: ra) (b :: rb)) as H. cbn [length] in H. lia.
  - lia.
Qed.

(** X10: the file overlap of two lists of paths does not depend on their
    order of comparison and lies between 0 and 1. *)
Theorem calculateFileOverlap_symmetric_bounded (filesA filesB : list string) :
  calculateFileOverlap filesA filesB = calculateFileOverlap filesB filesA
  /\ 0 <= calculateFileOverlap filesA filesB <= 1.
Proof.
  split.
  - unfold calculateFileOverlap.
    now rewrite orb_comm, intersection_size_comm, Nat.max_comm.
  - apply calculateFileOverlap_bounds.
Qed.

Lemma div_count_bounds (n d : nat) (q : Q) :
  (n <= d)%nat -> div_count n d = Num q -> 0 <= q <= 1.
Proof.
  intros Hle H. unfold div_count in H. destruct d as [| d]; [discriminate |].
  cbn [Nat.eqb] in H. injection H as <-. apply ratio_bounds; lia.
Qed.

(** X11: whenever the similarity of two documents is a number, it lies
    between 0 and 1. *)
Theorem similarity_bounded (newDoc doc : Document) (q : Q) :
  similarity newDoc doc = Num q -> 0 <= q <= 1.
Proof.
  unfold similarity. intros H.
  destruct (tagSimilarity (tags (metadata newDoc)) (tags (metadata doc)))
    as [t |] eqn:Et; [| discriminate].
  destruct (calculateKeywordSimilarity (summary (metadata newDoc)) (summary (metadata doc)))
    as [k |] eqn:Ek; [| discriminate].
  cbn [nadd nmul] in H. injection H as <-.
  pose proof (calculateFileOverlap_bounds
                (related_files (metadata newDoc)) (related_files (metadata doc))) as Hf.
  assert (Ht : 0 <= t <= 1).
  { unfold tagSimilarity in Et. apply (div_count_bounds _ _ _) in Et; [exact Et |].
    pose proof (filter_length_le (fun tag => includes (tags (metadata doc)) tag)
                                 (tags (metadata newDoc))). lia. }
  assert (Hk : 0 <= k <= 1).
  { unfold calculateKeywordSimilarity in Ek. cbv zeta in Ek.
    apply (div_count_bounds _ _ _) in Ek; [exact Ek |].
    pose proof (mkSet_length_le
                  (filter (fun w => includes (words (summary (metadata doc))) w)
                          (words (summary (metadata newDoc))))).
    pose proof (filter_length_le (fun w => includes (words (summary (metadata doc))) w)
                                 (words (summary (metadata newDoc)))). lia. }
  lra.
Qed.

Lemma similarity_bounded_witness :
  let a := sampleDoc "a" ["src/auth.ts"] ["auth"; "jwt"] "fix login" (Time 0) in
  let b := sampleDoc "b" ["src/auth.ts"; "src/db.ts"] ["auth"] "fix logout" (Time 0) in
  similarity a b = Num (4000 # 8000) /\ 0 <= 4000 # 8000 <= 1.
Proof.
  intros a b. split; [vm_compute; reflexivity |].
  apply (similarity_bounded a b). vm_compute. reflexivity.
Defined.

End SimilarityBounds.

(** ** Searching the memory cache *)

Section MemorySearch.

Import MCPServer Samples.

(** The order of doubles that are not NaN. *)
Lemma SFleb_total (x y : double) :
  x <> S754_nan -> y <> S754_nan -> SFltb x y = false -> SFleb y x = true.
Proof.
  intros Hx Hy. unfold SFltb, SFleb.
  destruct x as [sx | sx | | sx mx ex], y as [sy | sy | | sy my ey];
    try congruence; try destruct sx; try destruct sy; cbn [SFcompare];
    try reflexivity; try discriminate;
    intros H;
    repeat match goal with
    | H : context [Z.compare ?a ?b] |- _ => destruct (Z.compare_spec a b)
    | H : context [Pos.compare_cont Eq ?a ?b] |- _ =>
        change (Pos.compare_cont Eq a b) with (Pos.compare a b) in H;
        destruct (Pos.compare_spec a b)
    | |- context [Z.compare ?a ?b] => destruct (Z.compare_spec a b)
    | |- context [Pos.compare_cont Eq ?a ?b] =>
        change (Pos.compare_cont Eq a b) with (Pos.compare a b);
        destruct (Pos.compare_spec a b)
    end;
    cbn [CompOpp] in *; try reflexivity; try discriminate; subst; try lia.
Qed.

Lemma SFleb_trans (x y z : double) :
  SFleb x y = true -> SFleb y z = true -> SFleb x z = true.
Proof.
  unfold SFleb.
  destruct x as [sx | sx | | sx mx ex], y as [sy | sy | | sy my ey],
           z as [sz | sz | | sz mz ez];
    try destruct sx; try destruct sy; try destruct sz; cbn [SFcompare];
    try reflexivity; try discriminate;
    intros H1 H2;
    repeat match goal with
    | H : context [Z.compare ?a ?b] |- _ => destruct (Z.compare_spec a b)
    | H : context [Pos.compare_cont Eq ?a ?b] |- _ =>
        change (Pos.compare_cont Eq a b) with (Pos.compare a b) in H;
        destruct (Pos.compare_spec a b)
    | |- context [Z.compare ?a ?b] => destruct (Z.compare_spec a b)
    | |- context [Pos.compare_cont Eq ?a ?b] =>
        change (Pos.compare_cont Eq a b) with (Pos.compare a b);
        destruct (Pos.compare_spec a b)
    end;
    cbn [CompOpp] in *; try reflexivity; try discriminate; subst; try lia.
Qed.

Lemma SFltb_le (x y : double) : SFltb x y = true -> SFleb x y = true.
Proof.
  unfold SFltb, SFleb. destruct (SFcompare x y) as [[] |]; try discriminate; reflexivity.
Qed.

Lemma SFleb_not_nan (x y : double) :
  SFleb x y = true -> x <> S754_nan /\ y <> S754_nan.
Proof.
  unfold SFleb. destruct x, y; cbn [SFcompare]; try discriminate; split; discriminate.
Qed.

Lemma insert_desc_perm (x : Document * double) (l : list (Document * double)) :
  Permutation (Binary64.insert_desc x l) (x :: l).
Proof.
  induction l as [| y r IH]; cbn [Binary64.insert_desc].
  - apply Permutation_refl.
  - destruct (dgt (snd y) (snd x)).
    + apply Permutation_trans with (y :: x :: r); [now apply perm_skip | apply perm_swap].
    + apply Permutation_refl.
Qed.

Lemma sort_desc_perm (l : list (Document * double)) :
  Permutation (Binary64.sort_desc l) l.
Proof.
  induction l as [| x r IH]; cbn [Binary64.sort_desc fold_right].
  - apply Permutation_refl.
  - apply Permutation_trans with (x :: Binary64.sort_desc r);
      [apply insert_desc_perm | now apply perm_skip].
Qed.

Lemma insert_desc_sorted (x : Document * double) (l : list (Document * double)) :
  snd x <> S754_nan -> (forall y, In y l -> snd y <> S754_nan) ->
  StronglySorted (fun a b => dge (snd a) (snd b) = true) l ->
  StronglySorted (fun a b => dge (snd a) (snd b) = true) (Binary64.insert_desc x l).
Proof.
  intros Hx Hl Hs. induction Hs as [| y r Hr IH Hy]; cbn [Binary64.insert_desc].
  - constructor; constructor.
  - assert (Hny : snd y <> S754_nan) by (apply Hl; now left).
    unfold dgt. destruct (SFltb (snd x) (snd y)) eqn:E.
    + constructor; [apply IH; intros z Hz; apply Hl; now right |].
      rewrite Forall_forall in *. intros z Hz.
      apply (Permutation_in _ (insert_desc_perm x r)) in Hz.
      destruct Hz as [<- | Hz]; [| now apply Hy].
      unfold dge. now apply SFltb_le.
    + assert (Hxy : dge (snd x) (snd y) = true)
        by (unfold dge; now apply SFleb_total).
      constructor; [now constructor |]. constructor; [exact Hxy |].
      rewrite Forall_forall in *. intros z Hz. specialize (Hy z Hz).
      unfold dge in *. now apply (SFleb_trans _ (snd y)).
Qed.

Lemma sort_desc_sorted (l : list (Document * double)) :
  (forall y, In y l -> snd y <> S754_nan) ->
  StronglySorted (fun a b => dge (snd a) (snd b) = true) (Binary64.sort_desc l).
Proof.
  induction l as [| x r IH]; intros H; cbn [Binary64.sort_desc fold_right].
  - constructor.
  - apply insert_desc_sorted.
    + apply H. now left.
    + intros y Hy. apply (Permutation_in _ (sort_desc_perm r)) in Hy. apply H. now right.
    + apply IH. intros y Hy. apply H. now right.
Qed.

Lemma findSimilarInMemory_unsorted (documentCache : list (string * Document))
    (newDoc : Document) (threshold : double) (doc : Document) (s : double) :
  In (doc, s)
     (flat_map
        (fun entry : string * Document =>
           let '(key, doc) := entry in
           if String.eqb key (id (metadata newDoc)) then []
           else if dge (Binary64.similarity newDoc doc) threshold
                then [(doc, Binary64.similarity newDoc doc)] else [])
        documentCache)
  <-> exists key,
        In (key, doc) documentCache
        /\ key <> id (metadata newDoc)
        /\ Binary64.similarity newDoc doc = s
        /\ dge s threshold = true.
Proof.
  rewrite in_flat_map. split.
  - intros [[key d] [Hin H]].
    destruct (String.eqb key (id (metadata newDoc))) eqn:E; [destruct H |].
    destruct (dge (Binary64.similarity newDoc d) threshold) eqn:Et; [| destruct H].
    destruct H as [H | []]. injection H as <- <-.
    exists key. repeat split; try assumption. now apply String.eqb_neq.
  - intros [key [Hin [Hne [Hs Ht]]]]. exists (key, doc). split; [exact Hin |].
    apply String.eqb_neq in Hne. rewrite Hne, Hs, Ht. now left.
Qed.

(** X12: [findSimilarInMemory] returns exactly the cached documents,
    other than the one stored under the new document's id, whose
    similarity to the new document, computed in doubles, is at least the
    threshold (which a NaN similarity never is), each with that
    similarity, ordered by descending similarity. *)
Theorem findSimilarInMemory_results (documentCache : list (string * Document))
    (newDoc : Document) (threshold : double) :
  (forall doc s,
      In (doc, s) (Binary64.findSimilarInMemory documentCache newDoc threshold)
      <-> exists key,
            In (key, doc) documentCache
            /\ key <> id (metadata newDoc)
            /\ Binary64.similarity newDoc doc = s
            /\ dge s threshold = true)
  /\ StronglySorted (fun a b => dge (snd a) (snd b) = true)
                    (Binary64.findSimilarInMemory documentCache newDoc threshold).
Proof.
  unfold Binary64.findSimilarInMemory. split.
  - intros doc s. rewrite <- findSimilarInMemory_unsorted. split.
    + apply Permutation_in, sort_desc_perm.
    + apply Permutation_in, Permutation_sym, sort_desc_perm.
  - apply sort_desc_sorted. intros [doc s] H. cbn [snd].
    apply findSimilarInMemory_unsorted in H. destruct H as [key [_ [_ [_ H]]]].
    unfold dge in H. apply SFleb_not_nan in H. tauto.
Qed.

(** At the threshold 0.9 that [handleRecordImplementation] passes, a
    cached document with the same file, the same summary and one of two
    tags in common is not reported: its similarity is
    0.8999999999999999.  At 0.85 it is. *)
Lemma findSimilarInMemory_at_the_production_threshold :
  let a := sampleDoc "a" ["src/auth.ts"] ["auth"; "jwt"] "fix login" (Time 0) in
  let b := sampleDoc "b" ["src/auth.ts"] ["auth"; "oauth"] "fix login" (Time 0) in
  let cache := [("a", a); ("b", b)] in
  Binary64.findSimilarInMemory cache a (decimal 9 10) = []
  /\ Binary64.findSimilarInMemory cache a (decimal 85 100)
     = [(b, S754_finite false 8106479329266892 (-53))].
Proof.
  cbv zeta. split; vm_compute; reflexivity.
Qed.

Lemma firstn_incl {A : Type} (n : nat) (l : list A) (x : A) :
  In x (firstn n l) -> In x l.
Proof.
  intros H. rewrite <- (firstn_skipn n l). apply in_or_app. now left.
Qed.

Lemma StronglySorted_firstn {A : Type} (R : A -> A -> Prop) (n : nat) (l : list A) :
  StronglySorted R l -> StronglySorted R (firstn n l).
Proof.
  intros Hs. revert n. induction Hs as [| a r Hr IH Ha]; intros n.
  - rewrite firstn_nil. constructor.
  - destruct n as [| n]; cbn [firstn]; [constructor |].
    constructor; [apply IH |].
    rewrite Forall_forall in *. intros b Hb. apply Ha.
    apply (firstn_incl n r b Hb).
Qed.

Lemma StronglySorted_map_fst {A B : Type} (R : A * B -> A * B -> Prop)
    (R' : A -> A -> Prop) (l : list (A * B)) :
  (forall p q, In p l -> In q l -> R p q -> R' (fst p) (fst q)) ->
  StronglySorted R l -> StronglySorted R' (map fst l).
Proof.
  intros H Hs. induction Hs as [| a r Hr IH Ha]; cbn [map]; constructor.
  - apply IH. intros p q Hp Hq. apply H; now right.
  - rewrite Forall_forall in *. intros b Hb. apply in_map_iff in Hb.
    destruct Hb as [p [<- Hp]]. apply H; [now left | now right | now apply Ha].
Qed.

Lemma searchInMemory_scored (documentCache : list (string * Document))
    (queryLower : string) (p : Document * nat) :
  In p (flat_map (fun entry : string * Document =>
                    if Nat.ltb 0 (searchScore queryLower (snd entry))
                    then [(snd entry, searchScore queryLower (snd entry))] else [])
                 documentCache)
  <-> (exists key, In (key, fst p) documentCache)
      /\ snd p = searchScore queryLower (fst p) /\ (0 < snd p)%nat.
Proof.
  rewrite in_flat_map. split.
  - intros [[key d] [Hin H]]. cbn [snd] in H.
    destruct (Nat.ltb 0 (searchScore queryLower d)) eqn:E; [| destruct H].
    destruct H as [<- | []]. cbn [fst snd]. apply Nat.ltb_lt in E.
    split; [now exists key | now split].
  - intros [[key Hin] [Hs Hp]]. exists (key, fst p). split; [exact Hin |].
    cbn [snd]. rewrite <- Hs. apply Nat.ltb_lt in Hp. rewrite Hp.
    left. destruct p; cbn [fst snd] in *. now subst.
Qed.

(** X13: [searchInMemory] returns at most [limit] documents, each of them
    a cached document with a positive score, in order of descending
    score. *)
Theorem searchInMemory_results (documentCache : list (string * Document))
    (query : string) (limit : nat) :
  let score := searchScore (toLowerCase query) in
  (length (searchInMemory documentCache query limit) <= limit)%nat
  /\ (forall d, In d (searchInMemory documentCache query limit) ->
                (exists key, In (key, d) documentCache) /\ (0 < score d)%nat)
  /\ StronglySorted (fun a b => (score b <= score a)%nat)
                    (searchInMemory documentCache query limit).
Proof.
  intros score. unfold searchInMemory. cbv zeta. unfold slice0.
  split; [| split].
  - rewrite length_map. apply firstn_le_length.
  - intros d Hd. apply in_map_iff in Hd. destruct Hd as [p [<- Hp]].
    apply firstn_incl in Hp. apply sortBy_In in Hp.
    apply searchInMemory_scored in Hp. destruct Hp as [Hk [Hs Hpos]].
    split; [exact Hk |]. unfold score. now rewrite <- Hs.
  - apply StronglySorted_map_fst
      with (R := fun a b : Document * nat => of_nat (snd b) <= of_nat (snd a)).
    + intros p q Hp Hq H.
      apply firstn_incl in Hp, Hq. apply sortBy_In in Hp, Hq.
      apply searchInMemory_scored in Hp, Hq.
      destruct Hp as [_ [Hsp _]], Hq as [_ [Hsq _]].
      unfold score. rewrite <- Hsp, <- Hsq.
      unfold of_nat in H. rewrite <- Zle_Qle in H. lia.
    + apply StronglySorted_firstn.
      apply sortBy_sorted with (key := fun p : Document * nat => of_nat (snd p)).
      reflexivity.
Qed.

End MemorySearch.

Section EmptyQuery.

Import MCPServer Samples.

Lemma sortBy_unchanged {A : Type} (cmp : A -> A -> number) (l : list A) :
  (forall x y, In x l -> In y l -> ngt (cmp x y) (Num 0) = false) ->
  sortBy cmp l = l.
Proof.
  induction l as [| x r IH]; intros H; [reflexivity |].
  cbn [sortBy fold_right]. fold (sortBy cmp r).
  rewrite IH by (intros a b Ha Hb; apply H; now right).
  destruct r as [| y r']; [reflexivity |].
  cbn [insertBy]. now rewrite (H x y (or_introl eq_refl) (or_intror (or_introl eq_refl))).
Qed.

Lemma str_includes_empty (s : string) : str_includes s EmptyString = true.
Proof.
  destruct s; reflexivity.
Qed.

Lemma empty_includes (sub : string) :
  str_includes EmptyString sub = true -> sub = EmptyString.
Proof.
  destruct sub; [reflexivity | discriminate].
Qed.

Lemma utf8_cons (cp : N) : exists a s, utf8 cp = String a s.
Proof.
  unfold utf8. destruct (N.ltb cp 128); [eauto |].
  destruct (N.ltb cp 2048); [eauto |]. destruct (N.ltb cp 65536); eauto.
Qed.

Lemma utf8s_cons (cp : N) (cps : list N) (rest : string) :
  exists a s, (utf8s (cp :: cps) ++ rest)%string = String a s.
Proof.
  cbn [utf8s fold_right]. destruct (utf8_cons cp) as [a [s ->]]. cbn [append]. eauto.
Qed.

Lemma toLowerCase_empty (s : string) : toLowerCase s = EmptyString -> s = EmptyString.
Proof.
  destruct s as [| c r]; [reflexivity |]. unfold toLowerCase. cbn [lower_from].
  destruct (decode_at c r) as [cp k]. destruct (N.leb 1114112 cp); [discriminate |].
  cbv zeta. intros H. exfalso.
  assert (E : exists x l,
             (if N.eqb cp 931
              then if false && negb (cased_ahead r k) then [962%N] else [963%N]
              else lower_cp cp) = x :: l).
  { destruct (N.eqb cp 931); [cbn [andb]; eauto |].
    unfold lower_cp. destruct (N.eqb cp 304); eauto. }
  destruct E as [x [l E]]. rewrite E in H.
  destruct (utf8s_cons x l (lower_from r k (if case_ignorable cp then false else cased cp)))
    as [a [s' Es]].
  rewrite Es in H. discriminate H.
Qed.

Lemma fold_left_no_hit (l : list string) (n k : nat) :
  ~ In EmptyString l ->
  fold_left (fun score x =>
               if str_includes EmptyString (toLowerCase x) then (score + k)%nat else score)
            l n = n.
Proof.
  revert n. induction l as [| x r IH]; intros n H; [reflexivity |].
  cbn [fold_left].
  destruct (str_includes EmptyString (toLowerCase x)) eqn:E.
  - exfalso. apply H. left.
    apply toLowerCase_empty. now apply empty_includes.
  - apply IH. intro Hin. apply H. now right.
Qed.

(** X14: the empty query matches every cached document that has no empty
    tag and no empty related path: [searchInMemory] then returns the first
    [limit] documents of the cache, in cache order. *)
Theorem searchInMemory_empty_query (documentCache : list (string * Document))
    (limit : nat) :
  (forall key d, In (key, d) documentCache ->
                 ~ In EmptyString (tags (metadata d))
                 /\ ~ In EmptyString (related_files (metadata d))) ->
  searchInMemory documentCache EmptyString limit = firstn limit (map snd documentCache).
Proof.
  intros H. unfold searchInMemory. cbv zeta.
  change (toLowerCase EmptyString) with EmptyString. unfold slice0.
  assert (Hs : forall key d, In (key, d) documentCache ->
                             searchScore EmptyString d = 10%nat).
  { intros key d Hin. destruct (H key d Hin) as [Ht Hf].
    unfold searchScore. cbv zeta. rewrite str_includes_empty.
    now rewrite (fold_left_no_hit _ _ 5 Ht), (fold_left_no_hit _ _ 3 Hf). }
  assert (Hr : flat_map (fun entry : string * Document =>
                           if Nat.ltb 0 (searchScore EmptyString (snd entry))
                           then [(snd entry, searchScore EmptyString (snd entry))]
                           else [])
                        documentCache
               = map (fun entry => (snd entry, 10%nat)) documentCache).
  { clear H. induction documentCache as [| [key d] r IH]; [reflexivity |].
    cbn [flat_map map snd]. rewrite (Hs key d (or_introl eq_refl)). cbn [Nat.ltb Nat.leb app].
    f_equal. apply IH. intros k' d' Hin. apply (Hs k'). now right. }
  rewrite Hr. rewrite sortBy_unchanged.
  - rewrite <- firstn_map. now rewrite map_map.
  - intros x y Hx Hy. apply in_map_iff in Hx, Hy.
    destruct Hx as [ex [<- _]], Hy as [ey [<- _]]. reflexivity.
Qed.

Lemma searchInMemory_empty_query_witness :
  let a := sampleDoc "id-1" ["src/a.ts"] ["a"] "first" (Time 0) in
  let b := sampleDoc "id-2" ["src/b.ts"] ["b"] "second" (Time 0) in
  let c := sampleDoc "id-3" ["src/c.ts"] ["c"] "third" (Time 0) in
  searchInMemory [("id-1", a); ("id-2", b); ("id-3", c)] EmptyString 2 = [a; b].
Proof.
  intros a b c.
  apply (searchInMemory_empty_query [("id-1", a); ("id-2", b); ("id-3", c)] 2).
  intros key d Hin. simpl in Hin.
  destruct Hin as [Hin | [Hin | [Hin | []]]]; injection Hin as <- <-;
    simpl; split; intros [H | []]; discriminate.
Defined.

End EmptyQuery.

(** ** The project context *)

Section ProjectContextIndex.

Import MCPServer Samples.

Variable datePart : isotime -> string.

Lemma docsUnder_push (index : Index) (key key' : string) (doc : Document) :
  docsUnder (indexPush index key doc) key'
  = docsUnder index key' ++ (if String.eqb key key' then [doc] else []).
Proof.
  unfold docsUnder, indexGet. induction index as [| [k docs] r IH]; cbn [indexPush find fst].
  - destruct (String.eqb key key'); reflexivity.
  - destruct (String.eqb k key) eqn:E; cbn [find fst].
    + apply String.eqb_eq in E. subst k.
      destruct (String.eqb key key'); cbn [snd]; [reflexivity | now rewrite app_nil_r].
    + destruct (String.eqb k key') eqn:E'; cbn [snd]; [| exact IH].
      destruct (String.eqb key key') eqn:E''; [| now rewrite app_nil_r].
      apply String.eqb_eq in E', E''. subst. now rewrite String.eqb_refl in E.
Qed.

Lemma docsUnder_push_all (keys : list string) (doc : Document) :
  forall (index : Index) (key' : string),
    docsUnder (fold_left (fun m k => indexPush m k doc) keys index) key'
    = docsUnder index key' ++ repeat doc (count_occ string_dec keys key').
Proof.
  induction keys as [| k r IH]; intros index key'; cbn [fold_left count_occ].
  - cbn. now rewrite app_nil_r.
  - rewrite IH, docsUnder_push, <- app_assoc. f_equal.
    destruct (string_dec k key') as [-> | Hne].
    + now rewrite String.eqb_refl.
    + apply String.eqb_neq in Hne. now rewrite Hne.
Qed.

Lemma buildStep_fold (docs : list Document) :
  forall (d t f : Index) (key : string),
    let '(d', t', f') := fold_left (buildStep datePart) docs (d, t, f) in
    docsUnder d' key
    = docsUnder d key
      ++ filter (fun doc => String.eqb (datePart (created (metadata doc))) key) docs
    /\ docsUnder t' key
       = docsUnder t key
         ++ flat_map (fun doc => repeat doc (count_occ string_dec (tags (metadata doc)) key))
                     docs
    /\ docsUnder f' key
       = docsUnder f key
         ++ flat_map (fun doc =>
                        repeat doc (count_occ string_dec (related_files (metadata doc)) key))
                     docs.
Proof.
  induction docs as [| doc r IH]; intros d t f key.
  - cbn. now rewrite !app_nil_r.
  - cbn [fold_left buildStep].
    specialize (IH (indexPush d (datePart (created (metadata doc))) doc)
                   (fold_left (fun m tag => indexPush m tag doc) (tags (metadata doc)) t)
                   (fold_left (fun m file => indexPush m file doc)
                              (related_files (metadata doc)) f) key).
    destruct (fold_left (buildStep datePart) r _) as [[d' t'] f'].
    destruct IH as [Hd [Ht Hf]]. rewrite Hd, Ht, Hf.
    rewrite docsUnder_push, !docsUnder_push_all. cbn [filter flat_map].
    rewrite <- !app_assoc. repeat split.
    destruct (String.eqb (datePart (created (metadata doc))) key); reflexivity.
Qed.

(** X15: in the context [buildProjectContext] builds, the documents filed
    under a tag (a related file) are the documents that list it, in input
    order, each as often as it lists it; the documents filed under a date
    are those created on it; [allDocs] is the input. *)
Theorem buildProjectContext_lookup (docs : list Document) (key : string) :
  let ctx := buildProjectContext datePart docs in
  docsUnder (byTag ctx) key
  = flat_map (fun doc => repeat doc (count_occ string_dec (tags (metadata doc)) key)) docs
  /\ docsUnder (byFile ctx) key
     = flat_map (fun doc =>
                   repeat doc (count_occ string_dec (related_files (metadata doc)) key))
                docs
  /\ docsUnder (byDate ctx) key
     = filter (fun doc => String.eqb (datePart (created (metadata doc))) key) docs
  /\ allDocs ctx = docs.
Proof.
  cbv zeta. unfold buildProjectContext.
  pose proof (buildStep_fold docs [] [] [] key) as H. unfold Index in *.
  match type of H with
  | match ?x with _ => _ end => destruct x as [[d t] f]
  end. destruct H as [Hd [Ht Hf]]. cbn [byTag byFile byDate allDocs].
  rewrite Hd, Ht, Hf. repeat split.
Qed.

(** X16: adding a document to a built context with [updateProjectContext]
    gives the context [buildProjectContext] builds from the extended
    list; without a context nothing is added. *)
Theorem updateProjectContext_is_rebuild (docs : list Document) (doc : Document) :
  updateProjectContext datePart (Some (buildProjectContext datePart docs)) doc
  = Some (buildProjectContext datePart (docs ++ [doc]))
  /\ updateProjectContext datePart None doc = None.
Proof.
  split; [| reflexivity].
  unfold buildProjectContext. rewrite fold_left_app. cbn [fold_left].
  destruct (fold_left (buildStep datePart) docs ([], [], [])) as [[d t] f].
  reflexivity.
Qed.

End ProjectContextIndex.

(** ** The quality report *)

Section QualityReportProps.

Import QualityManager Samples.

Variable toFixed : number -> nat -> string.

Lemma msPerDay_pos : 0 < msPerDay.
Proof. reflexivity. Qed.

Lemma freshness_of_time (now t : Z) (doc : Document) :
  created (metadata doc) = Time t ->
  freshness (calculateQualityScore now doc)
  = Num (Qmax 0 (100 - (inject_Z now - inject_Z t) / msPerDay)).
Proof.
  intros H. unfold calculateQualityScore. cbn [freshness].
  unfold ageInDays. rewrite H. reflexivity.
Qed.

Lemma freshness_unparsed (now : Z) (doc : Document) :
  (forall t, created (metadata doc) <> Time t) ->
  freshness (calculateQualityScore now doc) = NaN.
Proof.
  intros H. unfold calculateQualityScore. cbn [freshness]. unfold ageInDays.
  destruct (created (metadata doc)) as [| | t]; try reflexivity.
  now contradiction (H t).
Qed.

Lemma completeness_value (now : Z) (doc : Document) :
  completeness (calculateQualityScore now doc)
  == (if Nat.ltb 10 (str_length (summary (metadata doc))) then 40 else 0)
     + (match tags (metadata doc) with [] => 0 | _ => 30 end)
     + (match related_files (metadata doc) with [] => 0 | _ => 30 end).
Proof.
  unfold calculateQualityScore. cbn [completeness].
  destruct (Nat.ltb 10 _); destruct (tags (metadata doc));
    destruct (related_files (metadata doc)); cbn [length Nat.ltb Nat.leb]; ring.
Qed.

Lemma docIssues_stale_iff (now : Z) (doc : Document) :
  (exists i, In i (docIssues toFixed now doc) /\ i_type i = stale)
  <-> exists t, created (metadata doc) = Time t
               /\ 50 < (inject_Z now - inject_Z t) / msPerDay.
Proof.
  unfold docIssues. cbv zeta. split.
  - intros [i [Hin Ht]]. apply in_app_or in Hin. destruct Hin as [Hin | Hin].
    + destruct (created (metadata doc)) as [| | t] eqn:Ec.
      * rewrite freshness_unparsed in Hin by (rewrite Ec; discriminate). destruct Hin.
      * rewrite freshness_unparsed in Hin by (rewrite Ec; discriminate). destruct Hin.
      * exists t. split; [reflexivity |].
        rewrite (freshness_of_time now t doc Ec) in Hin. cbn [nlt] in Hin.
        destruct (Qle_bool 50 _) eqn:E; [destruct Hin |].
        destruct (Qlt_le_dec 50 ((inject_Z now - inject_Z t) / msPerDay))
          as [Hlt | Hle]; [exact Hlt |].
        exfalso.
        assert (H50 : 50 <= Qmax 0 (100 - (inject_Z now - inject_Z t) / msPerDay)).
        { apply Qle_trans with (100 - (inject_Z now - inject_Z t) / msPerDay);
            [lra | apply Q.le_max_r]. }
        apply Qle_bool_iff in H50. congruence.
    + destruct (negb _); [| destruct Hin].
      destruct Hin as [<- | []]. discriminate.
  - intros [t [Ec Hage]]. rewrite (freshness_of_time now t doc Ec). cbn [nlt].
    assert (E : Qle_bool 50 (Qmax 0 (100 - (inject_Z now - inject_Z t) / msPerDay))
               = false).
    { destruct (Qle_bool 50 _) eqn:E; [| reflexivity].
      apply Qle_bool_iff in E. exfalso.
      assert (Hm : Qmax 0 (100 - (inject_Z now - inject_Z t) / msPerDay) < 50).
      { apply Q.max_lub_lt; lra. }
      lra. }
    rewrite E. cbn [negb]. eexists. split; [apply in_or_app; left; now left |].
    reflexivity.
Qed.

(** X17: the quality check reports a document as stale exactly when its
    creation time parses and lies more than 50 days back (a document whose
    creation time does not parse is never stale), and as incomplete
    exactly when at most one of these holds: the summary has more than
    10 UTF-16 code units, there is a tag, there is a related file.  Every
    issue carries the id of the document. *)
Theorem docIssues_characterised (now : Z) (doc : Document) :
  let has := fun k => exists i, In i (docIssues toFixed now doc) /\ i_type i = k in
  (has stale
   <-> exists t, created (metadata doc) = Time t
                 /\ 50 < (inject_Z now - inject_Z t) / msPerDay)
  /\ (has incomplete
      <-> (Nat.b2n (Nat.ltb 10 (str_length (summary (metadata doc))))
           + Nat.b2n (Nat.ltb 0 (length (tags (metadata doc))))
           + Nat.b2n (Nat.ltb 0 (length (related_files (metadata doc)))) <= 1)%nat)
  /\ (forall i, In i (docIssues toFixed now doc) -> i_docId i = id (metadata doc)).
Proof.
  cbv zeta. split; [apply docIssues_stale_iff |].
  unfold docIssues. cbv zeta. split.
  - pose proof (completeness_value now doc) as Hc.
    split.
    + intros [i [Hin Ht]]. apply in_app_or in Hin. destruct Hin as [Hin | Hin].
      * destruct (nlt _ _); [| destruct Hin]. destruct Hin as [<- | []]. discriminate.
      * destruct (Qle_bool 60 (completeness (calculateQualityScore now doc))) eqn:E;
          [destruct Hin |].
        destruct (Nat.ltb 10 _); destruct (tags (metadata doc));
          destruct (related_files (metadata doc)); cbn; try lia; exfalso;
          (assert (H60 : 60 <= completeness (calculateQualityScore now doc))
            by (rewrite Hc; discriminate));
          apply Qle_bool_iff in H60; congruence.
    + intros Hle.
      assert (E : Qle_bool 60 (completeness (calculateQualityScore now doc)) = false).
      { destruct (Qle_bool 60 _) eqn:E; [| reflexivity].
        apply Qle_bool_iff in E. rewrite Hc in E. exfalso.
        destruct (Nat.ltb 10 _); destruct (tags (metadata doc));
          destruct (related_files (metadata doc)); cbn in Hle; try lia;
          revert E; cbn; unfold Qle; cbn; lia. }
      rewrite E. cbn [negb]. eexists. split; [apply in_or_app; right; now left |].
      reflexivity.
  - intros i Hin. apply in_app_or in Hin.
    destruct Hin as [Hin | Hin];
      [destruct (nlt _ _) | destruct (negb _)]; try destruct Hin as [<- | []];
      try reflexivity; destruct Hin.
Qed.

(** X18: for a document whose creation time parses and is not in the
    future, freshness and completeness lie between 0 and 100, and so does
    the total when the reference count is absent or between 0 and 100; a
    document dated in the future has a freshness above 100. *)
Theorem quality_score_bounds (now t : Z) (doc : Document) :
  created (metadata doc) = Time t ->
  let s := calculateQualityScore now doc in
  0 <= completeness s <= 100
  /\ ((t <= now)%Z ->
      exists f, freshness s = Num f /\ 0 <= f <= 100
                /\ (0 <= references s <= 100 ->
                    exists tot, total s = Num tot /\ 0 <= tot <= 100))
  /\ ((now < t)%Z -> exists f, freshness s = Num f /\ 100 < f).
Proof.
  intros Hc s.
  assert (Hcomp : 0 <= completeness s <= 100).
  { subst s. rewrite completeness_value.
    destruct (Nat.ltb 10 _); destruct (tags (metadata doc));
      destruct (related_files (metadata doc)); split; discriminate. }
  pose proof (freshness_of_time now t doc Hc) as Hf. fold s in Hf.
  pose proof msPerDay_pos as Hd.
  split; [exact Hcomp |]. split.
  - intros Hle. eexists. split; [exact Hf |].
    assert (Hage : 0 <= (inject_Z now - inject_Z t) / msPerDay).
    { apply Qle_shift_div_l; [exact Hd |].
      rewrite Zle_Qle in Hle. lra. }
    assert (Hfb : 0 <= Qmax 0 (100 - (inject_Z now - inject_Z t) / msPerDay) <= 100).
    { split; [apply Q.le_max_l | apply Q.max_lub; lra]. }
    split; [exact Hfb |].
    intros Hr.
    assert (E : total s
                = nadd (nadd (nmul (freshness s) (Num (4 # 10)))
                             (nmul (Num (completeness s)) (Num (4 # 10))))
                       (nmul (Num (references s)) (Num (2 # 10)))) by reflexivity.
    rewrite Hf in E. cbn [nadd nmul] in E. eexists. split; [exact E |]. lra.
  - intros Hlt. eexists. split; [exact Hf |].
    assert (Hage : (inject_Z now - inject_Z t) / msPerDay < 0).
    { apply Qlt_shift_div_r; [exact Hd |].
      rewrite Zlt_Qlt in Hlt. lra. }
    apply Qlt_le_trans with (100 - (inject_Z now - inject_Z t) / msPerDay);
      [lra | apply Q.le_max_r].
Qed.

Lemma quality_score_bounds_witness :
  let doc := sampleDoc "d" ["src/a.ts"] ["a"] "A summary of some length" (Time 0) in
  0 <= completeness (calculateQualityScore (10 * 86400000) doc) <= 100.
Proof.
  intros doc.
  apply (quality_score_bounds (10 * 86400000) 0 doc eq_refl).
Defined.

End QualityReportProps.

(** ** Contradictions *)

Section Contradictions.

Import MCPServer QualityManager Samples.

Lemma indexPush_keys (index : Index) (key : string) (doc : Document) :
  NoDup (map fst index) -> NoDup (map fst (indexPush index key doc)).
Proof.
  induction index as [| [k docs] r IH]; intros H; cbn [indexPush].
  - cbn. constructor; [intros [] | constructor].
  - cbn [map fst] in H. inversion H as [| ? ? Hnotin Hnd]. subst.
    destruct (String.eqb k key) eqn:E; cbn [map fst].
    + now constructor.
    + constructor; [| now apply IH].
      intro Hin. apply Hnotin. clear - Hin E.
      induction r as [| [k' d'] r IHr]; cbn [indexPush map fst] in *.
      * destruct Hin as [Hin | []]. subst. now rewrite String.eqb_refl in E.
      * destruct (String.eqb k' key) eqn:E'; cbn [map fst] in *; [exact Hin |].
        destruct Hin as [Hin | Hin]; [now left | right; now apply IHr].
Qed.

Lemma fileMapOf_keys (docs : list Document) : NoDup (map fst (fileMapOf docs)).
Proof.
  unfold fileMapOf.
  assert (H : forall (l : list Document) (index : Index),
             NoDup (map fst index) ->
             NoDup (map fst
                      (fold_left
                         (fun fileMap doc =>
                            fold_left (fun m file => indexPush m file doc)
                                      (related_files (metadata doc)) fileMap)
                         l index))).
  { induction l as [| doc r IH]; intros index Hnd; cbn [fold_left]; [exact Hnd |].
    apply IH. generalize (related_files (metadata doc)). intros fs.
    revert index Hnd. induction fs as [| f fs IHf]; intros index Hnd; cbn [fold_left];
      [exact Hnd |].
    apply IHf. now apply indexPush_keys. }
  apply H. constructor.
Qed.

Lemma In_indexGet (index : Index) (key : string) (docs : list Document) :
  NoDup (map fst index) -> In (key, docs) index -> indexGet index key = Some docs.
Proof.
  unfold indexGet. induction index as [| [k l] r IH]; intros Hnd Hin; [destruct Hin |].
  cbn [map fst] in Hnd. inversion Hnd as [| ? ? Hnotin Hnd']. subst.
  cbn [find fst]. destruct Hin as [Hin | Hin].
  - injection Hin as -> ->. now rewrite String.eqb_refl.
  - destruct (String.eqb k key) eqn:E; [| now apply IH].
    apply String.eqb_eq in E. subst k. exfalso. apply Hnotin.
    apply in_map_iff. exists (key, docs). now split.
Qed.

Lemma indexGet_In (index : Index) (key : string) (docs : list Document) :
  indexGet index key = Some docs -> In (key, docs) index.
Proof.
  unfold indexGet.
  destruct (find (fun e => String.eqb (fst e) key) index) as [[k l] |] eqn:E;
    [| discriminate].
  intros H. injection H as <-. apply find_some in E. destruct E as [Hin He].
  apply String.eqb_eq in He. cbn [fst] in He. now subst.
Qed.

Lemma docsUnder_fileMapOf (docs : list Document) (file : string) :
  docsUnder (fileMapOf docs) file
  = flat_map (fun doc => repeat doc (count_occ string_dec (related_files (metadata doc)) file))
             docs.
Proof.
  unfold fileMapOf.
  assert (H : forall (l : list Document) (index : Index),
             docsUnder
               (fold_left
                  (fun fileMap doc =>
                     fold_left (fun m f => indexPush m f doc)
                               (related_files (metadata doc)) fileMap)
                  l index) file
             = docsUnder index file
               ++ flat_map (fun doc =>
                              repeat doc (count_occ string_dec
                                                    (related_files (metadata doc)) file))
                           l).
  { induction l as [| doc r IH]; intros index; cbn [fold_left flat_map].
    - now rewrite app_nil_r.
    - rewrite IH, docsUnder_push_all. now rewrite <- app_assoc. }
  apply H.
Qed.

(** X19: [detectContradictions] reports a file exactly when the documents
    list it at least twice in total (a document that lists one file twice
    is enough); the reported ids are those of the listing documents in
    input order, each as often as it lists the file. *)
Theorem detectContradictions_characterised (docs : list Document) (c : Contradiction) :
  In c (detectContradictions docs)
  <-> exists file,
        let listing :=
          flat_map (fun doc =>
                      repeat doc (count_occ string_dec (related_files (metadata doc)) file))
                   docs in
        (2 <= length listing)%nat
        /\ c = mkContradiction (map (fun d => id (metadata d)) listing)
                 ("Multiple implementation records found for " ++ file) [file].
Proof.
  unfold detectContradictions. rewrite in_flat_map. split.
  - intros [[file l] [Hin H]].
    destruct (Nat.ltb 1 (length l)) eqn:E; [| destruct H].
    destruct H as [<- | []]. apply Nat.ltb_lt in E.
    apply (In_indexGet _ _ _ (fileMapOf_keys docs)) in Hin.
    pose proof (docsUnder_fileMapOf docs file) as Hd.
    unfold docsUnder in Hd. rewrite Hin in Hd.
    exists file. cbv zeta. rewrite <- Hd. split; [lia | reflexivity].
  - intros [file [Hlen ->]].
    pose proof (docsUnder_fileMapOf docs file) as Hd.
    rewrite <- Hd in *. unfold docsUnder in *.
    destruct (indexGet (fileMapOf docs) file) as [l |] eqn:Eg;
      [| cbn [length] in Hlen; lia].
    exists (file, l). split; [now apply indexGet_In |].
    apply Nat.ltb_lt in Hlen. rewrite Hlen. now left.
Qed.

End Contradictions.

(** ** Integrity checks and repairs *)

Section IntegrityRepairs.

Import IntegrityChecker Samples.

Variable LogFile : Type.
Variable appendFile : LogFile -> AuditLogEntry -> result LogFile.
Variable rotateIfNeeded : LogFile -> LogFile.

Lemma repair_valid (now : Z) (m : DocumentMetadata) :
  test uuidV4Regex (id m) = true ->
  created m <> BadTime -> updated m <> BadTime ->
  validateMetadata (fst (repair now m)) = true.
Proof.
  intros Hid Hc Hu. unfold validateMetadata, repair. cbn [fst id created updated author summary].
  rewrite Hid. cbn [negb].
  assert (Hne : String.eqb (id m) EmptyString = false).
  { destruct (id m); [discriminate Hid | reflexivity]. }
  rewrite Hne.
  destruct (created m) as [| | tc]; [| contradiction |];
    destruct (updated m) as [| | tu]; try contradiction; cbn [truthy parses negb];
    destruct (author m) as [a | l]; try destruct (String.eqb a EmptyString) eqn:Ea;
    try rewrite Ea; destruct (String.eqb (summary m) EmptyString) eqn:Es;
    try rewrite Es; reflexivity.
Qed.

Lemma repair_unfixed (now : Z) (m : DocumentMetadata) :
  snd (repair now m) = false -> fst (repair now m) = m.
Proof.
  unfold repair. cbn [fst snd]. intros H.
  apply orb_false_iff in H. destruct H as [H Hs].
  apply orb_false_iff in H. destruct H as [H Ha].
  apply orb_false_iff in H. destruct H as [Hc Hu].
  apply negb_false_iff in Hc, Hu. rewrite Hc, Hu, Hs.
  destruct m as [i c u a]. cbn [author] in *.
  destruct a as [s | l]; [cbn in Ha; rewrite Ha |]; reflexivity.
Qed.

(** X20: the repairs of [fixMetadata] are idempotent: repairing repaired
    metadata changes nothing and reports nothing fixed. *)
Theorem repair_idempotent (now now' : Z) (m : DocumentMetadata) :
  repair now' (fst (repair now m)) = (fst (repair now m), false).
Proof.
  assert (H : snd (repair now' (fst (repair now m))) = false).
  { unfold repair. cbn [fst snd created updated author summary].
    destruct (created m), (updated m); cbn [truthy negb orb];
      destruct (author m) as [a | l]; try destruct (String.eqb a EmptyString) eqn:Ea;
      try rewrite Ea; destruct (String.eqb (summary m) EmptyString) eqn:Es;
      try rewrite Es; reflexivity. }
  pose proof (repair_unfixed now' _ H) as E.
  destruct (repair now' (fst (repair now m))) as [m' b]. cbn [fst snd] in *. now subst.
Qed.

Lemma cacheGet_In (c : list (string * DocumentMetadata)) (k : string)
    (m : DocumentMetadata) :
  cacheGet c k = Some m -> In (k, m) c.
Proof.
  unfold cacheGet.
  destruct (find (fun e => String.eqb (fst e) k) c) as [[k' m'] |] eqn:E; [| discriminate].
  intros H. injection H as <-. apply find_some in E. destruct E as [Hin He].
  apply String.eqb_eq in He. cbn [fst] in He. now subst.
Qed.

Lemma cacheSet_In (c : list (string * DocumentMetadata)) (k k' : string)
    (m x : DocumentMetadata) :
  NoDup (map fst c) -> In (k', x) (cacheSet c k m) ->
  (k' = k /\ x = m) \/ (k' <> k /\ In (k', x) c).
Proof.
  induction c as [| [k0 m0] r IH]; intros Hnd Hin; cbn [cacheSet] in Hin.
  - destruct Hin as [Hin | []]. injection Hin as <- <-. now left.
  - cbn [map fst] in Hnd. inversion Hnd as [| ? ? Hnotin Hnd']. subst.
    destruct (String.eqb k0 k) eqn:E.
    + apply String.eqb_eq in E. subst k0.
      destruct Hin as [Hin | Hin]; [injection Hin as <- <-; now left |].
      right. split; [| now right].
      intros ->. apply Hnotin. apply in_map_iff. exists (k, x). now split.
    + apply String.eqb_neq in E.
      destruct Hin as [Hin | Hin].
      * injection Hin as <- <-. right. split; [exact E | now left].
      * destruct (IH Hnd' Hin) as [H | [H1 H2]]; [now left | right; split; [exact H1 | now right]].
Qed.

Lemma cacheSet_self (c : list (string * DocumentMetadata)) (k : string)
    (m : DocumentMetadata) :
  In (k, m) (cacheSet c k m).
Proof.
  induction c as [| [k0 m0] r IH]; cbn [cacheSet]; [now left |].
  destruct (String.eqb k0 k) eqn:E.
  - apply String.eqb_eq in E. subst. now left.
  - now right.
Qed.

Lemma cache_functional (c : list (string * DocumentMetadata)) (k : string)
    (x y : DocumentMetadata) :
  NoDup (map fst c) -> In (k, x) c -> In (k, y) c -> x = y.
Proof.
  induction c as [| [k0 m0] r IH]; intros Hnd H1 H2; [destruct H1 |].
  cbn [map fst] in Hnd. inversion Hnd as [| ? ? Hnotin Hnd']. subst.
  destruct H1 as [H1 | H1], H2 as [H2 | H2].
  - congruence.
  - injection H1 as -> ->. exfalso. apply Hnotin. apply in_map_iff.
    exists (k, y). now split.
  - injection H2 as -> ->. exfalso. apply Hnotin. apply in_map_iff.
    exists (k, x). now split.
  - now apply IH.
Qed.

Lemma log_cache (st st' : State LogFile) (entry : AuditLogEntry) (r : result unit) :
  log LogFile appendFile rotateIfNeeded st entry = (r, st') ->
  documentCache LogFile st' = documentCache LogFile st.
Proof.
  unfold log. destruct (appendFile (logFile LogFile st) entry); intros H;
    injection H as _ <-; reflexivity.
Qed.

(** X21: whether or not its audit entry can be written, [fixMetadata]
    leaves the cached metadata valid, so that [validateAllMetadata] no
    longer reports the document, provided its id is a version-4 UUID and
    neither of its dates is an unparseable string. *)
Theorem fixMetadata_makes_valid (now : Z) (st st' : State LogFile) (k : string)
    (m : DocumentMetadata) (r : result unit) :
  NoDup (map fst (documentCache LogFile st)) ->
  cacheGet (documentCache LogFile st) k = Some m ->
  test uuidV4Regex (id m) = true ->
  created m <> BadTime -> updated m <> BadTime ->
  fixMetadata LogFile appendFile rotateIfNeeded now st (Some k) = (r, st') ->
  (forall i, In i (validateAllMetadata (documentCache LogFile st')) -> docId i <> Some k)
  /\ (forall x, In (k, x) (documentCache LogFile st') -> validateMetadata x = true).
Proof.
  intros Hnd Hg Hid Hc Hu H.
  assert (Hall : forall x, In (k, x) (documentCache LogFile st') ->
                           validateMetadata x = true).
  { unfold fixMetadata in H. rewrite Hg in H.
    pose proof (repair_valid now m Hid Hc Hu) as Hv.
    pose proof (repair_unfixed now m) as Hunf.
    destruct (repair now m) as [m' fixed]. cbn [fst snd] in *.
    destruct fixed.
    - apply log_cache in H. cbn [documentCache] in H. rewrite H.
      intros x Hx. apply (cacheSet_In _ _ _ _ _ Hnd) in Hx.
      destruct Hx as [[_ ->] | [Hne _]]; [exact Hv | congruence].
    - injection H as _ <-. intros x Hx. rewrite Hunf in Hv by reflexivity.
      apply cacheGet_In in Hg. now rewrite (cache_functional _ _ _ _ Hnd Hx Hg). }
  split; [| exact Hall].
  intros i Hi Hk. unfold validateAllMetadata in Hi. apply in_flat_map in Hi.
  destruct Hi as [[k' x] [Hin Hi]]. cbn [fst snd] in Hi.
  destruct (validateMetadata x) eqn:Ev; [destruct Hi |].
  destruct Hi as [<- | []]. cbn [docId] in Hk. injection Hk as ->.
  rewrite (Hall x Hin) in Ev. discriminate.
Qed.

End IntegrityRepairs.

Lemma fixMetadata_makes_valid_witness :
  let uuid := "550e8400-e29b-41d4-a716-446655440000" in
  let m := metadata (Samples.sampleDoc uuid ["src/a.ts"] ["a"] EmptyString NoTime) in
  let appendFile :=
    fun (_ : list IntegrityChecker.AuditLogEntry) (_ : IntegrityChecker.AuditLogEntry) =>
      @Throw (list IntegrityChecker.AuditLogEntry) (Error "EIO: i/o error") in
  let st := IntegrityChecker.mkState (list IntegrityChecker.AuditLogEntry) [(uuid, m)] [] in
  let out := IntegrityChecker.fixMetadata _ appendFile (fun f => f) 1000 st (Some uuid) in
  IntegrityChecker.validateMetadata m = false
  /\ fst out = Throw (Error "EIO: i/o error")
  /\ IntegrityChecker.validateAllMetadata (IntegrityChecker.documentCache _ (snd out)) = [].
Proof.
  intros uuid m appendFile st out.
  split; [reflexivity |]. split; [reflexivity |].
  destruct (fixMetadata_makes_valid _ appendFile (fun f => f) 1000 st (snd out) uuid m
              (fst out)) as [H _].
  - simpl. repeat constructor. simpl. tauto.
  - reflexivity.
  - reflexivity.
  - discriminate.
  - discriminate.
  - symmetry. apply surjective_pairing.
  - destruct (IntegrityChecker.validateAllMetadata
                (IntegrityChecker.documentCache _ (snd out))) as [| i r] eqn:E;
      [reflexivity |].
    exfalso. apply (H i (or_introl eq_refl)).
    assert (Hi : In i (IntegrityChecker.validateAllMetadata
                         (IntegrityChecker.documentCache _ (snd out))))
      by (rewrite E; now left).
    vm_compute in Hi. destruct Hi.
Defined.

Section IntegrityChecks.

Import IntegrityChecker Samples.

Variable LogFile : Type.
Variable appendFile : LogFile -> AuditLogEntry -> result LogFile.
Variable rotateIfNeeded : LogFile -> LogFile.

(** X22: the severity is low exactly when there is no issue, and one
    more issue never lowers it. *)
Theorem calculateSeverity_monotone (issue : IntegrityIssue) (issues : list IntegrityIssue) :
  (calculateSeverity issues = sev_low <-> issues = [])
  /\ (severityRank (calculateSeverity issues)
      <= severityRank (calculateSeverity (issue :: issues)))%nat.
Proof.
  split.
  - unfold calculateSeverity. destruct issues as [| i r]; [tauto |].
    cbn [length Nat.eqb]. split; [| discriminate].
    destruct (_ || _); [discriminate |]. destruct (_ || _); discriminate.
  - unfold calculateSeverity. cbn [length Nat.eqb existsb].
    destruct issues as [| i r]; [cbn; lia |]. cbn [length Nat.eqb].
    set (n := length r).
    destruct (Nat.ltb_spec 10 (S n)), (Nat.ltb_spec 10 (S (S n))),
             (Nat.ltb_spec 5 (S n)), (Nat.ltb_spec 5 (S (S n))); try lia;
      destruct (existsb (isType invalid_metadata) (i :: r));
      destruct (existsb (isType incomplete_operation) (i :: r));
      destruct (isType invalid_metadata issue);
      destruct (isType incomplete_operation issue); cbn; lia.
Qed.

(** X23: [syncFileToMemory] repairs a missing change log, whether or not
    its audit entry can be written, so that [checkFileMemorySync] no
    longer reports the document; an empty change log it leaves as it is,
    returning normally, and the document is reported again. *)
Theorem syncFileToMemory_repairs_missing_only (now : Z) (st st' : State LogFile)
    (k : string) (m : DocumentMetadata) (r : result unit) :
  NoDup (map fst (documentCache LogFile st)) ->
  cacheGet (documentCache LogFile st) k = Some m ->
  syncFileToMemory LogFile appendFile rotateIfNeeded now st (Some k) = (r, st') ->
  (change_log m = None ->
   forall i, In i (checkFileMemorySync (documentCache LogFile st')) -> docId i <> Some k)
  /\ (change_log m = Some [] ->
      r = Ok tt /\ st' = st
      /\ In (mkIssue file_memory_mismatch (Some k) None)
            (checkFileMemorySync (documentCache LogFile st'))).
Proof.
  intros Hnd Hg H. unfold syncFileToMemory in H. rewrite Hg in H. split.
  - intros Hcl. rewrite Hcl in H. apply log_cache in H. cbn [documentCache] in H.
    intros i Hi Hk. rewrite H in Hi. unfold checkFileMemorySync in Hi.
    apply in_flat_map in Hi. destruct Hi as [[k' x] [Hin Hi]]. cbn [fst snd] in Hi.
    destruct (lacksChangeLog x) eqn:El; [| destruct Hi].
    destruct Hi as [<- | []]. cbn [docId] in Hk. injection Hk as ->.
    apply (cacheSet_In _ _ _ _ _ Hnd) in Hin.
    destruct Hin as [[_ ->] | [Hne _]]; [discriminate El | congruence].
  - intros Hcl. rewrite Hcl in H. injection H as <- <-.
    split; [reflexivity |]. split; [reflexivity |].
    unfold checkFileMemorySync. apply in_flat_map. exists (k, m).
    split; [now apply cacheGet_In |]. cbn [fst snd]. unfold lacksChangeLog.
    rewrite Hcl. now left.
Qed.

End IntegrityChecks.

Lemma syncFileToMemory_repairs_missing_only_witness :
  let m := metadata (Samples.sampleDoc "id-1" ["src/a.ts"] ["a"] "first" (Time 0)) in
  let appendFile :=
    fun (f : list IntegrityChecker.AuditLogEntry) (e : IntegrityChecker.AuditLogEntry) =>
      Ok (f ++ [e]) in
  let st := IntegrityChecker.mkState (list IntegrityChecker.AuditLogEntry) [("id-1", m)] [] in
  let out := IntegrityChecker.syncFileToMemory _ appendFile (fun f => f) 1000 st (Some "id-1") in
  IntegrityChecker.checkFileMemorySync (IntegrityChecker.documentCache _ st)
  = [IntegrityChecker.mkIssue IntegrityChecker.file_memory_mismatch (Some "id-1") None]
  /\ forall i,
       In i (IntegrityChecker.checkFileMemorySync
               (IntegrityChecker.documentCache _ (snd out))) ->
       IntegrityChecker.docId i <> Some "id-1".
Proof.
  intros m appendFile st out. split; [reflexivity |].
  apply (syncFileToMemory_repairs_missing_only _ appendFile (fun f => f) 1000 st (snd out)
           "id-1" m (fst out)).
  - simpl. repeat constructor. simpl. tauto.
  - reflexivity.
  - symmetry. apply surjective_pairing.
  - reflexivity.
Defined.

(** ** Tags and keywords *)

Section TagsAndKeywords.

Import MetadataExtractor.

Lemma insert_by_count_perm (x : string * nat) (l : list (string * nat)) :
  Permutation (insert_by_count x l) (x :: l).
Proof.
  induction l as [| y r IH]; cbn [insert_by_count].
  - apply Permutation_refl.
  - destruct (Nat.leb (snd y) (snd x)).
    + apply Permutation_refl.
    + apply Permutation_trans with (y :: x :: r); [now apply perm_skip | apply perm_swap].
Qed.

Lemma sort_by_count_perm (l : list (string * nat)) : Permutation (sort_by_count l) l.
Proof.
  induction l as [| x r IH]; cbn [sort_by_count fold_right].
  - apply Permutation_refl.
  - apply Permutation_trans with (x :: sort_by_count r);
      [apply insert_by_count_perm | now apply perm_skip].
Qed.

Lemma insert_by_count_sorted (x : string * nat) (l : list (string * nat)) :
  StronglySorted (fun a b => snd b <= snd a)%nat l ->
  StronglySorted (fun a b => snd b <= snd a)%nat (insert_by_count x l).
Proof.
  intros Hs. induction Hs as [| y r Hr IH Hy]; cbn [insert_by_count].
  - constructor; constructor.
  - destruct (Nat.leb_spec (snd y) (snd x)) as [E | E].
    + constructor; [now constructor |]. constructor; [exact E |].
      rewrite Forall_forall in *. intros z Hz. specialize (Hy z Hz). lia.
    + constructor; [exact IH |].
      rewrite Forall_forall in *. intros z Hz.
      apply (Permutation_in _ (insert_by_count_perm x r)) in Hz.
      destruct Hz as [<- | Hz]; [lia | now apply Hy].
Qed.

Lemma sort_by_count_sorted (l : list (string * nat)) :
  StronglySorted (fun a b => snd b <= snd a)%nat (sort_by_count l).
Proof.
  induction l as [| x r IH]; cbn [sort_by_count fold_right].
  - constructor.
  - now apply insert_by_count_sorted.
Qed.

Lemma firstn_keeps_larger {A : Type} (R : A -> A -> Prop) (l : list A) :
  StronglySorted R l ->
  forall n x y, In x (firstn n l) -> In y l -> ~ R x y -> In y (firstn n l).
Proof.
  intros Hs. induction Hs as [| a r Hr IH Ha]; intros n x y Hx Hy Hn.
  - destruct Hy.
  - destruct n as [| n]; [destruct Hx |]. cbn [firstn] in *.
    destruct Hy as [-> | Hy]; [now left |]. right.
    destruct Hx as [<- | Hx].
    + exfalso. apply Hn. rewrite Forall_forall in Ha. now apply Ha.
    + now apply (IH n x y).
Qed.

Lemma NoDup_firstn {A : Type} (n : nat) (l : list A) : NoDup l -> NoDup (firstn n l).
Proof.
  intros H. revert n. induction H as [| a r Ha Hr IH]; intros [| n]; cbn [firstn];
    try constructor.
  - intros Hin. apply Ha. now apply (firstn_incl n r a).
  - apply IH.
Qed.

Lemma fileTags_nonempty (file tag : string) : In tag (fileTags file) -> tag <> EmptyString.
Proof.
  unfold fileTags. cbv zeta. intros H. apply in_app_or in H. destruct H as [H | H].
  - destruct (nth_error (split_char "/" file) 1) as [p |]; [| destruct H].
    destruct (Nat.ltb 1 (length (split_char "/" file))); cbn [andb] in H; [| destruct H].
    destruct (String.eqb_spec p EmptyString) as [E | E]; cbn [negb] in H; [destruct H |].
    destruct H as [<- | []]. exact E.
  - destruct (String.eqb (last (split_char "/" file) EmptyString) EmptyString);
      [destruct H |].
    destruct (split_char "." (last (split_char "/" file) EmptyString)) as [| b r];
      [destruct H |].
    destruct (String.eqb_spec b EmptyString) as [E | E]; [destruct H |].
    destruct H as [<- | []]. exact E.
Qed.

Lemma extractKeywords_words (text w : string) :
  In w (extractKeywords text) ->
  In w (filter (fun word => Nat.ltb 2 (str_length word) && negb (includes stopWords word))
               (split_ws (toLowerCase text))).
Proof.
  unfold extractKeywords, slice0. cbv zeta. intros H. apply firstn_incl in H.
  apply in_map_iff in H. destruct H as [[w' c] [<- H]].
  apply (Permutation_in _ (sort_by_count_perm _)) in H.
  apply in_map_iff in H. destruct H as [v [E H]]. injection E as <- _.
  cbn [fst]. exact (proj1 (mkSet_In _ _) H).
Qed.

(** X24: [extractKeywords] returns at most five distinct words of the
    lower-cased text, none of them a stop word, and prefers the frequent
    ones: a word of more than two UTF-16 code units that is no stop word
    and occurs more often than a returned one is returned as well. *)
Theorem extractKeywords_most_frequent (text : string) :
  let words :=
    filter (fun word => Nat.ltb 2 (str_length word) && negb (includes stopWords word))
           (split_ws (toLowerCase text)) in
  (length (extractKeywords text) <= 5)%nat
  /\ NoDup (extractKeywords text)
  /\ (forall w, In w (extractKeywords text) ->
                In w (split_ws (toLowerCase text)) /\ ~ In w stopWords)
  /\ (forall w w',
        In w (extractKeywords text) -> In w' words ->
        (count_occ string_dec words w < count_occ string_dec words w')%nat ->
        In w' (extractKeywords text)).
Proof.
  intros words. split; [apply firstn_le_length |]. split; [| split].
  - unfold extractKeywords, slice0. cbv zeta. fold words. apply NoDup_firstn.
    apply (Permutation_NoDup (l := mkSet words)); [| apply mkSet_NoDup].
    apply Permutation_sym.
    apply Permutation_trans
      with (map fst (map (fun w => (w, count_occ string_dec words w)) (mkSet words))).
    + apply Permutation_map, sort_by_count_perm.
    + rewrite map_map. cbn [fst]. rewrite map_id. apply Permutation_refl.
  - intros w Hw. apply extractKeywords_words in Hw. apply filter_In in Hw.
    destruct Hw as [Hin Hf]. split; [exact Hin |].
    apply andb_prop in Hf. destruct Hf as [_ Hf]. intros Hs.
    apply includes_In in Hs. rewrite Hs in Hf. discriminate.
  - intros w w' Hw Hw' Hlt. unfold extractKeywords, slice0 in *. cbv zeta in *.
    fold words in Hw |- *. rewrite firstn_map in Hw |- *.
    apply in_map_iff in Hw. destruct Hw as [[v c] [E Hw]]. cbn [fst] in E. subst v.
    set (freq := map (fun w => (w, count_occ string_dec words w)) (mkSet words)) in *.
    assert (Hc : c = count_occ string_dec words w).
    { apply firstn_incl in Hw. apply (Permutation_in _ (sort_by_count_perm _)) in Hw.
      unfold freq in Hw. apply in_map_iff in Hw. destruct Hw as [v [E _]].
      injection E as -> <-. reflexivity. }
    apply in_map_iff. exists (w', count_occ string_dec words w'). split; [reflexivity |].
    apply (firstn_keeps_larger _ _ (sort_by_count_sorted freq) 5 (w, c)); [exact Hw | |].
    + apply (Permutation_in _ (Permutation_sym (sort_by_count_perm _))).
      unfold freq. apply in_map_iff. exists w'. split; [reflexivity |].
      exact (proj2 (mkSet_In _ _) Hw').
    + cbn [snd]. subst c. lia.
Qed.

(** X25: [generateTags] returns at most ten tags, all different and none
    empty, each of them a keyword of the prompt or a tag of one of the
    files. *)
Theorem generateTags_bounds (prompt : string) (files : list string) :
  (length (generateTags prompt files) <= 10)%nat
  /\ NoDup (generateTags prompt files)
  /\ forall tag, In tag (generateTags prompt files) ->
       tag <> EmptyString
       /\ (In tag (extractKeywords prompt)
           \/ exists file, In file files /\ In tag (fileTags file)).
Proof.
  unfold generateTags, slice0. split; [apply firstn_le_length |].
  split; [apply NoDup_firstn, mkSet_NoDup |].
  intros tag H. apply firstn_incl in H. apply (proj1 (mkSet_In _ _)) in H.
  apply in_app_or in H.
  destruct H as [H | H].
  - split; [| now left]. apply extractKeywords_words in H. apply filter_In in H.
    destruct H as [_ H]. apply andb_prop in H. destruct H as [H _].
    intros ->. discriminate H.
  - apply in_flat_map in H. destruct H as [file [Hf Ht]].
    split; [now apply (fileTags_nonempty file) | right; now exists file].
Qed.

End TagsAndKeywords.

(** ** Fallback summaries *)

Section FallbackSummaries.

Import Summarizer DocumentManager Samples.

Lemma str_length_append (a b : string) :
  str_length (a ++ b) = (str_length a + str_length b)%nat.
Proof.
  induction a as [| c a IH]; cbn [append str_length]; [reflexivity |].
  rewrite IH. lia.
Qed.

Lemma units_of_le (c : ascii) : (units_of c <= 2)%nat.
Proof.
  unfold units_of. destruct (is_continuation _); [lia |]. destruct (N.leb 240 _); lia.
Qed.

Lemma units_of_continuation (n : N) :
  (128 <= n)%N -> (n < 192)%N -> units_of (ascii_of_N n) = 0%nat.
Proof.
  intros Hlo Hhi. unfold units_of, is_continuation.
  rewrite N_ascii_embedding by lia.
  apply N.leb_le in Hlo. apply N.ltb_lt in Hhi. now rewrite Hlo, Hhi.
Qed.

Lemma str_length_high_surrogate (c : ascii) (r : string) :
  str_length (high_surrogate c r) = 1%nat.
Proof.
  unfold high_surrogate. cbv zeta. cbn [str_length].
  set (w := ((fst (decode_at c r) - 65536) / 1024)%N).
  assert (H1 : ((w / 64) mod 16 < 16)%N) by (apply N.mod_lt; discriminate).
  assert (H2 : (w mod 64 < 64)%N) by (apply N.mod_lt; discriminate).
  rewrite (units_of_continuation (160 + (w / 64) mod 16)),
          (units_of_continuation (128 + w mod 64)).
  - reflexivity.
  - apply N.le_add_r.
  - revert H2. generalize (w mod 64)%N. intros x Hx. lia.
  - apply (N.le_trans _ 160); [discriminate | apply N.le_add_r].
  - revert H1. generalize ((w / 64) mod 16)%N. intros x Hx. lia.
Qed.

Lemma str_length_take_units (n : nat) (s : string) :
  str_length (take_units n s) = Nat.min n (str_length s).
Proof.
  revert n. induction s as [| c s IH]; intros n; cbn [take_units str_length].
  - now rewrite Nat.min_0_r.
  - pose proof (units_of_le c) as Hle.
    destruct (units_of c) as [| [| u]] eqn:U.
    + cbn [str_length]. rewrite U, IH. reflexivity.
    + destruct n as [| n]; cbn [str_length]; [reflexivity |]. rewrite U, IH. reflexivity.
    + assert (u = 0%nat) by lia. subst u.
      destruct n as [| [| n]]; cbn [str_length].
      * reflexivity.
      * now rewrite str_length_high_surrogate.
      * rewrite U, IH. reflexivity.
Qed.

Lemma length_slice_to (s : string) (stop : Z) :
  Z.of_nat (str_length (slice_to s stop))
  = (if Z.ltb stop 0 then Z.max (Z.of_nat (str_length s) + stop) 0
     else Z.min stop (Z.of_nat (str_length s)))%Z.
Proof.
  unfold slice_to. cbv zeta. rewrite str_length_take_units.
  destruct (Z.ltb_spec stop 0); lia.
Qed.

(** X26: the fallback summary has at most [maxLength] UTF-16 code units
    exactly when [maxLength] is at least 3 or the first paragraph fits as
    it is: below 3, a longer first paragraph gives a summary longer than
    [maxLength]. *)
Theorem fallbackSummarize_length (content : string) (maxLength : nat) :
  (str_length (fallbackSummarize content maxLength) <= maxLength)%nat
  <-> (3 <= maxLength)%nat
      \/ (str_length (firstParagraph content) <= maxLength)%nat.
Proof.
  unfold fallbackSummarize. cbv zeta.
  destruct (String.eqb_spec (firstParagraph content) EmptyString) as [E | E].
  - rewrite E. cbn [str_length]. split; intros _; [right |]; lia.
  - destruct (Nat.leb_spec (str_length (firstParagraph content)) maxLength) as [L | L].
    + split; intros _; [now right | exact L].
    + rewrite str_length_append. change (str_length "...") with 3%nat.
      pose proof (length_slice_to (firstParagraph content) (Z.of_nat maxLength - 3)) as H.
      destruct (Z.ltb_spec (Z.of_nat maxLength - 3) 0); lia.
Qed.

Lemma firstParagraph_heading (rest : string) :
  firstParagraph ("## 実装概要" ++ nl ++ nl ++ rest) = "## 実装概要"%string.
Proof.
  unfold nl. destruct rest; reflexivity.
Qed.

Lemma generateContent_firstParagraph (env : Env) (files : list string) (prompt : string) :
  firstParagraph (generateContent env files prompt) = "## 実装概要"%string.
Proof.
  unfold generateContent. cbv zeta.
  match goal with
  | |- firstParagraph ((_ ++ nl ++ nl ++ ?a) ++ ?b) = _ =>
      change (firstParagraph ("## 実装概要" ++ nl ++ nl ++ (a ++ b)) = "## 実装概要"%string)
  end.
  apply firstParagraph_heading.
Qed.

(** X27: when Ollama is not reachable, the automatic summaries of a
    created document are the first heading of its body, whatever the
    prompt and the files: the ultra and the standard summary always, the
    summary when none (or an empty one) is given; the file is then named
    after the date and the first segment of the id alone. *)
Theorem createDocument_offline_summaries (env : Env) (now : Z) (uuid : string)
    (st : Store) (params : CreateDocParams) :
  (forall content maxLength,
      summarize env content maxLength = Summarizer.summarize (fun _ _ => None) content maxLength) ->
  let doc := fst (createDocument env now uuid st params) in
  ultra_summary (metadata doc) = "## 実装概要"%string
  /\ standard_summary (metadata doc) = "## 実装概要"%string
  /\ (p_summary params = None \/ p_summary params = Some EmptyString ->
      summary (metadata doc) = "## 実装概要"%string
      /\ file_path doc
         = (isoDate env now ++ "_" ++ hd EmptyString (split_char "-" uuid) ++ "_-.md")%string).
Proof.
  intros Henv doc.
  assert (Hs : forall n, (50 <= n)%nat ->
             summarize env (generateContent env (p_files params) (p_prompt params)) n
             = "## 実装概要"%string).
  { intros n Hn. rewrite Henv. unfold Summarizer.summarize, fallbackSummarize. cbv zeta.
    rewrite generateContent_firstParagraph.
    replace (String.eqb "## 実装概要" EmptyString) with false by reflexivity.
    replace (Nat.leb (str_length "## 実装概要") n) with true; [reflexivity |].
    symmetry. apply Nat.leb_le. change (str_length "## 実装概要") with 7%nat. lia. }
  subst doc. unfold createDocument. cbv zeta. cbn [fst metadata file_path].
  unfold set_summaries. cbn [ultra_summary standard_summary summary].
  split; [apply Hs; lia |]. split; [apply Hs; lia |].
  intros Hp.
  assert (Hsum : match p_summary params with
                 | Some s =>
                     if String.eqb s EmptyString
                     then summarize env
                            (generateContent env (p_files params) (p_prompt params)) 100
                     else s
                 | None =>
                     summarize env (generateContent env (p_files params) (p_prompt params)) 100
                 end = "## 実装概要"%string).
  { destruct Hp as [-> | ->]; cbn [String.eqb]; apply Hs; lia. }
  rewrite Hsum. split; [reflexivity |].
  unfold generateFileName. cbn [created id summary generateMetadata]. reflexivity.
Qed.

End FallbackSummaries.

Lemma createDocument_offline_summaries_witness :
  let params := mkCreateDocParams ["src/auth/login.ts"] "add the login form" None in
  let doc :=
    fst (DocumentManager.createDocument Samples.offlineEnv 0 "550e8400-e29b-41d4-a716-446655440000"
           (DocumentManager.mkStore [] []) params) in
  ultra_summary (metadata doc) = "## 実装概要"%string
  /\ summary (metadata doc) = "## 実装概要"%string
  /\ file_path doc = "2025-11-19_550e8400_-.md"%string.
Proof.
  intros params doc.
  destruct (createDocument_offline_summaries Samples.offlineEnv 0
              "550e8400-e29b-41d4-a716-446655440000" (DocumentManager.mkStore [] []) params)
    as [Hu [_ Hs]].
  - reflexivity.
  - split; [exact Hu |]. destruct (Hs (or_introl eq_refl)) as [H1 H2].
    split; [exact H1 | exact H2].
Defined.

(** ** What the recovery leaves alone *)

Section RecoveryInvariant.

Import IntegrityChecker.

Variable LogFile : Type.
Variable appendFile : LogFile -> AuditLogEntry -> result LogFile.
Variable rotateIfNeeded : LogFile -> LogFile.

Lemma findIncompleteOperations_cacheSet (c : list (string * DocumentMetadata))
    (k : string) (m m' : DocumentMetadata) :
  cacheGet c k = Some m ->
  merged_from m' = merged_from m ->
  merge_timestamp m' = merge_timestamp m ->
  is_merged m' = is_merged m ->
  findIncompleteOperations (cacheSet c k m') = findIncompleteOperations c.
Proof.
  intros Hg Hf Ht Hi. induction c as [| [k0 m0] r IH]; [discriminate Hg |].
  unfold cacheGet in Hg. cbn [find fst] in Hg. cbn [cacheSet].
  destruct (String.eqb k0 k) eqn:E.
  - cbn [snd] in Hg. injection Hg as ->.
    unfold findIncompleteOperations, hasTimestamp, isMerged. cbn [flat_map fst snd].
    now rewrite Hf, Ht, Hi.
  - unfold findIncompleteOperations in *. cbn [flat_map]. f_equal. apply IH. exact Hg.
Qed.

Lemma log_snd_cache (st : State LogFile) (entry : AuditLogEntry) :
  documentCache LogFile (snd (log LogFile appendFile rotateIfNeeded st entry))
  = documentCache LogFile st.
Proof.
  unfold log. destruct (appendFile (logFile LogFile st) entry); reflexivity.
Qed.

Lemma fixIssue_incomplete (now : Z) (st : State LogFile) (issue : IntegrityIssue) :
  findIncompleteOperations
    (documentCache LogFile (snd (fixIssue LogFile appendFile rotateIfNeeded now st issue)))
  = findIncompleteOperations (documentCache LogFile st).
Proof.
  unfold fixIssue. destruct (type issue).
  - unfold fixMetadata. destruct (docId issue) as [k |]; [| reflexivity].
    destruct (cacheGet (documentCache LogFile st) k) as [m |] eqn:Hg; [| reflexivity].
    destruct (repair now m) as [m' fixed] eqn:Er. destruct fixed; [| reflexivity].
    rewrite log_snd_cache. cbn [documentCache].
    apply (findIncompleteOperations_cacheSet _ k m m' Hg);
      unfold repair in Er; injection Er as <- _; reflexivity.
  - unfold completeOperation. now rewrite log_snd_cache.
  - unfold syncFileToMemory. destruct (docId issue) as [k |]; [| reflexivity].
    destruct (cacheGet (documentCache LogFile st) k) as [m |] eqn:Hg; [| reflexivity].
    destruct (change_log m); [reflexivity |].
    rewrite log_snd_cache. cbn [documentCache].
    apply (findIncompleteOperations_cacheSet _ k m _ Hg); reflexivity.
Qed.

Lemma recoverLoop_incomplete (now : Z) (issues : list IntegrityIssue) :
  forall (st : State LogFile) (n : nat),
    findIncompleteOperations
      (documentCache LogFile
         (snd (recoverLoop LogFile appendFile rotateIfNeeded now st issues n)))
    = findIncompleteOperations (documentCache LogFile st).
Proof.
  induction issues as [| issue r IH]; intros st n; cbn [recoverLoop]; [reflexivity |].
  pose proof (fixIssue_incomplete now st issue) as H.
  destruct (fixIssue LogFile appendFile rotateIfNeeded now st issue) as [[u | e] st1];
    cbn [snd] in H; rewrite IH; exact H.
Qed.

Lemma recoverLoop_operations (now : Z) (issues : list IntegrityIssue) :
  (forall i, In i issues -> type i = incomplete_operation) ->
  (forall f e, exists f', appendFile f e = Ok f') ->
  forall (st : State LogFile) (n : nat),
    fst (recoverLoop LogFile appendFile rotateIfNeeded now st issues n)
    = (n + length issues)%nat
    /\ documentCache LogFile
         (snd (recoverLoop LogFile appendFile rotateIfNeeded now st issues n))
       = documentCache LogFile st.
Proof.
  intros Hty Hio. induction issues as [| issue r IH]; intros st n; cbn [recoverLoop length].
  - cbn [fst snd]. split; [lia | reflexivity].
  - unfold fixIssue. rewrite (Hty issue (or_introl eq_refl)).
    unfold completeOperation, log.
    destruct (Hio (logFile LogFile st)
                  (mkEntry (Time now) "complete_operation" "system"
                           (DetailsOperation (operation issue)) medium)) as [f' ->].
    destruct (IH (fun i Hi => Hty i (or_intror Hi))
                 (mkState LogFile (documentCache LogFile st) (rotateIfNeeded f')) (S n))
      as [H1 H2].
    rewrite H1, H2. split; [lia | reflexivity].
Qed.

(** X28: [recover] never resolves an incomplete operation: whatever
    issues it is given, [findIncompleteOperations] reports afterwards what
    it reported before.  Given incomplete operations only, and an audit
    log that can be written, it still counts every one of them as
    recovered, and the cache is as before. *)
Theorem recover_keeps_incomplete_operations (now : Z) (st : State LogFile)
    (issues : list IntegrityIssue) :
  findIncompleteOperations
    (documentCache LogFile (snd (recover LogFile appendFile rotateIfNeeded now st issues)))
  = findIncompleteOperations (documentCache LogFile st)
  /\ ((forall i, In i issues -> type i = incomplete_operation) ->
      (forall f e, exists f', appendFile f e = Ok f') ->
      exists st',
        recover LogFile appendFile rotateIfNeeded now st issues
        = (Ok (mkRecoveryResult (length issues) (length issues)), st')
        /\ documentCache LogFile st' = documentCache LogFile st).
Proof.
  split.
  - unfold recover.
    pose proof (recoverLoop_incomplete now issues st 0) as H.
    destruct (recoverLoop LogFile appendFile rotateIfNeeded now st issues 0)
      as [recovered st1].
    cbn [snd] in H. rewrite <- H.
    pose proof (log_snd_cache st1
                  (recoveryEntry now (mkRecoveryResult (length issues) recovered))) as Hl.
    destruct (log LogFile appendFile rotateIfNeeded st1
                (recoveryEntry now (mkRecoveryResult (length issues) recovered)))
      as [[u | e] st2]; cbn [snd] in *; now rewrite Hl.
  - intros Hty Hio. unfold recover.
    destruct (recoverLoop_operations now issues Hty Hio st 0) as [H1 H2].
    destruct (recoverLoop LogFile appendFile rotateIfNeeded now st issues 0)
      as [recovered st1].
    cbn [fst snd] in H1, H2. subst recovered. cbn [Nat.add].
    unfold log.
    destruct (Hio (logFile LogFile st1)
                  (recoveryEntry now (mkRecoveryResult (length issues) (length issues))))
      as [f' ->].
    eexists. split; [reflexivity |]. cbn [documentCache]. exact H2.
Qed.

End RecoveryInvariant.

Lemma recover_keeps_incomplete_operations_witness :
  let m :=
    mkMetadata "id-1" (Time 0) (Time 0) (Author "dev@example.com") ["a"] "sha256:00"
      ["src/a.ts"] "first" "first" "first" "nomic-embed-text" "1.0"
      None None (Some (Time 5)) None None None in
  let appendFile :=
    fun (f : list IntegrityChecker.AuditLogEntry) (e : IntegrityChecker.AuditLogEntry) =>
      Ok (f ++ [e]) in
  let st := IntegrityChecker.mkState (list IntegrityChecker.AuditLogEntry) [("id-1", m)] [] in
  let issues := IntegrityChecker.findIncompleteOperations [("id-1", m)] in
  let out := IntegrityChecker.recover _ appendFile (fun f => f) 1000 st issues in
  issues = [IntegrityChecker.mkIssue IntegrityChecker.incomplete_operation
              (Some "id-1") (Some "merge")]
  /\ fst out = Ok (IntegrityChecker.mkRecoveryResult 1 1)
  /\ IntegrityChecker.findIncompleteOperations (IntegrityChecker.documentCache _ (snd out))
     = issues.
Proof.
  intros m appendFile st issues out.
  destruct (recover_keeps_incomplete_operations _ appendFile (fun f => f) 1000 st issues)
    as [H1 H2].
  split; [reflexivity |]. split; [| exact H1].
  destruct H2 as [st' [E _]].
  - intros i [<- | []]. reflexivity.
  - intros f e. eexists. reflexivity.
  - unfold out. rewrite E. reflexivity.
Defined.

(** ** Stale documents *)

Lemma fifty_days (a b : Q) :
  b < a - 50 * 24 * 60 * 60 * 1000 <-> 50 < (a - b) / QualityManager.msPerDay.
Proof.
  split; intros H.
  - apply Qlt_shift_div_l; [apply msPerDay_pos |].
    change QualityManager.msPerDay with (86400000 # 1). lra.
  - assert (E : (86400000 # 1) * ((a - b) / QualityManager.msPerDay) == a - b)
      by (apply Qmult_div_r; discriminate).
    revert H E. generalize ((a - b) / QualityManager.msPerDay). intros q H E. lra.
Qed.

Section StaleDocuments.

Import QualityManager.

Variable toFixed : number -> nat -> string.

(** X29: for a threshold of 50 days, [detectStaleInfo] returns exactly
    the documents that [checkDocumentQuality] reports as stale, in input
    order. *)
Theorem detectStaleInfo_matches_quality_check (now : Z) (docs : list Document) :
  detectStaleInfo now docs 50
  = filter (fun doc => existsb (fun i => match i_type i with stale => true | _ => false end)
                               (docIssues toFixed now doc))
           docs
  /\ forall doc,
       In doc (detectStaleInfo now docs 50)
       <-> In doc docs /\ exists i, In i (docIssues toFixed now doc) /\ i_type i = stale.
Proof.
  assert (Hiff : forall doc,
             nlt (getTime (created (metadata doc)))
                 (Num (inject_Z now - 50 * 24 * 60 * 60 * 1000)) = true
             <-> exists i, In i (docIssues toFixed now doc) /\ i_type i = stale).
  { intros doc. rewrite docIssues_stale_iff.
    destruct (created (metadata doc)) as [| | t] eqn:Ec; cbn [getTime nlt].
    - split; [discriminate | intros [t [E _]]; discriminate].
    - split; [discriminate | intros [t [E _]]; discriminate].
    - split.
      + intros H. exists t. split; [reflexivity |]. apply fifty_days.
        destruct (Qlt_le_dec (inject_Z t) (inject_Z now - 50 * 24 * 60 * 60 * 1000))
          as [Hlt | Hle]; [exact Hlt |].
        apply Qle_bool_iff in Hle. rewrite Hle in H. discriminate H.
      + intros [t' [E Hage]]. injection E as <-. apply fifty_days in Hage.
        destruct (Qle_bool (inject_Z now - 50 * 24 * 60 * 60 * 1000) (inject_Z t)) eqn:E;
          [| reflexivity].
        apply Qle_bool_iff in E. exfalso. apply (Qlt_not_le _ _ Hage E). }
  split.
  - unfold detectStaleInfo. cbv zeta. apply filter_ext. intros doc.
    destruct (existsb _ (docIssues toFixed now doc)) eqn:E.
    + apply Hiff. apply existsb_exists in E. destruct E as [i [Hin Hi]].
      exists i. split; [exact Hin |]. destruct (i_type i); try discriminate. reflexivity.
    + destruct (nlt _ _) eqn:En; [| reflexivity].
      apply Hiff in En. destruct En as [i [Hin Hi]].
      assert (Ht : existsb (fun i => match i_type i with stale => true | _ => false end)
                           (docIssues toFixed now doc) = true).
      { apply existsb_exists. exists i. split; [exact Hin |]. now rewrite Hi. }
      congruence.
  - intros doc. unfold detectStaleInfo. cbv zeta. rewrite filter_In, Hiff. tauto.
Qed.

End StaleDocuments.

(** ** The most recent documents *)

Section RecentDocuments.

Import MCPServer DocumentManager Samples.

(** X30: without a project context [getRecentDocumentsFromMemory]
    returns nothing.  With one, and creation times that all parse, it
    returns at most [count] cached documents, newest first, and leaves out
    no cached document that is newer than a returned one. *)
Theorem getRecentDocumentsFromMemory_newest (ctx : ProjectContext)
    (documentCache : list (string * Document)) (count : nat) :
  (forall key d, In (key, d) documentCache -> exists ms, created (metadata d) = Time ms) ->
  let recent := getRecentDocumentsFromMemory (Some ctx) documentCache count in
  getRecentDocumentsFromMemory None documentCache count = []
  /\ (length recent <= count)%nat
  /\ StronglySorted (fun a b => (createdMs b <= createdMs a)%Z) recent
  /\ (forall d, In d recent -> exists key, In (key, d) documentCache)
  /\ (forall d d', In d recent -> In d' (map snd documentCache) ->
                   (createdMs d < createdMs d')%Z -> In d' recent).
Proof.
  intros Hparse recent. subst recent. unfold getRecentDocumentsFromMemory, slice0.
  set (cmp := fun a b : Document =>
                nsub (getTime (created (metadata b))) (getTime (created (metadata a)))).
  assert (Hall : forall d, In d (map snd documentCache) ->
                           created (metadata d) = Time (createdMs d)).
  { intros d Hd. apply in_map_iff in Hd. destruct Hd as [[key d'] [<- Hin]].
    destruct (Hparse key d' Hin) as [ms E]. cbn [snd]. unfold createdMs. now rewrite E. }
  assert (Hs : StronglySorted (fun a b => (createdMs b <= createdMs a)%Z)
                              (sortBy cmp (map snd documentCache))).
  { apply StronglySorted_weaken
      with (R := fun a b => inject_Z (createdMs b) <= inject_Z (createdMs a)).
    { intros a b H. rewrite Zle_Qle. exact H. }
    apply sortBy_sorted with (key := fun d => inject_Z (createdMs d)).
    intros x y Hx Hy. unfold cmp. rewrite (Hall x Hx), (Hall y Hy). reflexivity. }
  split; [reflexivity |]. split; [apply firstn_le_length |].
  split; [now apply StronglySorted_firstn |]. split.
  - intros d Hd. apply firstn_incl in Hd. apply (proj1 (sortBy_In cmp _ d)) in Hd.
    apply in_map_iff in Hd. destruct Hd as [[key d'] [<- Hin]]. now exists key.
  - intros d d' Hd Hd' Hlt.
    apply (firstn_keeps_larger _ _ Hs count d d'); [exact Hd | | lia].
    exact (proj2 (sortBy_In cmp _ d') Hd').
Qed.

End RecentDocuments.

Lemma getRecentDocumentsFromMemory_newest_witness :
  let a := Samples.sampleDoc "id-1" ["src/a.ts"] ["a"] "first" (Time 100) in
  let b := Samples.sampleDoc "id-2" ["src/b.ts"] ["b"] "second" (Time 300) in
  let c := Samples.sampleDoc "id-3" ["src/c.ts"] ["c"] "third" (Time 200) in
  let cache := [("id-1", a); ("id-2", b); ("id-3", c)] in
  let recent :=
    MCPServer.getRecentDocumentsFromMemory (Some (MCPServer.mkContext [] [] [] [])) cache 2 in
  map (fun d => id (metadata d)) recent = ["id-2"; "id-3"]
  /\ StronglySorted
       (fun x y => (DocumentManager.createdMs y <= DocumentManager.createdMs x)%Z) recent.
Proof.
  intros a b c cache recent. split; [reflexivity |].
  apply (getRecentDocumentsFromMemory_newest (MCPServer.mkContext [] [] [] []) cache 2).
  intros key d Hd. simpl in Hd.
  destruct Hd as [Hd | [Hd | [Hd | []]]]; injection Hd as _ <-; eexists; reflexivity.
Defined.
